(** * quick-todo: input parsing and persistence layer (scripts/storage.js)

    A shallow embedding of [InputProcessor] and [TodoStorage] and the
    properties of the design document that concern them, followed by the
    handlers of [TodoApp] (main.js) that call them.

    Conventions of the embedding.
    - A JavaScript string is the list of its UTF-16 code units; [length]
      is the script's [.length] and "character" means code unit.
    - A JavaScript value is a [value]: plain data (what JSON text and
      literals denote, plus [undefined]).  Numbers are integers: the
      program never computes with the numbers of a document, it only
      asks for their type and truthiness.
    - A string that is handed to [JSON.parse] or comes out of
      [JSON.stringify] is a [text]: it is seen through the value it
      denotes, so that parsing what was serialised gives the value back
      (up to [json_clean]); [JSON.stringify(data, null, 2)] and
      [JSON.stringify(data)] denote the same value.
    - Effects go through the monad [M] over [world]: the entries of
      localStorage, what the backend does to its next calls (serve or
      throw), the log of the calls it received, and the count of readings
      of the clock and random source, whose values come from an [engine].
    - The calls to [console] are left out; the DOM round trip of
      [escapeHtml] is the serialisation of a text node; [getDebugInfo]
      (which measures the serialised text) is not part of the embedding.
    - Of [TodoApp] the embedding keeps the state its handlers compute
      with, [this.data] and the value of the input field, and what they
      ask of the store; what they then show (the list rendered from
      [this.data], focus, button states) is left out. *)

From Stdlib Require Import ZArith NArith List String Ascii Bool Lia Permutation Sorted DecimalString.
From Stdlib Require DecimalZ DecimalPos.
From stdpp Require Import base gmap list.
Import ListNotations.
Open Scope N_scope.

(** ** Strings *)

Abbreviation jsstring := (list N).

Definition lit (s : string) : jsstring :=
  List.map N_of_ascii (list_ascii_of_string s).

Definition jsstring_eqb (a b : jsstring) : bool := bool_decide (a = b).

(** Code units matched by [\s] and stripped by [String.prototype.trim]:
    the WhiteSpace and LineTerminator productions of ECMAScript. *)
Definition is_ws (c : N) : bool :=
  (9 <=? c) && (c <=? 13)
  || (c =? 32) || (c =? 160) || (c =? 5760)
  || (8192 <=? c) && (c <=? 8202)
  || (c =? 8232) || (c =? 8233) || (c =? 8239) || (c =? 8287)
  || (c =? 12288) || (c =? 65279).

Fixpoint trimStart (s : jsstring) : jsstring :=
  match s with
  | [] => []
  | c :: r => if is_ws c then trimStart r else s
  end.

Definition trimEnd (s : jsstring) : jsstring := rev (trimStart (rev s)).

(** [s.trim()] *)
Definition trim (s : jsstring) : jsstring := trimEnd (trimStart s).

(** [s.replace(/\s+/g, ' ')]: a left-to-right scan; [in_run] tells that the
    previous code unit belonged to the match being replaced. *)
Fixpoint replace_ws_runs (in_run : bool) (s : jsstring) : jsstring :=
  match s with
  | [] => []
  | c :: r =>
      if is_ws c
      then (if in_run then replace_ws_runs true r else 32 :: replace_ws_runs true r)
      else c :: replace_ws_runs false r
  end.

(** [s.slice(0, n)] *)
Definition slice0 (n : nat) (s : jsstring) : jsstring := firstn n s.

(** The character class of the separator regex, in the order it is
    written: U+002C, U+FF0C, U+3001 and the escape for U+FF0C again. *)
Definition separators : list N := [44; 65292; 12289; 65292].

Definition is_separator (c : N) : bool := existsb (N.eqb c) separators.

(** [separatorRegex.test(s)] *)
Definition separator_test (s : jsstring) : bool := existsb is_separator s.

(** [s.split(re)] for the separator regex [re] *)
Fixpoint split_sep (s : jsstring) : list jsstring :=
  match s with
  | [] => [[]]
  | c :: r =>
      if is_separator c then [] :: split_sep r
      else match split_sep r with
           | h :: t => (c :: h) :: t
           | [] => [[c]]
           end
  end.

(** ** Values *)

#[warnings="-register-all"]
Inductive value : Type :=
| VUndef
| VNull
| VBool (b : bool)
| VNum (n : Z)
| VStr (s : jsstring)
| VArr (elems : list value)
| VObj (props : list (jsstring * value)).

Inductive jstype := TUndefined | TObject | TBoolean | TNumber | TString.

Definition typeof (v : value) : jstype :=
  match v with
  | VUndef => TUndefined
  | VNull | VArr _ | VObj _ => TObject
  | VBool _ => TBoolean
  | VNum _ => TNumber
  | VStr _ => TString
  end.

Definition jstype_eqb (a b : jstype) : bool :=
  match a, b with
  | TUndefined, TUndefined | TObject, TObject | TBoolean, TBoolean
  | TNumber, TNumber | TString, TString => true
  | _, _ => false
  end.

(** ToBoolean *)
Definition truthy (v : value) : bool :=
  match v with
  | VUndef | VNull => false
  | VBool b => b
  | VNum n => negb (n =? 0)%Z
  | VStr s => match s with [] => false | _ => true end
  | VArr _ | VObj _ => true
  end.

(** ** InputProcessor *)

(** What [div.textContent = s; div.innerHTML] gives back: the HTML
    serialisation of one text node, which escapes a string outside
    attributes: U+0026 becomes "&amp;", U+00A0 "&nbsp;", U+003C "&lt;" and
    U+003E "&gt;"; every other code unit stands for itself. *)
Definition escape_unit (c : N) : jsstring :=
  if c =? 38 then lit "&amp;"
  else if c =? 160 then lit "&nbsp;"
  else if c =? 60 then lit "&lt;"
  else if c =? 62 then lit "&gt;"
  else [c].

Definition text_node_innerHTML (s : jsstring) : jsstring :=
  List.flat_map escape_unit s.

Module InputProcessor.

(** storage.js, lines 54-60 *)
Definition sanitizeItem (text : value) : jsstring :=
  if negb (truthy text) || negb (jstype_eqb (typeof text) TString) then []
  else match text with
       | VStr s => slice0 200 (replace_ws_runs false (trim s))
       | _ => []
       end.

(** storage.js, lines 25-47 *)
Definition parseInput (text : value) : list jsstring :=
  if negb (truthy text) || negb (jstype_eqb (typeof text) TString) then []
  else match text with
       | VStr s =>
           let items := if separator_test s then split_sep s else [s] in
           List.filter (fun item => (0 <? length item)%nat)
             (List.map (fun item => sanitizeItem (VStr item)) items)
       | _ => []
       end.

(** storage.js, lines 67-75 *)
Definition escapeHtml (text : value) : jsstring :=
  if negb (truthy text) || negb (jstype_eqb (typeof text) TString) then []
  else match text with
       | VStr s => text_node_innerHTML s
       | _ => []
       end.

End InputProcessor.

(** ** Objects *)

Abbreviation props := (list (jsstring * value)).

Fixpoint get_own (k : jsstring) (ps : props) : option value :=
  match ps with
  | [] => None
  | (k', v) :: r => if jsstring_eqb k' k then Some v else get_own k r
  end.

(** Assignment to a property: in place when the key exists, appended
    otherwise (insertion order is kept, as in the script's objects). *)
Fixpoint set_prop (k : jsstring) (v : value) (ps : props) : props :=
  match ps with
  | [] => [(k, v)]
  | (k', v') :: r =>
      if jsstring_eqb k' k then (k, v) :: r else (k', v') :: set_prop k v r
  end.

Definition index_key (i : nat) : jsstring :=
  lit (NilEmpty.string_of_uint (Nat.to_uint i)).

(** The own enumerable properties a spread [...v] copies. *)
Definition own_props (v : value) : props :=
  match v with
  | VObj ps => ps
  | VArr l => imap (fun i x => (index_key i, x)) l
  | VStr s => imap (fun i c => (index_key i, VStr [c])) s
  | _ => []
  end.

(** [{ ...target, ...src }] *)
Definition spread (target : props) (src : value) : props :=
  fold_left (fun o kv => set_prop (fst kv) (snd kv) o) (own_props src) target.

(** [v.k] for a [v] that is neither [undefined] nor [null]. *)
Definition get_prop (v : value) (k : jsstring) : value :=
  match v with
  | VObj ps => default VUndef (get_own k ps)
  | VArr l =>
      if jsstring_eqb k (lit "length") then VNum (Z.of_nat (length l))
      else default VUndef (get_own k (own_props v))
  | VStr s =>
      if jsstring_eqb k (lit "length") then VNum (Z.of_nat (length s))
      else default VUndef (get_own k (own_props v))
  | _ => VUndef
  end.

(** [a === b].  Objects and arrays are compared by reference; the two
    sides of every [===] of this program are never the same reference
    (one side is freshly read from storage), hence [false]. *)
Definition strict_eq (a b : value) : bool :=
  match a, b with
  | VUndef, VUndef | VNull, VNull => true
  | VBool x, VBool y => Bool.eqb x y
  | VNum x, VNum y => (x =? y)%Z
  | VStr x, VStr y => jsstring_eqb x y
  | _, _ => false
  end.

(** ** JSON text *)

(** What [JSON.parse (JSON.stringify v)] gives back: properties holding
    [undefined] vanish, [undefined] array elements become [null]. *)
Fixpoint json_clean (v : value) : value :=
  match v with
  | VArr l =>
      VArr (List.map (fun x => match x with VUndef => VNull | _ => json_clean x end) l)
  | VObj ps =>
      VObj ((fix go (ps : props) : props :=
               match ps with
               | [] => []
               | (k, x) :: r =>
                   match x with
                   | VUndef => go r
                   | _ => (k, json_clean x) :: go r
                   end
               end) ps)
  | _ => v
  end.

(** An argument of [JSON.parse], seen through what it denotes. *)
Inductive text :=
| Json (v : value)
| NotJson (s : jsstring).

Definition JSON_stringify (v : value) : text :=
  match v with
  | VUndef => NotJson (lit "undefined")
  | _ => Json (json_clean v)
  end.

(** ** The world: storage backend, clock, random source *)

Inductive exn :=
| TypeError
| SyntaxError
| DOMException (name : jsstring)
| Error (message : jsstring).

Definition exn_name (e : exn) : jsstring :=
  match e with
  | TypeError => lit "TypeError"
  | SyntaxError => lit "SyntaxError"
  | DOMException n => n
  | Error _ => lit "Error"
  end.

Definition QuotaExceededError : exn := DOMException (lit "QuotaExceededError").

Inductive call :=
| GetItem (k : jsstring)
| SetItem (k : jsstring) (t : text)
| RemoveItem (k : jsstring).

(** [faults] is what the backend will do at its next calls: [Some e]
    refuses the call by throwing [e], [None] (or no entry) serves it.
    [calls] records every call made to the backend, latest first.
    [tick] counts the readings of the clock and the random source. *)
Record world := World {
  localStorage : gmap jsstring text;
  faults : list (option exn);
  calls : list call;
  tick : nat
}.

(** The engine under the script: clock and random source as functions of
    the reading's number, and the time value of [new Date(v)]
    ([None] for an invalid date). *)
Record engine := Engine {
  Date_now : nat -> Z;
  Date_toISOString : nat -> jsstring;
  Math_random_toString36 : nat -> jsstring;
  Date_value : value -> option Z
}.

Inductive outcome (A : Type) :=
| Ret (a : A)
| Throw (e : exn).
Arguments Ret {A} a.
Arguments Throw {A} e.

Definition M (A : Type) : Type := world -> outcome A * world.

Definition ret {A} (a : A) : M A := fun w => (Ret a, w).

Definition bind {A B} (m : M A) (f : A -> M B) : M B := fun w =>
  match m w with
  | (Ret a, w') => f a w'
  | (Throw e, w') => (Throw e, w')
  end.

Notation "'let*' x ':=' m 'in' k" := (bind m (fun x => k))
  (at level 10, x name, m at level 100, k at level 200).
Notation "m ';;' k" := (bind m (fun _ => k))
  (at level 100, k at level 200, right associativity, only parsing).

Definition throw {A} (e : exn) : M A := fun w => (Throw e, w).

(** [try { m } catch (e) { h e }] *)
Definition try_catch {A} (m : M A) (h : exn -> M A) : M A := fun w =>
  match m w with
  | (Ret a, w') => (Ret a, w')
  | (Throw e, w') => h e w'
  end.

(** One call to the backend. *)
Definition backend {A} (c : call) (serve : gmap jsstring text -> A * gmap jsstring text) : M A :=
  fun w =>
    let w1 := World (localStorage w) (tl (faults w)) (c :: calls w) (tick w) in
    match faults w with
    | Some e :: _ => (Throw e, w1)
    | _ =>
        let '(a, ls) := serve (localStorage w) in
        (Ret a, World ls (faults w1) (calls w1) (tick w1))
    end.

Definition getItem (k : jsstring) : M (option text) :=
  backend (GetItem k) (fun ls => (ls !! k, ls)).

Definition setItem (k : jsstring) (t : text) : M unit :=
  backend (SetItem k t) (fun ls => (tt, <[k := t]> ls)).

Definition removeItem (k : jsstring) : M unit :=
  backend (RemoveItem k) (fun ls => (tt, delete k ls)).

Definition reading {A} (f : nat -> A) : M A := fun w =>
  (Ret (f (tick w)), World (localStorage w) (faults w) (calls w) (S (tick w))).

Definition JSON_parse (t : text) : M value :=
  match t with
  | Json v => ret v
  | NotJson _ => throw SyntaxError
  end.

(** [v.k]: a TypeError on [undefined] and [null]. *)
Definition member (v : value) (k : jsstring) : M value :=
  match v with
  | VUndef | VNull => throw TypeError
  | _ => ret (get_prop v k)
  end.

(** [o.k = v] in strict code, on the documents the program builds: they
    are objects.  (An array that receives a named property has no
    counterpart in [value].) *)
Definition set_member (o : value) (k : jsstring) (v : value) : M value :=
  match o with
  | VObj ps => ret (VObj (set_prop k v ps))
  | _ => throw TypeError
  end.

(** [arr.map(f)] *)
Fixpoint mapM {A B} (f : A -> M B) (l : list A) : M (list B) :=
  match l with
  | [] => ret []
  | x :: r => let* y := f x in let* k := mapM f r in ret (y :: k)
  end.

(** [arr.findIndex(p)], [None] for -1. *)
Fixpoint findIndexM (p : value -> M bool) (l : list value) : M (option nat) :=
  match l with
  | [] => ret None
  | x :: r =>
      let* b := p x in
      if b then ret (Some O)
      else let* i := findIndexM p r in ret (option_map S i)
  end.

(** [arr.filter(p)] *)
Fixpoint filterM (p : value -> M bool) (l : list value) : M (list value) :=
  match l with
  | [] => ret []
  | x :: r =>
      let* b := p x in
      let* k := filterM p r in
      ret (if b then x :: k else k)
  end.

(** [arr.sort(gt)] for a comparator given as "the result is positive":
    the stable sort, by insertion. *)
Fixpoint insertM (gt : value -> value -> M bool) (x : value) (l : list value)
  : M (list value) :=
  match l with
  | [] => ret [x]
  | y :: r =>
      let* b := gt x y in
      if b then let* r' := insertM gt x r in ret (y :: r') else ret (x :: l)
  end.

Fixpoint sortM (gt : value -> value -> M bool) (l : list value) : M (list value) :=
  match l with
  | [] => ret []
  | x :: r => let* r' := sortM gt r in insertM gt x r'
  end.

(** ** TodoStorage *)

Definition number_toString (n : Z) : jsstring :=
  lit (NilZero.string_of_int (Z.to_int n)).

(** [s.substr(start, len)] *)
Definition substr (start len : nat) (s : jsstring) : jsstring :=
  firstn len (skipn start s).

Module TodoStorage.
Section WithEngine.

Variable E : engine.

Definition STORAGE_KEY : jsstring := lit "quickTodoList".
Definition VERSION : jsstring := lit "1.0.0".

(** [new Date().toISOString()] *)
Definition now_iso : M jsstring := reading (Date_toISOString E).

(** ['todo-' + Date.now() + '-' + Math.random().toString(36).substr(2, 9)]
    (storage.js, lines 11-13) *)
Definition generateUUID : M jsstring :=
let* now := reading (Date_now E) in
let* r := reading (Math_random_toString36 E) in
ret (lit "todo-" ++ number_toString now ++ lit "-" ++ substr 2 9 r).

(** storage.js, lines 90-100 *)
Definition getDefaultData : M value :=
let* now := now_iso in
ret (VObj [ (lit "version", VStr VERSION);
            (lit "items", VArr []);
            (lit "lastUpdated", VStr now);
            (lit "settings",
              VObj [ (lit "theme", VStr (lit "auto"));
                     (lit "animations", VBool true) ]) ]).

(** [{ id, text, completed, createdAt }] *)
Definition mkItem (id text completed createdAt : value) : value :=
VObj [ (lit "id", id); (lit "text", text);
       (lit "completed", completed); (lit "createdAt", createdAt) ].

(** storage.js, lines 170-181 *)
Definition validateItem (item : value) : M value :=
if negb (truthy item) || negb (jstype_eqb (typeof item) TObject) then ret VNull
else
  let* id0 := member item (lit "id") in
  let* id := (if truthy id0 then ret id0
              else let* u := generateUUID in ret (VStr u)) in
  let* text0 := member item (lit "text") in
  let text := InputProcessor.sanitizeItem
                (if truthy text0 then text0 else VStr []) in
  let* completed0 := member item (lit "completed") in
  let* createdAt0 := member item (lit "createdAt") in
  let* createdAt := (if truthy createdAt0 then ret createdAt0
                     else let* t := now_iso in ret (VStr t)) in
  ret (mkItem id (VStr text) (VBool (truthy completed0)) createdAt).

(** [{ ...getDefaultData(), ...doc, items: doc.items.map(validateItem).filter(Boolean) }],
  the expression shared by [load] and [importData]; [l] is [doc.items]. *)
Definition merge_validated (doc : value) (l : list value) : M value :=
let* d := getDefaultData in
let* vs := mapM validateItem l in
ret (VObj (set_prop (lit "items") (VArr (List.filter truthy vs))
             (spread (spread [] d) doc))).

(** storage.js, lines 106-132.  [if (!data)]: no entry, or the empty
    string. *)
Definition load : M value :=
try_catch
  (let* data := getItem STORAGE_KEY in
   match data with
   | None | Some (NotJson []) => getDefaultData
   | Some t =>
       let* parsed := JSON_parse t in
       if negb (truthy parsed) then getDefaultData
       else
         let* items := member parsed (lit "items") in
         match items with
         | VArr l => merge_validated parsed l
         | _ => getDefaultData
         end
   end)
  (fun _ => getDefaultData).

(** The comparator of the quota recovery,
  [(a, b) => new Date(b.createdAt) - new Date(a.createdAt)],
  as "the result is positive" (NaN is not). *)
Definition newer_first (a b : value) : M bool :=
let* cb := member b (lit "createdAt") in
let* ca := member a (lit "createdAt") in
ret (match Date_value E cb, Date_value E ca with
     | Some tb, Some ta => (0 <? tb - ta)%Z
     | _, _ => false
     end).

(** storage.js, lines 344-363 *)
Definition handleStorageQuotaExceeded : M unit :=
try_catch
  (let* data := load in
   let* items := member data (lit "items") in
   let* n := member items (lit "length") in
   match n with
   | VNum len =>
       if (100 <? len)%Z then
         let* sorted := (match items with
                         | VArr l => sortM newer_first l
                         | _ => throw TypeError
                         end) in
         let recentItems := VArr (firstn 50 sorted) in
         let* data' := set_member data (lit "items") recentItems in
         setItem STORAGE_KEY (JSON_stringify data')
       else ret tt
   | _ => ret tt
   end)
  (fun _ => ret tt).

(** storage.js, lines 139-163 *)
Definition save (data : value) : M bool :=
try_catch
  (if negb (truthy data) then ret false
   else
     let* items := member data (lit "items") in
     match items with
     | VArr _ =>
         let* now := now_iso in
         let dataToSave :=
           VObj (set_prop (lit "version") (VStr VERSION)
                   (set_prop (lit "lastUpdated") (VStr now)
                      (spread [] data))) in
         setItem STORAGE_KEY (JSON_stringify dataToSave);;
         ret true
     | _ => ret false
     end)
  (fun error =>
     (if jsstring_eqb (exn_name error) (lit "QuotaExceededError")
      then handleStorageQuotaExceeded else ret tt);;
     ret false).

(** [data.items.push(x)] *)
Definition push_item (data x : value) : M value :=
let* items := member data (lit "items") in
match items with
| VArr l => set_member data (lit "items") (VArr (l ++ [x]))
| _ => throw TypeError
end.

(** The object literal [newItem] of [addItem] and [addItems]. *)
Definition newItem_of (sanitized : jsstring) : M value :=
let* id := generateUUID in
let* now := now_iso in
ret (mkItem (VStr id) (VStr sanitized) (VBool false) (VStr now)).

(** storage.js, lines 188-209 *)
Definition addItem (text : value) : M value :=
let sanitized := InputProcessor.sanitizeItem text in
if negb (truthy (VStr sanitized)) then ret VNull
else
  let* data := load in
  let* newItem := newItem_of sanitized in
  let* data' := push_item data newItem in
  let* ok := save data' in
  if ok then ret newItem else ret VNull.

(** The body of [for (const text of textArray)]. *)
Fixpoint addItems_loop (texts : list value) (data : value) (newItems : list value)
: M (value * list value) :=
match texts with
| [] => ret (data, newItems)
| text :: rest =>
    let sanitized := InputProcessor.sanitizeItem text in
    if truthy (VStr sanitized) then
      let* newItem := newItem_of sanitized in
      let* data' := push_item data newItem in
      addItems_loop rest data' (newItems ++ [newItem])
    else addItems_loop rest data newItems
end.

(** storage.js, lines 216-244 *)
Definition addItems (textArray : value) : M (list value) :=
match textArray with
| VArr texts =>
    let* data := load in
    let* r := addItems_loop texts data [] in
    let '(data', newItems) := r in
    if (0 <? length newItems)%nat
    then save data';; ret newItems
    else ret newItems
| _ => ret []
end.

(** storage.js, lines 252-276 *)
Definition updateItem (id updates : value) : M value :=
let* data := load in
let* items := member data (lit "items") in
match items with
| VArr l =>
    let* itemIndex :=
      findIndexM (fun item => let* i := member item (lit "id") in
                              ret (strict_eq i id)) l in
    match itemIndex with
    | None => ret VNull
    | Some idx =>
        let cur := nth idx l VUndef in
        let merged := set_prop (lit "id") id (spread (spread [] cur) updates) in
        let* utext := member updates (lit "text") in
        let* text := (if truthy utext
                      then ret (VStr (InputProcessor.sanitizeItem utext))
                      else member cur (lit "text")) in
        let updatedItem := VObj (set_prop (lit "text") text merged) in
        let* v := validateItem updatedItem in
        let* data' := set_member data (lit "items") (VArr (<[idx := v]> l)) in
        let* ok := save data' in
        if ok then ret v else ret VNull
    end
| _ => throw TypeError
end.

(** storage.js, lines 283-294 *)
Definition deleteItem (id : value) : M bool :=
let* data := load in
let* items := member data (lit "items") in
match items with
| VArr l =>
    let initialLength := length l in
    let* kept := filterM (fun item => let* i := member item (lit "id") in
                                      ret (negb (strict_eq i id))) l in
    let* data' := set_member data (lit "items") (VArr kept) in
    if (length kept <? initialLength)%nat then save data' else ret false
| _ => throw TypeError
end.

(** storage.js, lines 300-303 *)
Definition clearAll : M bool :=
let* data := getDefaultData in
save data.

(** storage.js, lines 309-312 *)
Definition exportData : M text :=
let* data := load in
ret (JSON_stringify data).

(** storage.js, lines 319-338.  Whatever the caller passes is seen
    through what [JSON.parse] makes of it. *)
Definition importData (jsonString : text) : M bool :=
try_catch
  (let* data := JSON_parse jsonString in
   let* items := (if negb (truthy data) then ret VUndef
                  else member data (lit "items")) in
   match items with
   | VArr l =>
       let* validatedData := merge_validated data l in
       save validatedData
   | _ => throw (Error (lit "Invalid data format"))
   end)
  (fun _ => ret false).

(** storage.js, lines 391-400 *)
Definition isStorageAvailable : M bool :=
try_catch
  (let testKey := lit "__storage_test__" in
   setItem testKey (NotJson (lit "test"));;
   removeItem testKey;;
   ret true)
  (fun _ => ret false).

End WithEngine.
End TodoStorage.

(** ** TodoApp (main.js) *)

(** [arr.find(p)], [undefined] when no element passes. *)
Fixpoint findM (p : value -> M bool) (l : list value) : M value :=
  match l with
  | [] => ret VUndef
  | x :: r => let* b := p x in if b then ret x else findM p r
  end.

Module TodoApp.

(** [this.data] and [this.elements.todoInput.value]. *)
Record app := App {
  data : value;
  todoInput : jsstring
}.

Section WithEngine.

Variable E : engine.

(** main.js, lines 67-69 *)
Definition loadData (a : app) : M app :=
let* d := TodoStorage.load E in
ret (App d (todoInput a)).

(** main.js, lines 231-270.  Nothing is assigned to the state before
    the last call that can throw has returned, so the handler of the
    [try] finds the state as it was. *)
Definition addTodos (a : app) : M app :=
let inputText := trim (todoInput a) in
if negb (truthy (VStr inputText)) then ret a
else
  try_catch
    (let items := InputProcessor.parseInput (VStr inputText) in
     if (length items =? 0)%nat then ret a
     else
       let* addedItems := TodoStorage.addItems E (VArr (List.map VStr items)) in
       if (0 <? length addedItems)%nat then
         let* a' := loadData a in
         ret (App (data a') [])
       else ret a)
    (fun _ => ret a).

(** [this.data.items.find(item => item.id === id)] *)
Definition find_by_id (id : value) (a : app) : M value :=
let* items := member (data a) (lit "items") in
match items with
| VArr l => findM (fun item => let* i := member item (lit "id") in
                               ret (strict_eq i id)) l
| _ => throw TypeError
end.


(** main.js, lines 304-319; [confirmed] is the answer to [confirm]. *)
Definition handleClearAll (confirmed : bool) (a : app) : M app :=
let* items := member (data a) (lit "items") in
let* n := member items (lit "length") in
if strict_eq n (VNum 0) then ret a
else if confirmed then TodoStorage.clearAll E;; loadData a
else ret a.

(** main.js, lines 338-348 *)
Definition deleteTodo (id : value) (a : app) : M app :=
let* item := find_by_id id a in
if negb (truthy item) then ret a
else
  let* ok := TodoStorage.deleteItem E id in
  if ok then loadData a else ret a.

End WithEngine.
End TodoApp.

(** ** Vocabulary of the design document *)

Definition whitespace (c : N) : Prop := is_ws c = true.

Definition delimiter (c : N) : Prop := In c separators.

(** [Segments s segs]: [segs] are the stretches of [s] between its
    delimiters, in order. *)
Inductive Segments : jsstring -> list jsstring -> Prop :=
| Segments_last (s : jsstring) :
    Forall (fun c => ~ delimiter c) s -> Segments s [s]
| Segments_cut (s : jsstring) (d : N) (rest : jsstring) (segs : list jsstring) :
    Forall (fun c => ~ delimiter c) s -> delimiter d -> Segments rest segs ->
    Segments (s ++ d :: rest) (s :: segs).

(** [Trimmed s t]: [t] is [s] without its leading and trailing whitespace. *)
Definition Trimmed (s t : jsstring) : Prop :=
  exists pre post,
    s = pre ++ t ++ post /\ Forall whitespace pre /\ Forall whitespace post
    /\ (forall c r, t = c :: r -> ~ whitespace c)
    /\ (forall c r, t = r ++ [c] -> ~ whitespace c).

(** [Collapsed s t]: [t] is [s] with every maximal run of whitespace
    replaced by one ASCII space. *)
Inductive Collapsed : jsstring -> jsstring -> Prop :=
| Collapsed_nil : Collapsed [] []
| Collapsed_char (c : N) (s t : jsstring) :
    ~ whitespace c -> Collapsed s t -> Collapsed (c :: s) (c :: t)
| Collapsed_run (run s t : jsstring) :
    run <> [] -> Forall whitespace run ->
    (forall c r, s = c :: r -> ~ whitespace c) ->
    Collapsed s t -> Collapsed (run ++ s) (32 :: t).

(** [Sanitized s t]: trimmed, then collapsed, then cut to 200 code units. *)
Definition Sanitized (s t : jsstring) : Prop :=
  exists core flat, Trimmed s core /\ Collapsed core flat /\ t = firstn 200 flat.

(** ** Vocabulary for worlds and documents *)

Definition set_tick (t : nat) (w : world) : world :=
  World (localStorage w) (faults w) (calls w) t.

(** The world once the backend has been called (served or not, the store
    left as it was). *)
Definition after_call (c : call) (w : world) : world :=
  World (localStorage w) (tl (faults w)) (c :: calls w) (tick w).

Definition with_store (ls : gmap jsstring text) (w : world) : world :=
  World ls (faults w) (calls w) (tick w).

(** What the backend does to its next call. *)
Definition next_fault (w : world) : option exn :=
  match faults w with
  | Some e :: _ => Some e
  | _ => None
  end.

(** An operation returns (does not throw) in every world. *)
Definition total {A} (m : M A) : Prop :=
  forall w, exists a w', m w = (Ret a, w').

Definition nullish (v : value) : bool :=
  match v with
  | VUndef | VNull => true
  | _ => false
  end.

(** What [validateItem] lets through: a truthy value of type object. *)
Definition object_like (v : value) : bool :=
  truthy v && jstype_eqb (typeof v) TObject.

(** [doc.items] when it is an array. *)
Definition items_of (doc : value) : list value :=
  match get_prop doc (lit "items") with
  | VArr l => l
  | _ => []
  end.

Definition id_of (item : value) : value := get_prop item (lit "id").
Definition text_of (item : value) : value := get_prop item (lit "text").
Definition completed_of (item : value) : value := get_prop item (lit "completed").
Definition createdAt_of (item : value) : value := get_prop item (lit "createdAt").

(** [Validated raw v]: [v] is what validation makes of the record [raw]. *)
Inductive Validated (raw : value) : value -> Prop :=
| Validated_null :
    object_like raw = false -> Validated raw VNull
| Validated_item (id createdAt : value) :
    object_like raw = true ->
    truthy id = true ->
    (truthy (id_of raw) = true -> id = id_of raw) ->
    (truthy (createdAt_of raw) = true -> createdAt = createdAt_of raw) ->
    nullish createdAt = false ->
    Validated raw
      (TodoStorage.mkItem id (VStr (InputProcessor.sanitizeItem (text_of raw)))
         (VBool (truthy (completed_of raw))) createdAt).

(** A record as validation builds it: the four fields, a truthy id, a
    text that went through [sanitizeItem], a boolean flag, a creation
    time that is neither undefined nor null. *)
Definition Item (v : value) : Prop :=
  exists id raw_text completed createdAt,
    v = TodoStorage.mkItem id (VStr (InputProcessor.sanitizeItem raw_text))
          (VBool completed) createdAt
    /\ truthy id = true /\ nullish createdAt = false.

(** The default document, stamped [now]. *)
Definition default_doc (now : jsstring) : value :=
  VObj [ (lit "version", VStr TodoStorage.VERSION);
         (lit "items", VArr []);
         (lit "lastUpdated", VStr now);
         (lit "settings",
           VObj [ (lit "theme", VStr (lit "auto"));
                  (lit "animations", VBool true) ]) ].

(** [{ ...default_doc now, ...doc, items: l }] *)
Definition merged_doc (now : jsstring) (doc : value) (l : list value) : value :=
  VObj (set_prop (lit "items") (VArr l) (spread (spread [] (default_doc now)) doc)).

(** The stored collection as [load] can read it in [w]: the document and
    its raw [items], when the backend serves the read and the entry is
    JSON text for a truthy value whose [items] is an array. *)
Definition readable (w : world) : option (value * list value) :=
  match next_fault w with
  | Some _ => None
  | None =>
      match localStorage w !! TodoStorage.STORAGE_KEY with
      | Some (Json doc) =>
          if truthy doc
          then match get_prop doc (lit "items") with
               | VArr raw => Some (doc, raw)
               | _ => None
               end
          else None
      | _ => None
      end
  end.

(** [Loaded w d]: [d] is a document [load] may return in [w]. *)
Definition Loaded (w : world) (d : value) : Prop :=
  match readable w with
  | Some (doc, raw) =>
      exists now vs, Forall2 Validated raw vs
                     /\ d = merged_doc now doc (List.filter truthy vs)
  | None => exists now, d = default_doc now
  end.

(** [save] goes as far as the write for these arguments only. *)
Definition saveable (data : value) : bool :=
  truthy data
  && match get_prop data (lit "items") with
     | VArr _ => true
     | _ => false
     end.

(** [{ ...data, lastUpdated: now, version: VERSION }] *)
Definition stamped (now : jsstring) (data : value) : value :=
  VObj (set_prop (lit "version") (VStr TodoStorage.VERSION)
          (set_prop (lit "lastUpdated") (VStr now) (spread [] data))).

(** The text [save] hands to the backend for [data] in world [w]. *)
Definition saved_text (E : engine) (data : value) (w : world) : text :=
  Json (json_clean (stamped (Date_toISOString E (tick w)) data)).






(** [item.id === id] *)
Definition has_id (id item : value) : bool := strict_eq (id_of item) id.

Fixpoint find_index (p : value -> bool) (l : list value) : option nat :=
  match l with
  | [] => None
  | x :: r => if p x then Some O else option_map S (find_index p r)
  end.

(** [d] with [d.items] replaced. *)
Definition with_items (d : value) (l : list value) : value :=
  match d with
  | VObj ps => VObj (set_prop (lit "items") (VArr l) ps)
  | _ => d
  end.

Definition without_id (id : value) (l : list value) : list value :=
  List.filter (fun item => negb (has_id id item)) l.

(** The records of the stored collection: the entries of the stored
    [items] that validation keeps; none when no collection is readable. *)
Definition stored_items (w : world) : list value :=
  match readable w with
  | Some (_, raw) => List.filter object_like raw
  | None => []
  end.

(** [Created s item]: [item] is a record as [addItem] and [addItems] build
    it for the sanitized text [s]. *)
Definition Created (s : jsstring) (item : value) : Prop :=
  exists id createdAt,
    item = TodoStorage.mkItem (VStr id) (VStr s) (VBool false) (VStr createdAt)
    /\ truthy (VStr id) = true.

(** The sanitized texts of a batch, empties skipped. *)
Definition valid_texts (texts : list value) : list jsstring :=
  List.filter (fun s => negb (jsstring_eqb s []))
    (List.map InputProcessor.sanitizeItem texts).

Definition keys (ps : props) : list jsstring := List.map fst ps.

(** What serialisation does to an array element and to the properties of
    an object (the two inner steps of [json_clean]). *)
Definition clean_elem (x : value) : value :=
  match x with
  | VUndef => VNull
  | _ => json_clean x
  end.

Definition clean_props : props -> props :=
  fix go (ps : props) : props :=
    match ps with
    | [] => []
    | (k, x) :: r =>
        match x with
        | VUndef => go r
        | _ => (k, json_clean x) :: go r
        end
    end.

(** The record [updateItem] hands to validation:
    [{ ...cur, ...updates, id, text }]. *)
Definition updated_record (id updates cur : value) : value :=
  let text := if truthy (get_prop updates (lit "text"))
              then VStr (InputProcessor.sanitizeItem (get_prop updates (lit "text")))
              else text_of cur in
  VObj (set_prop (lit "text") text
          (set_prop (lit "id") id (spread (spread [] cur) updates))).

(** [flat s]: the whitespace of [s] is single ASCII spaces. *)
Fixpoint flat (s : jsstring) : bool :=
  match s with
  | [] => true
  | c :: r =>
      (if is_ws c
       then (c =? 32) && match r with
                         | c' :: _ => negb (is_ws c')
                         | [] => true
                         end
       else true)
      && flat r
  end.

(** [{ ...cur, ...updates }], the merge [updateItem] starts from. *)
Definition merged_record (updates cur : value) : value :=
  VObj (spread (spread [] cur) updates).

(** A record of a valid collection document: an object whose [id] is a
    non-empty string, whose [text] is a non-empty string in sanitized
    form, whose [completed] is a boolean and whose [createdAt] is a
    non-empty string. *)
Definition valid_item (v : value) : Prop :=
  object_like v = true
  /\ (exists id, id_of v = VStr id /\ id <> [])
  /\ (exists text, text_of v = VStr text /\ text <> [] /\ Sanitized text text)
  /\ (exists completed, completed_of v = VBool completed)
  /\ (exists createdAt, createdAt_of v = VStr createdAt /\ createdAt <> []).

(** The four fields of a record, in the order validation writes them. *)
Definition canon (v : value) : value :=
  TodoStorage.mkItem (id_of v) (text_of v) (completed_of v) (createdAt_of v).

Definition same_fields (v v' : value) : Prop :=
  id_of v' = id_of v /\ text_of v' = text_of v
  /\ completed_of v' = completed_of v /\ createdAt_of v' = createdAt_of v.




(** ** A concrete engine and concrete worlds, for the examples *)

Definition E0 : engine :=
  Engine (fun n => 1700000000000 + Z.of_nat n)%Z
         (fun n => lit "2024-05-01T10:00:00.000Z")
         (fun n => lit "0.4fzyo82mvyr")
         (fun v => match v with VNum n => Some n | _ => None end).

Definition item_ex (id text : string) (createdAt : value) : value :=
  TodoStorage.mkItem (VStr (lit id)) (VStr (lit text)) (VBool false) createdAt.

Definition doc_ex_props (items : list value) : props :=
  [ (lit "version", VStr TodoStorage.VERSION);
    (lit "items", VArr items);
    (lit "lastUpdated", VStr (lit "2024-04-30T09:00:00.000Z"));
    (lit "settings",
      VObj [ (lit "theme", VStr (lit "dark"));
             (lit "animations", VBool false) ]) ].

Definition doc_ex (items : list value) : value := VObj (doc_ex_props items).

(** A world whose store holds [doc] and whose backend follows [fs]. *)
Definition world_ex (doc : value) (fs : list (option exn)) : world :=
  World {[ TodoStorage.STORAGE_KEY := Json doc ]} fs [] 0.

Definition two_items : list value :=
  [ item_ex "a" "milk" (VNum 10); item_ex "b" "bread" (VNum 20) ].

(** A text of 201 characters that sanitizes to 199 letters and a space. *)
Definition long_text : jsstring := repeat 97 199 ++ lit " b".

Definition long_item : value :=
  TodoStorage.mkItem (VStr (lit "x")) (VStr long_text) (VBool false) (VNum 10).

(** [n] records created at the times 1, 2, ..., n. *)
Definition many_items (n : nat) : list value :=
  List.map (fun i => TodoStorage.mkItem (VStr (number_toString (Z.of_nat i)))
                       (VStr (lit "task")) (VBool false) (VNum (Z.of_nat i)))
    (seq 1 n).


(** ** Vocabulary of the further properties *)

(** The names of the character references the serialisation of a text
    node writes. *)
Definition entity_names : list jsstring :=
  [lit "amp"; lit "nbsp"; lit "lt"; lit "gt"].

(** [Reloaded a b]: [b] is the record a later [load] makes of the saved
    record [a]: the same id (as [===] sees it) and the same flag, the
    text sanitized once more, the creation time kept when it is truthy. *)
Definition Reloaded (a b : value) : Prop :=
  (forall x, has_id x b = has_id x a)
  /\ text_of b = VStr (InputProcessor.sanitizeItem (text_of a))
  /\ completed_of b = completed_of a
  /\ (truthy (createdAt_of a) = true -> createdAt_of b = json_clean (createdAt_of a))
  /\ Item b.

(** ** Vocabulary for the application *)

(** [find_first p l]: the first element of [l] that passes, [undefined]
    when none does. *)
Fixpoint find_first (p : value -> bool) (l : list value) : value :=
  match l with
  | [] => VUndef
  | x :: r => if p x then x else find_first p r
  end.

(** The store holds the records [l]: a document whose items are these
    records in serialised form, or, for no record, no entry at all. *)
Definition holds (w : world) (l : list value) : Prop :=
  (l = [] /\ localStorage w !! TodoStorage.STORAGE_KEY = None)
  \/ exists sps,
       localStorage w !! TodoStorage.STORAGE_KEY = Some (Json (VObj sps))
       /\ get_own (lit "items") sps = Some (VArr (List.map clean_elem l)).

(** [in_step a w l]: the backend refuses nothing, the store holds the
    validated records [l], and [this.data] is a document whose items are
    what [load] makes of them. *)
Definition in_step (a : TodoApp.app) (w : world) (l : list value) : Prop :=
  faults w = []
  /\ Forall Item l
  /\ holds w l
  /\ exists ps la,
       TodoApp.data a = VObj ps
       /\ get_own (lit "items") ps = Some (VArr la)
       /\ Forall2 Reloaded l la.

(** [join_with d ts]: the texts [ts] with the delimiter [d] between them. *)
Fixpoint join_with (d : N) (ts : list jsstring) : jsstring :=
  match ts with
  | [] => []
  | [t] => t
  | t :: r => t ++ d :: join_with d r
  end.

(** * Properties *)

(** ** Strings *)

Lemma is_separator_delimiter c : is_separator c = true <-> delimiter c.
Proof.
  unfold is_separator, delimiter. rewrite existsb_exists. split.
  - intros (x & Hx & Heq). apply N.eqb_eq in Heq. now subst.
  - intros H. exists c. split; [assumption | apply N.eqb_refl].
Qed.

Lemma is_separator_false c : is_separator c = false <-> ~ delimiter c.
Proof.
  rewrite <- is_separator_delimiter. destruct (is_separator c); split; intros; easy.
Qed.

Lemma separator_test_true s :
  separator_test s = true <-> exists c, In c s /\ delimiter c.
Proof.
  unfold separator_test. rewrite existsb_exists.
  split; intros (c & Hin & Hc); exists c; split; auto; now apply is_separator_delimiter.
Qed.

Lemma separator_test_false s :
  separator_test s = false <-> Forall (fun c => ~ delimiter c) s.
Proof.
  unfold separator_test. rewrite List.Forall_forall. split.
  - intros H c Hin Hd. assert (existsb is_separator s = true) as Ht.
    { apply existsb_exists. exists c. split; [assumption|]. now apply is_separator_delimiter. }
    congruence.
  - intros H. destruct (existsb is_separator s) eqn:Ex; auto.
    apply existsb_exists in Ex as (c & Hin & Hc).
    apply is_separator_delimiter in Hc. now apply H in Hc.
Qed.

Lemma split_sep_no_delimiter s :
  Forall (fun c => ~ delimiter c) s -> split_sep s = [s].
Proof.
  induction 1 as [|c s Hc _ IH]; simpl; auto.
  apply is_separator_false in Hc. now rewrite Hc, IH.
Qed.

Lemma split_sep_cut s d rest :
  Forall (fun c => ~ delimiter c) s -> delimiter d ->
  split_sep (s ++ d :: rest) = s :: split_sep rest.
Proof.
  intros Hs Hd. induction Hs as [|c s Hc _ IH]; simpl.
  - apply is_separator_delimiter in Hd. now rewrite Hd.
  - apply is_separator_false in Hc. now rewrite Hc, IH.
Qed.

Lemma Segments_split_sep s : Segments s (split_sep s).
Proof.
  induction s as [|c s IH]; simpl.
  - constructor. constructor.
  - destruct (is_separator c) eqn:Hc.
    + apply is_separator_delimiter in Hc.
      apply (Segments_cut [] c s); auto.
    + apply is_separator_false in Hc.
      inversion IH as [s0 Hall Hs0 Heq | s0 d rest segs Hall Hd Hrest Hs0 Heq]; subst.
      * constructor. now constructor.
      * apply (Segments_cut (c :: s0) d rest); auto.
Qed.

Lemma Segments_unique s segs : Segments s segs -> segs = split_sep s.
Proof.
  induction 1 as [s Hs | s d rest segs Hs Hd _ IH].
  - now rewrite split_sep_no_delimiter.
  - rewrite split_sep_cut by assumption. now subst.
Qed.

Lemma trimStart_app_ws pre s :
  Forall whitespace pre -> trimStart (pre ++ s) = trimStart s.
Proof.
  induction 1 as [|c pre Hc _ IH]; simpl; auto.
  unfold whitespace in Hc. now rewrite Hc.
Qed.

Lemma trimStart_all_ws s : Forall whitespace s -> trimStart s = [].
Proof.
  intros H. rewrite <- (app_nil_r s). now rewrite trimStart_app_ws.
Qed.

Lemma trimStart_head s c r : s = c :: r -> ~ whitespace c -> trimStart s = s.
Proof.
  intros -> Hc. simpl. unfold whitespace in Hc. now destruct (is_ws c).
Qed.

Lemma trimStart_split s :
  exists pre, s = pre ++ trimStart s /\ Forall whitespace pre
              /\ (forall c r, trimStart s = c :: r -> ~ whitespace c).
Proof.
  induction s as [|c s (pre & Heq & Hpre & Hhd)]; simpl.
  - exists []. split; [reflexivity|]. split; [constructor|]. discriminate.
  - destruct (is_ws c) eqn:Hc.
    + exists (c :: pre). split; [simpl; now f_equal|]. split; [now constructor|]. assumption.
    + exists []. split; [reflexivity|]. split; [constructor|].
      intros c' r [= <- <-]. unfold whitespace. congruence.
Qed.

Lemma trimEnd_split s :
  exists post, s = trimEnd s ++ post /\ Forall whitespace post
               /\ (forall c r, trimEnd s = r ++ [c] -> ~ whitespace c).
Proof.
  unfold trimEnd.
  destruct (trimStart_split (rev s)) as (pre & Heq & Hpre & Hhd).
  exists (rev pre). split; [|split].
  - rewrite <- (rev_involutive s) at 1. rewrite Heq at 1. now rewrite rev_app_distr.
  - now apply Forall_rev.
  - intros c r Ht. apply (Hhd c (rev r)).
    apply (f_equal (@rev N)) in Ht. now rewrite rev_involutive, rev_app_distr in Ht.
Qed.

Lemma Trimmed_trim s : Trimmed s (trim s).
Proof.
  unfold trim.
  destruct (trimStart_split s) as (pre & Heq & Hpre & Hhd).
  destruct (trimEnd_split (trimStart s)) as (post & Heq' & Hpost & Hlast).
  exists pre, post. split; [|split; [|split; [|split]]]; auto.
  - rewrite Heq at 1. now rewrite <- Heq'.
  - intros c r Ht. apply (Hhd c (r ++ post)). rewrite Heq' at 1. now rewrite Ht.
Qed.

Lemma trimEnd_app_ws s post : Forall whitespace post -> trimEnd (s ++ post) = trimEnd s.
Proof.
  intros H. unfold trimEnd. rewrite rev_app_distr.
  rewrite trimStart_app_ws; [reflexivity | now apply Forall_rev].
Qed.

Lemma trimEnd_last s c r : s = r ++ [c] -> ~ whitespace c -> trimEnd s = s.
Proof.
  intros -> Hc. unfold trimEnd. rewrite rev_app_distr. simpl.
  unfold whitespace in Hc. destruct (is_ws c); [congruence|].
  simpl. now rewrite rev_involutive.
Qed.

Lemma Trimmed_unique s t : Trimmed s t -> t = trim s.
Proof.
  intros (pre & post & -> & Hpre & Hpost & Hhd & Hlast).
  unfold trim. rewrite trimStart_app_ws by assumption.
  destruct t as [|c r].
  - simpl. rewrite trimStart_all_ws by assumption. reflexivity.
  - rewrite (trimStart_head ((c :: r) ++ post) c (r ++ post)); [|reflexivity|now apply (Hhd c r)].
    rewrite trimEnd_app_ws by assumption.
    destruct (exists_last (l := c :: r)) as (r' & c' & Hr); [discriminate|].
    symmetry. apply (trimEnd_last _ c' r'); [assumption | now apply (Hlast c' r')].
Qed.

Lemma replace_ws_runs_true s :
  replace_ws_runs true s = replace_ws_runs false (trimStart s).
Proof.
  induction s as [|c s IH]; simpl; auto.
  destruct (is_ws c) eqn:Hc; auto. simpl. now rewrite Hc.
Qed.

Lemma Collapsed_replace_ws_runs s : Collapsed s (replace_ws_runs false s).
Proof.
  remember (length s) as n eqn:Hn.
  revert s Hn. induction n as [n IH] using lt_wf_ind. intros s ->.
  destruct s as [|c s]; simpl; [constructor|].
  destruct (is_ws c) eqn:Hc.
  - rewrite replace_ws_runs_true.
    destruct (trimStart_split s) as (pre & Heq & Hpre & Hhd).
    rewrite Heq at 1.
    apply (Collapsed_run (c :: pre)); [discriminate | now constructor | assumption |].
    apply (IH (length (trimStart s))); [|reflexivity].
    assert (length s = (length pre + length (trimStart s))%nat) as Hlen
      by (rewrite Heq at 1; apply List.length_app).
    simpl. lia.
  - constructor.
    + unfold whitespace. congruence.
    + apply (IH (length s)); simpl; auto.
Qed.

Lemma Collapsed_unique s t : Collapsed s t -> t = replace_ws_runs false s.
Proof.
  induction 1 as [|c s t Hc _ IH | run s t Hne Hrun Hhd _ IH].
  - reflexivity.
  - simpl. unfold whitespace in Hc. destruct (is_ws c); [congruence|]. now f_equal.
  - destruct run as [|c run]; [congruence|].
    inversion Hrun as [|? ? Hc Hrun']; subst.
    simpl. unfold whitespace in Hc. rewrite Hc.
    rewrite replace_ws_runs_true, trimStart_app_ws by assumption.
    destruct s as [|c' r'].
    + reflexivity.
    + now rewrite (trimStart_head (c' :: r') c' r'); [|reflexivity|apply (Hhd c' r')].
Qed.

Lemma filter_nonempty (l : list jsstring) :
  List.filter (fun item => (0 <? length item)%nat) l
  = List.filter (fun t => negb (jsstring_eqb t [])) l.
Proof.
  apply filter_ext. intros [|c r]; reflexivity.
Qed.

Lemma sanitizeItem_string s :
  InputProcessor.sanitizeItem (VStr s) = slice0 200 (replace_ws_runs false (trim s)).
Proof.
  destruct s as [|c r]; reflexivity.
Qed.

Lemma sanitizeItem_length v : (length (InputProcessor.sanitizeItem v) <= 200)%nat.
Proof.
  destruct v as [| |b|n|s|l|ps];
    try (unfold InputProcessor.sanitizeItem; cbn [typeof jstype_eqb negb];
         rewrite ?orb_true_r; simpl; lia).
  rewrite sanitizeItem_string. unfold slice0. apply firstn_le_length.
Qed.

Lemma Sanitized_sanitizeItem s t :
  InputProcessor.sanitizeItem (VStr s) = t <-> Sanitized s t.
Proof.
  rewrite sanitizeItem_string. unfold slice0. split.
  - intros <-. exists (trim s), (replace_ws_runs false (trim s)).
    split; [apply Trimmed_trim|]. split; [apply Collapsed_replace_ws_runs | reflexivity].
  - intros (core & flat & Ht & Hc & ->).
    apply Trimmed_unique in Ht as ->. apply Collapsed_unique in Hc as ->. reflexivity.
Qed.

Lemma not_string_or_empty v :
  (forall s, v = VStr s -> s = []) ->
  negb (truthy v) || negb (jstype_eqb (typeof v) TString) = true.
Proof.
  intros H. destruct v as [| |b|n|s|l|ps];
    try reflexivity; try (simpl; now rewrite orb_true_r).
  now rewrite (H s eq_refl).
Qed.

(** C1.  parseInput: nothing for a non-string or empty input; with a
    delimiter present, exactly the non-empty sanitized segments between
    the delimiters, in order (whatever way the segments are cut, there is
    one); without delimiter, the sanitized input alone, dropped when
    empty. *)
Theorem parseInput_segments :
  (forall v, (forall s, v = VStr s -> s = []) -> InputProcessor.parseInput v = [])
  /\ (forall s segs,
        s <> [] -> (exists c, In c s /\ delimiter c) -> Segments s segs ->
        InputProcessor.parseInput (VStr s)
        = List.filter (fun t => negb (jsstring_eqb t []))
            (List.map (fun seg => InputProcessor.sanitizeItem (VStr seg)) segs))
  /\ (forall s, exists segs, Segments s segs)
  /\ (forall s,
        s <> [] -> (forall c, In c s -> ~ delimiter c) ->
        InputProcessor.parseInput (VStr s)
        = match InputProcessor.sanitizeItem (VStr s) with
          | [] => []
          | t => [t]
          end)
  /\ InputProcessor.parseInput
       (VStr (lit "milk,bread" ++ [12289] ++ lit "egg" ++ [65292] ++ lit "rice"))
     = [lit "milk"; lit "bread"; lit "egg"; lit "rice"].
Proof.
  split; [|split; [|split; [|split]]].
  - intros v Hv. unfold InputProcessor.parseInput.
    now rewrite not_string_or_empty.
  - intros s segs Hne Hd Hseg.
    apply Segments_unique in Hseg as ->.
    apply separator_test_true in Hd.
    destruct s as [|c r]; [congruence|].
    unfold InputProcessor.parseInput.
    cbn [truthy typeof jstype_eqb negb orb]. rewrite Hd.
    apply filter_nonempty.
  - intros s. exists (split_sep s). apply Segments_split_sep.
  - intros s Hne Hnd.
    assert (separator_test s = false) as Ht
      by (apply separator_test_false, List.Forall_forall; exact Hnd).
    destruct s as [|c r]; [congruence|].
    unfold InputProcessor.parseInput.
    cbn [truthy typeof jstype_eqb negb orb]. rewrite Ht.
    cbn [List.map List.filter].
    now destruct (InputProcessor.sanitizeItem (VStr (c :: r))).
  - reflexivity.
Qed.

Lemma parseInput_segments_witness :
  InputProcessor.parseInput (VStr (lit "a, b" ++ [12289] ++ lit " "))
  = [lit "a"; lit "b"]
  /\ InputProcessor.parseInput (VStr (lit " x  y ")) = [lit "x y"].
Proof.
  destruct parseInput_segments as (_ & Hcut & _ & Hone & _).
  split.
  - rewrite (Hcut _ [lit "a"; lit " b"; lit " "]).
    + reflexivity.
    + discriminate.
    + exists 44. split; [simpl; tauto | unfold delimiter; simpl; tauto].
    + apply (Segments_cut (lit "a") 44 _ [lit " b"; lit " "]).
      * repeat constructor; unfold delimiter; simpl; lia.
      * unfold delimiter; simpl; tauto.
      * apply (Segments_cut (lit " b") 12289 (lit " ") [lit " "]).
        -- repeat constructor; unfold delimiter; simpl; lia.
        -- unfold delimiter; simpl; tauto.
        -- constructor. repeat constructor; unfold delimiter; simpl; lia.
  - rewrite Hone.
    + reflexivity.
    + discriminate.
    + intros c Hin. unfold delimiter. simpl in Hin |- *. lia.
Defined.

Lemma no_ws_Trimmed s : Forall (fun c => ~ whitespace c) s -> Trimmed s s.
Proof.
  intros H. exists [], []. rewrite app_nil_r.
  split; [reflexivity|]. split; [constructor|]. split; [constructor|]. split.
  - intros c r ->. now inversion H.
  - intros c r ->. apply List.Forall_forall with (x := c) in H; [assumption|].
    apply in_or_app. right. now left.
Qed.

Lemma no_ws_Collapsed s : Forall (fun c => ~ whitespace c) s -> Collapsed s s.
Proof.
  induction 1; constructor; assumption.
Qed.

(** C2 (amended).  sanitizeItem: the empty string for a non-string or
    empty input; otherwise the input trimmed, its whitespace runs
    collapsed to one space each, then cut to 200 code units (so never
    longer than 200); the example of the design document; and a
    300-character input that is already trimmed and collapsed yields
    exactly its first 200 characters. *)
Theorem sanitizeItem_spec :
  (forall v, (forall s, v = VStr s -> s = []) -> InputProcessor.sanitizeItem v = [])
  /\ (forall s t, s <> [] -> InputProcessor.sanitizeItem (VStr s) = t <-> Sanitized s t)
  /\ (forall v, (length (InputProcessor.sanitizeItem v) <= 200)%nat)
  /\ InputProcessor.sanitizeItem (VStr (lit "  a   b" ++ [10; 9] ++ lit "c  ")) = lit "a b c"
  /\ (forall s,
        length s = 300%nat -> Trimmed s s -> Collapsed s s ->
        InputProcessor.sanitizeItem (VStr s) = firstn 200 s
        /\ length (InputProcessor.sanitizeItem (VStr s)) = 200%nat).
Proof.
  split; [|split; [|split; [|split]]].
  - intros v Hv. unfold InputProcessor.sanitizeItem. now rewrite not_string_or_empty.
  - intros s t _. apply Sanitized_sanitizeItem.
  - apply sanitizeItem_length.
  - reflexivity.
  - intros s Hlen Ht Hc.
    assert (InputProcessor.sanitizeItem (VStr s) = firstn 200 s) as Heq.
    { apply Sanitized_sanitizeItem. now exists s, s. }
    split; [assumption|]. rewrite Heq, length_firstn. lia.
Qed.

Lemma sanitizeItem_spec_witness :
  InputProcessor.sanitizeItem (VStr (repeat 97 300)) = repeat 97 200
  /\ Sanitized (lit " a  b ") (lit "a b").
Proof.
  destruct sanitizeItem_spec as (_ & Hs & _ & _ & H300).
  split.
  - destruct (H300 (repeat 97 300)) as [-> _].
    + reflexivity.
    + apply no_ws_Trimmed, List.Forall_forall. intros c Hc.
      apply repeat_spec in Hc as ->. discriminate.
    + apply no_ws_Collapsed, List.Forall_forall. intros c Hc.
      apply repeat_spec in Hc as ->. discriminate.
    + reflexivity.
  - apply Hs; [discriminate | reflexivity].
Defined.

(** Counterexample to C2 as stated: 300 spaces are a 300-character input
    and sanitize to the empty string, not to their first 200 characters. *)
Lemma sanitizeItem_300_spaces :
  length (repeat 32 300) = 300%nat
  /\ InputProcessor.sanitizeItem (VStr (repeat 32 300)) = []
  /\ InputProcessor.sanitizeItem (VStr (repeat 32 300)) <> firstn 200 (repeat 32 300).
Proof.
  split; [reflexivity|]. split; [reflexivity|]. discriminate.
Qed.

(** ** The monad *)

Lemma bind_ret_l {A B} (a : A) (f : A -> M B) w : bind (ret a) f w = f a w.
Proof. reflexivity. Qed.

Lemma bind_Ret {A B} (m : M A) (f : A -> M B) w a w' :
  m w = (Ret a, w') -> bind m f w = f a w'.
Proof. unfold bind. now intros ->. Qed.

Lemma bind_assoc {A B C} (m : M A) (f : A -> M B) (g : B -> M C) w :
  bind (bind m f) g w = bind m (fun x => bind (f x) g) w.
Proof. unfold bind. now destruct (m w) as [[a|e] w']. Qed.

Lemma bind_ext {A B} (m : M A) (f g : A -> M B) w :
  (forall a w', f a w' = g a w') -> bind m f w = bind m g w.
Proof. intros H. unfold bind. destruct (m w) as [[a|e] w']; [apply H | reflexivity]. Qed.

Lemma try_catch_total {A} (m : M A) (h : exn -> M A) :
  (forall e, total (h e)) -> total (try_catch m h).
Proof.
  intros Hh w. unfold try_catch. destruct (m w) as [[a|e] w'].
  - now exists a, w'.
  - apply Hh.
Qed.

Lemma total_ret {A} (a : A) : total (ret a).
Proof. intros w. now exists a, w. Qed.

Lemma total_bind {A B} (m : M A) (f : A -> M B) :
  total m -> (forall a, total (f a)) -> total (bind m f).
Proof.
  intros Hm Hf w. destruct (Hm w) as (a & w' & Hw).
  rewrite (bind_Ret _ _ _ _ _ Hw). apply Hf.
Qed.

Lemma member_object_like v k w :
  nullish v = false -> member v k w = (Ret (get_prop v k), w).
Proof. destruct v; simpl; intros; try discriminate; reflexivity. Qed.

Lemma object_like_not_nullish v : object_like v = true -> nullish v = false.
Proof. now destruct v. Qed.

Lemma truthy_not_nullish v : truthy v = true -> nullish v = false.
Proof. now destruct v. Qed.

(** ** Objects *)

Lemma jsstring_eqb_refl k : jsstring_eqb k k = true.
Proof. unfold jsstring_eqb. now apply bool_decide_eq_true. Qed.

Lemma jsstring_eqb_eq a b : jsstring_eqb a b = true <-> a = b.
Proof. unfold jsstring_eqb. apply bool_decide_eq_true. Qed.

Lemma jsstring_eqb_neq a b : jsstring_eqb a b = false <-> a <> b.
Proof. unfold jsstring_eqb. apply bool_decide_eq_false. Qed.

Lemma get_own_set_prop k v ps : get_own k (set_prop k v ps) = Some v.
Proof.
  induction ps as [|[k' v'] ps IH]; simpl.
  - now rewrite jsstring_eqb_refl.
  - destruct (jsstring_eqb k' k) eqn:Hk; simpl.
    + now rewrite jsstring_eqb_refl.
    + now rewrite Hk.
Qed.

Lemma get_own_set_prop_ne k k' v ps :
  k <> k' -> get_own k' (set_prop k v ps) = get_own k' ps.
Proof.
  intros Hne. induction ps as [|[k0 v0] ps IH]; simpl.
  - apply jsstring_eqb_neq in Hne. now rewrite Hne.
  - destruct (jsstring_eqb k0 k) eqn:Hk; simpl.
    + apply jsstring_eqb_eq in Hk as ->.
      apply jsstring_eqb_neq in Hne. now rewrite Hne.
    + destruct (jsstring_eqb k0 k'); auto.
Qed.

Lemma items_of_set_prop l ps :
  items_of (VObj (set_prop (lit "items") (VArr l) ps)) = l.
Proof. unfold items_of, get_prop. now rewrite get_own_set_prop. Qed.

Lemma items_of_merged_doc now doc l : items_of (merged_doc now doc l) = l.
Proof. apply items_of_set_prop. Qed.

Lemma get_prop_own ps k v : get_own k ps = Some v -> get_prop (VObj ps) k = v.
Proof. unfold get_prop. now intros ->. Qed.

Lemma member_own ps k v w :
  get_own k ps = Some v -> member (VObj ps) k w = (Ret v, w).
Proof. intros H. unfold member. now rewrite (get_prop_own _ _ _ H). Qed.

(** ** Building blocks of TodoStorage *)

Section StoreFacts.

Variable E : engine.

Lemma reading_eq {A} (f : nat -> A) w :
  reading f w = (Ret (f (tick w)), set_tick (S (tick w)) w).
Proof. reflexivity. Qed.

Lemma generateUUID_eq w :
  exists u, TodoStorage.generateUUID E w = (Ret u, set_tick (S (S (tick w))) w)
            /\ truthy (VStr u) = true.
Proof.
  eexists. split; [reflexivity|]. reflexivity.
Qed.

Lemma getDefaultData_eq w :
  TodoStorage.getDefaultData E w
  = (Ret (default_doc (Date_toISOString E (tick w))), set_tick (S (tick w)) w).
Proof. reflexivity. Qed.

Lemma sanitizeItem_falsy v : truthy v = false -> InputProcessor.sanitizeItem v = [].
Proof. intros H. unfold InputProcessor.sanitizeItem. now rewrite H. Qed.

Lemma sanitizeItem_or_empty v :
  InputProcessor.sanitizeItem (if truthy v then v else VStr [])
  = InputProcessor.sanitizeItem v.
Proof.
  destruct (truthy v) eqn:H; [reflexivity|]. now rewrite (sanitizeItem_falsy v H).
Qed.

Lemma validateItem_Validated item w :
  exists v t, TodoStorage.validateItem E item w = (Ret v, set_tick t w)
              /\ Validated item v.
Proof.
  unfold TodoStorage.validateItem.
  destruct (object_like item) eqn:Hobj.
  - assert (negb (truthy item) || negb (jstype_eqb (typeof item) TObject) = false) as ->.
    { unfold object_like in Hobj. apply andb_true_iff in Hobj as [-> ->]. reflexivity. }
    pose proof (object_like_not_nullish _ Hobj) as Hnn.
    assert (forall w', set_tick (tick w') w' = w') as Hsame by (now intros []).
    rewrite (bind_Ret _ _ _ _ _ (member_object_like item (lit "id") w Hnn)).
    destruct (truthy (get_prop item (lit "id"))) eqn:Hid.
    + rewrite bind_ret_l.
      rewrite (bind_Ret _ _ _ _ _ (member_object_like item (lit "text") w Hnn)).
      rewrite (bind_Ret _ _ _ _ _ (member_object_like item (lit "completed") w Hnn)).
      rewrite (bind_Ret _ _ _ _ _ (member_object_like item (lit "createdAt") w Hnn)).
      rewrite sanitizeItem_or_empty.
      destruct (truthy (get_prop item (lit "createdAt"))) eqn:Hca.
      * eexists _, (tick w). split; [rewrite Hsame; reflexivity|].
        apply (Validated_item item);
          try assumption; try reflexivity; try (now apply truthy_not_nullish);
          unfold id_of, createdAt_of; congruence.
      * eexists _, _. split; [reflexivity|].
        apply (Validated_item item);
          try assumption; try reflexivity; try (now apply truthy_not_nullish);
          unfold id_of, createdAt_of; congruence.
    + destruct (generateUUID_eq w) as (u & Hu & Hut).
      rewrite bind_assoc, (bind_Ret _ _ _ _ _ Hu), bind_ret_l.
      set (w1 := set_tick (S (S (tick w))) w).
      rewrite (bind_Ret _ _ _ _ _ (member_object_like item (lit "text") w1 Hnn)).
      rewrite (bind_Ret _ _ _ _ _ (member_object_like item (lit "completed") w1 Hnn)).
      rewrite (bind_Ret _ _ _ _ _ (member_object_like item (lit "createdAt") w1 Hnn)).
      rewrite sanitizeItem_or_empty.
      destruct (truthy (get_prop item (lit "createdAt"))) eqn:Hca.
      * eexists _, _. split; [reflexivity|].
        apply (Validated_item item);
          try assumption; try reflexivity; try (now apply truthy_not_nullish);
          unfold id_of, createdAt_of; congruence.
      * eexists _, _. split; [reflexivity|].
        apply (Validated_item item);
          try assumption; try reflexivity; try (now apply truthy_not_nullish);
          unfold id_of, createdAt_of; congruence.
  - assert (negb (truthy item) || negb (jstype_eqb (typeof item) TObject) = true) as ->.
    { unfold object_like in Hobj. apply andb_false_iff in Hobj as [-> | ->];
        [reflexivity | apply orb_true_r]. }
    exists VNull, (tick w). split; [destruct w; reflexivity | now constructor].
Qed.

Lemma mapM_validateItem l w :
  exists vs t, mapM (TodoStorage.validateItem E) l w = (Ret vs, set_tick t w)
               /\ Forall2 Validated l vs.
Proof.
  revert w. induction l as [|x l IH]; intros w; simpl.
  - exists [], (tick w). split; [destruct w; reflexivity | constructor].
  - destruct (validateItem_Validated x w) as (v & t & Hv & HV).
    rewrite (bind_Ret _ _ _ _ _ Hv).
    destruct (IH (set_tick t w)) as (vs & t' & Hvs & HVs).
    rewrite (bind_Ret _ _ _ _ _ Hvs).
    exists (v :: vs), t'. split; [reflexivity | now constructor].
Qed.

Lemma merge_validated_eq doc l w :
  exists now vs t,
    TodoStorage.merge_validated E doc l w
    = (Ret (merged_doc now doc (List.filter truthy vs)), set_tick t w)
    /\ Forall2 Validated l vs.
Proof.
  unfold TodoStorage.merge_validated.
  rewrite (bind_Ret _ _ _ _ _ (getDefaultData_eq w)).
  destruct (mapM_validateItem l (set_tick (S (tick w)) w)) as (vs & t & Hvs & HVs).
  rewrite (bind_Ret _ _ _ _ _ Hvs).
  now exists (Date_toISOString E (tick w)), vs, t.
Qed.

Lemma getItem_eq k w :
  getItem k w
  = match next_fault w with
    | Some e => (Throw e, after_call (GetItem k) w)
    | None => (Ret (localStorage w !! k), after_call (GetItem k) w)
    end.
Proof.
  destruct w as [ls [|[e|] fs] cs n]; reflexivity.
Qed.

Lemma setItem_eq k t w :
  setItem k t w
  = match next_fault w with
    | Some e => (Throw e, after_call (SetItem k t) w)
    | None => (Ret tt, with_store (<[k := t]> (localStorage w)) (after_call (SetItem k t) w))
    end.
Proof.
  destruct w as [ls [|[e|] fs] cs n]; reflexivity.
Qed.

Lemma load_Loaded w :
  exists d t,
    TodoStorage.load E w
    = (Ret d, set_tick t (after_call (GetItem TodoStorage.STORAGE_KEY) w))
    /\ Loaded w d.
Proof.
  unfold TodoStorage.load, Loaded, readable, try_catch, bind at 1.
  rewrite getItem_eq.
  destruct (next_fault w) as [e|].
  { rewrite getDefaultData_eq. eexists _, _. split; [reflexivity|]. now eexists. }
  destruct (localStorage w !! TodoStorage.STORAGE_KEY) as [[doc|s]|].
  - cbn [JSON_parse]. rewrite bind_ret_l.
    destruct (truthy doc) eqn:Hdoc; cbn [negb].
    + rewrite (bind_Ret _ _ _ _ _
                 (member_object_like doc _ _ (truthy_not_nullish _ Hdoc))).
      destruct (get_prop doc (lit "items")) as [| |b|n|s|raw|ps];
        try (rewrite getDefaultData_eq; eexists _, _; split; [reflexivity|]; now eexists).
      destruct (merge_validated_eq doc raw
                  (after_call (GetItem TodoStorage.STORAGE_KEY) w))
        as (now & vs & t & Hm & HV).
      rewrite Hm. exists (merged_doc now doc (List.filter truthy vs)), t.
      split; [reflexivity|]. now exists now, vs.
    + rewrite getDefaultData_eq. eexists _, _. split; [reflexivity|]. now eexists.
  - destruct s as [|c s].
    + rewrite getDefaultData_eq. eexists _, _. split; [reflexivity|]. now eexists.
    + cbn [JSON_parse]. unfold bind, throw.
      rewrite getDefaultData_eq. eexists _, _. split; [reflexivity|]. now eexists.
  - rewrite getDefaultData_eq. eexists _, _. split; [reflexivity|]. now eexists.
Qed.

Lemma Validated_truthy_Item raw v : Validated raw v -> truthy v = true -> Item v.
Proof.
  intros [Hn | id ca Hobj Hid _ _ Hca] Ht; [discriminate|].
  now exists id, (text_of raw), (truthy (completed_of raw)), ca.
Qed.

Lemma Validated_filter_Items raw vs :
  Forall2 Validated raw vs -> Forall Item (List.filter truthy vs).
Proof.
  induction 1 as [|r v raw vs HV _ IH]; simpl; [constructor|].
  destruct (truthy v) eqn:Ht; [|assumption].
  constructor; [now apply (Validated_truthy_Item r) | assumption].
Qed.

Lemma Loaded_shape w d :
  Loaded w d ->
  exists ps l, d = VObj ps /\ get_own (lit "items") ps = Some (VArr l)
               /\ items_of d = l /\ Forall Item l.
Proof.
  unfold Loaded. destruct (readable w) as [[doc raw]|].
  - intros (now & vs & HV & ->). eexists _, (List.filter truthy vs).
    split; [reflexivity|]. split; [apply get_own_set_prop|].
    split; [apply items_of_merged_doc | now apply (Validated_filter_Items raw)].
  - intros (now & ->). eexists _, []. split; [reflexivity|].
    split; [reflexivity|]. split; [reflexivity | constructor].
Qed.

End StoreFacts.

Section SaveFacts.

Variable E : engine.

Lemma Item_not_nullish v : Item v -> nullish v = false.
Proof. now intros (id & t & c & ca & -> & _ & _). Qed.






Lemma Items_not_nullish l : Forall Item l -> Forall (fun v => nullish v = false) l.
Proof. apply List.Forall_impl, Item_not_nullish. Qed.


Lemma handleStorageQuotaExceeded_total : total (TodoStorage.handleStorageQuotaExceeded E).
Proof. apply try_catch_total. intros e. apply total_ret. Qed.

Lemma save_not_saveable data w :
  saveable data = false -> TodoStorage.save E data w = (Ret false, w).
Proof.
  unfold saveable, TodoStorage.save, try_catch. intros H.
  destruct (truthy data) eqn:Ht; [|reflexivity]. cbn [negb andb] in *.
  rewrite (bind_Ret _ _ _ _ _ (member_object_like data _ w (truthy_not_nullish _ Ht))).
  destruct (get_prop data (lit "items")); try reflexivity. discriminate.
Qed.

Lemma save_saveable data w :
  saveable data = true ->
  TodoStorage.save E data w
  = let t := saved_text E data w in
    let w1 := after_call (SetItem TodoStorage.STORAGE_KEY t) (set_tick (S (tick w)) w) in
    match next_fault w with
    | None => (Ret true, with_store (<[TodoStorage.STORAGE_KEY := t]> (localStorage w)) w1)
    | Some e =>
        if jsstring_eqb (exn_name e) (lit "QuotaExceededError")
        then (Ret false, snd (TodoStorage.handleStorageQuotaExceeded E w1))
        else (Ret false, w1)
    end.
Proof.
  unfold saveable, TodoStorage.save, try_catch. intros H.
  apply andb_true_iff in H as [Ht Hi]. rewrite Ht. cbn [negb].
  rewrite (bind_Ret _ _ _ _ _ (member_object_like data _ w (truthy_not_nullish _ Ht))).
  destruct (get_prop data (lit "items")); try discriminate.
  unfold TodoStorage.now_iso. rewrite (bind_Ret _ _ _ _ _ (reading_eq _ w)).
  change (JSON_stringify (VObj ?x)) with (Json (json_clean (VObj x))).
  fold (stamped (Date_toISOString E (tick w)) data).
  fold (saved_text E data w).
  unfold bind. rewrite setItem_eq.
  change (next_fault (set_tick (S (tick w)) w)) with (next_fault w).
  destruct (next_fault w) as [e|]; [|reflexivity].
  destruct (jsstring_eqb (exn_name e) (lit "QuotaExceededError")); [|reflexivity].
  destruct (handleStorageQuotaExceeded_total
              (after_call (SetItem TodoStorage.STORAGE_KEY (saved_text E data w))
                 (set_tick (S (tick w)) w))) as ([] & w' & ->).
  reflexivity.
Qed.

Lemma save_total data : total (TodoStorage.save E data).
Proof.
  intros w. destruct (saveable data) eqn:Hs.
  - rewrite (save_saveable data w Hs). cbv zeta.
    destruct (next_fault w) as [e|]; [|now eexists _, _].
    destruct (jsstring_eqb _ _); now eexists _, _.
  - rewrite (save_not_saveable data w Hs). now eexists _, _.
Qed.

(** In a world whose backend serves the write. *)
Lemma save_served data w :
  saveable data = true -> next_fault w = None ->
  TodoStorage.save E data w
  = (Ret true,
     with_store (<[TodoStorage.STORAGE_KEY := saved_text E data w]> (localStorage w))
       (after_call (SetItem TodoStorage.STORAGE_KEY (saved_text E data w))
          (set_tick (S (tick w)) w))).
Proof. intros Hs Hf. rewrite (save_saveable data w Hs). cbv zeta. now rewrite Hf. Qed.

End SaveFacts.

Section CrudFacts.

Variable E : engine.

Lemma findIndexM_eq id l w :
  Forall (fun v => nullish v = false) l ->
  findIndexM (fun item => let* i := member item (lit "id") in ret (strict_eq i id)) l w
  = (Ret (find_index (has_id id) l), w).
Proof.
  induction 1 as [|x l Hx _ IH]; simpl; [reflexivity|].
  rewrite bind_assoc, (bind_Ret _ _ _ _ _ (member_object_like x _ w Hx)), bind_ret_l.
  fold (id_of x). fold (has_id id x).
  destruct (has_id id x); [reflexivity|].
  now rewrite (bind_Ret _ _ _ _ _ IH).
Qed.

Lemma filterM_eq id l w :
  Forall (fun v => nullish v = false) l ->
  filterM (fun item => let* i := member item (lit "id") in ret (negb (strict_eq i id))) l w
  = (Ret (without_id id l), w).
Proof.
  induction 1 as [|x l Hx _ IH]; simpl; [reflexivity|].
  rewrite bind_assoc, (bind_Ret _ _ _ _ _ (member_object_like x _ w Hx)), bind_ret_l.
  rewrite (bind_Ret _ _ _ _ _ IH).
  fold (id_of x). fold (has_id id x). reflexivity.
Qed.

Lemma find_index_None p l :
  find_index p l = None <-> Forall (fun x => p x = false) l.
Proof.
  induction l as [|x l IH]; simpl.
  - split; [constructor | reflexivity].
  - destruct (p x) eqn:Hp.
    + split; [discriminate|]. intros H. inversion H. congruence.
    + destruct (find_index p l); simpl.
      * split; [discriminate|]. intros H. inversion H as [|? ? _ Hl]. now apply IH in Hl.
      * split; [|reflexivity]. intros _. constructor; [assumption | now apply IH].
Qed.

Lemma find_index_Some p l i :
  find_index p l = Some i ->
  exists x, nth_error l i = Some x /\ p x = true
            /\ Forall (fun y => p y = false) (firstn i l).
Proof.
  revert i. induction l as [|x l IH]; intros i; simpl; [discriminate|].
  destruct (p x) eqn:Hp.
  - intros [= <-]. exists x. repeat split; [assumption | constructor].
  - destruct (find_index p l) as [j|]; simpl; [|discriminate].
    intros [= <-]. destruct (IH j eq_refl) as (y & Hy & Hpy & Hbefore).
    exists y. repeat split; [assumption.. | now constructor].
Qed.

Lemma without_id_length id l :
  (length (without_id id l) <? length l)%nat = true
  <-> Exists (fun item => has_id id item = true) l.
Proof.
  unfold without_id. rewrite Nat.ltb_lt. induction l as [|x l IH]; simpl.
  - split; [lia | intros H; inversion H].
  - pose proof (List.filter_length_le (fun item => negb (has_id id item)) l) as Hle.
    destruct (has_id id x) eqn:Hx; simpl.
    + split; [intros _; now left | lia].
    + split.
      * intros H. right. apply IH. lia.
      * intros H. inversion H; subst; [congruence|]. apply IH in H1. lia.
Qed.

Lemma load_world w d w1 :
  TodoStorage.load E w = (Ret d, w1) ->
  Loaded w d
  /\ exists t, w1 = set_tick t (after_call (GetItem TodoStorage.STORAGE_KEY) w).
Proof.
  intros H. destruct (load_Loaded E w) as (d' & t & H' & HL).
  rewrite H' in H. injection H as <- <-. split; [assumption | now exists t].
Qed.

Lemma updateItem_not_found id updates w d w1 :
  TodoStorage.load E w = (Ret d, w1) ->
  Forall (fun item => has_id id item = false) (items_of d) ->
  TodoStorage.updateItem E id updates w = (Ret VNull, w1).
Proof.
  intros Hload Habs.
  destruct (load_world w d w1 Hload) as [HL _].
  destruct (Loaded_shape w d HL) as (ps & l & -> & Hitems & Hl & HI).
  rewrite Hl in Habs.
  unfold TodoStorage.updateItem.
  rewrite (bind_Ret _ _ _ _ _ Hload).
  rewrite (bind_Ret _ _ _ _ _ (member_own ps _ _ w1 Hitems)).
  rewrite (bind_Ret _ _ _ _ _ (findIndexM_eq id l w1 (Items_not_nullish l HI))).
  apply find_index_None in Habs. now rewrite Habs.
Qed.

Lemma deleteItem_eq id w d w1 :
  TodoStorage.load E w = (Ret d, w1) ->
  TodoStorage.deleteItem E id w
  = if (length (without_id id (items_of d)) <? length (items_of d))%nat
    then TodoStorage.save E (with_items d (without_id id (items_of d))) w1
    else (Ret false, w1).
Proof.
  intros Hload.
  destruct (load_world w d w1 Hload) as [HL _].
  destruct (Loaded_shape w d HL) as (ps & l & -> & Hitems & Hl & HI).
  rewrite Hl.
  unfold TodoStorage.deleteItem.
  rewrite (bind_Ret _ _ _ _ _ Hload).
  rewrite (bind_Ret _ _ _ _ _ (member_own ps _ _ w1 Hitems)).
  rewrite (bind_Ret _ _ _ _ _ (filterM_eq id l w1 (Items_not_nullish l HI))).
  cbn [set_member with_items]. rewrite bind_ret_l.
  now destruct (_ <? _)%nat.
Qed.

End CrudFacts.

(** ** Keys of objects, serialisation *)

Lemma set_prop_fresh k v ps : ~ In k (keys ps) -> set_prop k v ps = ps ++ [(k, v)].
Proof.
  induction ps as [|[k0 v0] ps IH]; simpl; [reflexivity|].
  intros H. destruct (jsstring_eqb k0 k) eqn:Hk.
  - apply jsstring_eqb_eq in Hk. tauto.
  - rewrite IH; tauto.
Qed.

Lemma keys_set_prop_present k v ps : In k (keys ps) -> keys (set_prop k v ps) = keys ps.
Proof.
  induction ps as [|[k0 v0] ps IH]; simpl; [tauto|].
  intros H. destruct (jsstring_eqb k0 k) eqn:Hk; simpl.
  - apply jsstring_eqb_eq in Hk. now subst.
  - apply jsstring_eqb_neq in Hk. f_equal. apply IH. tauto.
Qed.

Lemma NoDup_set_prop k v ps :
  List.NoDup (keys ps) -> List.NoDup (keys (set_prop k v ps)).
Proof.
  intros H. destruct (decide (k ∈ keys ps)) as [Hin|Hout].
  - apply list_elem_of_In in Hin. now rewrite keys_set_prop_present.
  - rewrite list_elem_of_In in Hout.
    rewrite set_prop_fresh by assumption. unfold keys. rewrite List.map_app. simpl.
    apply List.NoDup_app; [assumption | repeat constructor; simpl; tauto |].
    intros x Hx [<-|[]]. now apply Hout.
Qed.

Lemma NoDup_spread o src : List.NoDup (keys o) -> List.NoDup (keys (spread o src)).
Proof.
  unfold spread. generalize (own_props src). intros ps. revert o.
  induction ps as [|[k v] ps IH]; intros o Ho; simpl; [assumption|].
  apply IH. now apply NoDup_set_prop.
Qed.

Lemma fold_set_prop_fresh ps acc :
  List.NoDup (keys (acc ++ ps)) ->
  fold_left (fun o kv => set_prop (fst kv) (snd kv) o) ps acc = acc ++ ps.
Proof.
  revert acc. induction ps as [|[k v] ps IH]; intros acc H; simpl.
  - now rewrite app_nil_r.
  - assert (~ In k (keys acc)) as Hk.
    { unfold keys in H. rewrite List.map_app in H. simpl in H.
      apply List.NoDup_remove_2 in H.
      intros Hin. apply H. apply in_or_app. now left. }
    rewrite (set_prop_fresh k v acc Hk), IH; rewrite <- app_assoc; [reflexivity | exact H].
Qed.

Lemma spread_nil_NoDup ps : List.NoDup (keys ps) -> spread [] (VObj ps) = ps.
Proof. intros H. unfold spread. cbn [own_props]. now rewrite fold_set_prop_fresh. Qed.

Lemma Loaded_keys w d : Loaded w d -> exists ps, d = VObj ps /\ List.NoDup (keys ps).
Proof.
  unfold Loaded. destruct (readable w) as [[doc raw]|].
  - intros (now & vs & _ & ->). eexists. split; [reflexivity|].
    apply NoDup_set_prop, NoDup_spread, NoDup_spread. constructor.
  - intros (now & ->). eexists. split; [reflexivity|].
    repeat constructor; simpl; intuition discriminate.
Qed.

Lemma json_clean_VObj ps : json_clean (VObj ps) = VObj (clean_props ps).
Proof. reflexivity. Qed.

Lemma json_clean_VArr l : json_clean (VArr l) = VArr (List.map clean_elem l).
Proof. reflexivity. Qed.

Lemma get_own_clean_props k ps v :
  get_own k ps = Some v -> v <> VUndef ->
  get_own k (clean_props ps) = Some (json_clean v).
Proof.
  intros Hget Hv. induction ps as [|[k0 v0] ps IH]; simpl in *; [discriminate|].
  destruct (jsstring_eqb k0 k) eqn:Hk.
  - injection Hget as ->. destruct v; try congruence; simpl; now rewrite Hk.
  - destruct v0; simpl; rewrite ?Hk; now apply IH.
Qed.

Lemma stamped_NoDup now ps :
  List.NoDup (keys ps) ->
  stamped now (VObj ps)
  = VObj (set_prop (lit "version") (VStr TodoStorage.VERSION)
            (set_prop (lit "lastUpdated") (VStr now) ps)).
Proof. intros H. unfold stamped. now rewrite spread_nil_NoDup. Qed.

(** Reading the items back from what [save] wrote. *)
Lemma get_own_items_saved now ps l :
  List.NoDup (keys ps) -> get_own (lit "items") ps = Some (VArr l) ->
  exists ps', json_clean (stamped now (VObj ps)) = VObj ps'
              /\ get_own (lit "items") ps' = Some (VArr (List.map clean_elem l)).
Proof.
  intros Hnd Hitems. rewrite (stamped_NoDup now ps Hnd), json_clean_VObj.
  eexists. split; [reflexivity|].
  change (VArr (List.map clean_elem l)) with (json_clean (VArr l)).
  apply get_own_clean_props; [|discriminate].
  rewrite !get_own_set_prop_ne by discriminate. assumption.
Qed.

Lemma items_of_saved now ps l :
  List.NoDup (keys ps) -> get_own (lit "items") ps = Some (VArr l) ->
  items_of (json_clean (stamped now (VObj ps))) = List.map clean_elem l.
Proof.
  intros Hnd Hitems.
  destruct (get_own_items_saved now ps l Hnd Hitems) as (ps' & -> & Hget).
  unfold items_of. now rewrite (get_prop_own _ _ _ Hget).
Qed.

Lemma clean_elem_Created s item : Created s item -> clean_elem item = item.
Proof. now intros (id & ca & -> & _). Qed.

(** ** Updating and deleting by id *)

Section ById.

Variable E : engine.

Lemma Validated_filter raw vs :
  Forall2 Validated raw vs ->
  Forall2 (fun r v => object_like r = true /\ Validated r v)
    (List.filter object_like raw) (List.filter truthy vs).
Proof.
  induction 1 as [|r v raw vs HV _ IH]; simpl; [constructor|].
  destruct HV as [Hn | id ca Hobj Hid Hid' Hca].
  - now rewrite Hn.
  - rewrite Hobj. cbn [truthy TodoStorage.mkItem]. constructor; [|assumption].
    split; [assumption | now apply Validated_item].
Qed.

Lemma Loaded_stored_items w d :
  Loaded w d ->
  Forall2 (fun r v => object_like r = true /\ Validated r v)
    (stored_items w) (items_of d).
Proof.
  unfold Loaded, stored_items. destruct (readable w) as [[doc raw]|].
  - intros (now & vs & HV & ->). rewrite items_of_merged_doc.
    now apply Validated_filter.
  - intros (now & ->). constructor.
Qed.

Lemma Loaded_absent w d id :
  Loaded w d ->
  Forall (fun r => truthy (id_of r) = true /\ has_id id r = false) (stored_items w) ->
  Forall (fun item => has_id id item = false) (items_of d).
Proof.
  intros HL Hst. apply Loaded_stored_items in HL.
  induction HL as [|r v rs vs [Hobj HV] _ IH]; [constructor|].
  inversion Hst as [|? ? [Hid Hne] Hrest]; subst.
  constructor; [|now apply IH].
  destruct HV as [Hn | i ca _ Hi Hi' Hca]; [congruence|].
  rewrite <- Hne. unfold has_id. f_equal. now apply Hi'.
Qed.

(** C8.  For an id that no record of the collection has, updateItem
    returns null, whatever the updates, and calls the backend for the
    one read of its load only: nothing is written and the stored
    document, lastUpdated included, is the one that was there.  The
    collection is the one load returns; it is also stated on the
    stored records when these carry ids. *)
Theorem updateItem_absent_id (id updates : value) (w : world) :
  (forall d w1,
      TodoStorage.load E w = (Ret d, w1) ->
      Forall (fun item => has_id id item = false) (items_of d) ->
      TodoStorage.updateItem E id updates w = (Ret VNull, w1)
      /\ localStorage w1 = localStorage w
      /\ calls w1 = GetItem TodoStorage.STORAGE_KEY :: calls w)
  /\ (Forall (fun r => truthy (id_of r) = true /\ has_id id r = false) (stored_items w) ->
      exists w1,
        TodoStorage.updateItem E id updates w = (Ret VNull, w1)
        /\ localStorage w1 = localStorage w
        /\ calls w1 = GetItem TodoStorage.STORAGE_KEY :: calls w).
Proof.
  assert (forall d w1,
      TodoStorage.load E w = (Ret d, w1) ->
      Forall (fun item => has_id id item = false) (items_of d) ->
      TodoStorage.updateItem E id updates w = (Ret VNull, w1)
      /\ localStorage w1 = localStorage w
      /\ calls w1 = GetItem TodoStorage.STORAGE_KEY :: calls w) as Hgen.
  { intros d w1 Hload Habs. split; [now apply (updateItem_not_found E id updates w d)|].
    destruct (load_world E w d w1 Hload) as [_ [t ->]]. now split. }
  split; [exact Hgen|].
  intros Hst. destruct (load_Loaded E w) as (d & t & Hload & HL).
  eexists. apply (Hgen d); [exact Hload | now apply (Loaded_absent w)].
Qed.

(** C9.  For an id that no record of the collection has, deleteItem
    returns false after the one read of its load: nothing is written,
    lastUpdated stays.  For an id that some record has, deleteItem is
    the save of the loaded document with exactly the records of that id
    filtered out, and its result is that save's result; where the
    backend serves the write, the result is true and the store holds
    the reduced document. *)
Theorem deleteItem_by_id (id : value) (w : world) :
  (Forall (fun r => truthy (id_of r) = true /\ has_id id r = false) (stored_items w) ->
   exists w1,
     TodoStorage.deleteItem E id w = (Ret false, w1)
     /\ localStorage w1 = localStorage w
     /\ calls w1 = GetItem TodoStorage.STORAGE_KEY :: calls w)
  /\ (forall d w1,
        TodoStorage.load E w = (Ret d, w1) ->
        (Forall (fun item => has_id id item = false) (items_of d) ->
         TodoStorage.deleteItem E id w = (Ret false, w1)
         /\ localStorage w1 = localStorage w
         /\ calls w1 = GetItem TodoStorage.STORAGE_KEY :: calls w)
        /\ (Exists (fun item => has_id id item = true) (items_of d) ->
            let reduced := with_items d (without_id id (items_of d)) in
            TodoStorage.deleteItem E id w = TodoStorage.save E reduced w1
            /\ items_of reduced
               = List.filter (fun item => negb (strict_eq (id_of item) id)) (items_of d)
            /\ (next_fault w1 = None ->
                exists w2,
                  TodoStorage.deleteItem E id w = (Ret true, w2)
                  /\ localStorage w2
                     = <[TodoStorage.STORAGE_KEY := saved_text E reduced w1]>
                         (localStorage w)))).
Proof.
  assert (forall d w1,
        TodoStorage.load E w = (Ret d, w1) ->
        Forall (fun item => has_id id item = false) (items_of d) ->
        TodoStorage.deleteItem E id w = (Ret false, w1)
        /\ localStorage w1 = localStorage w
        /\ calls w1 = GetItem TodoStorage.STORAGE_KEY :: calls w) as Habsent.
  { intros d w1 Hload Habs. rewrite (deleteItem_eq E id w d w1 Hload).
    destruct (length (without_id id (items_of d)) <? length (items_of d))%nat eqn:Hlt.
    - apply without_id_length in Hlt. apply List.Exists_exists in Hlt as (x & Hx & Hid).
      apply (proj1 (List.Forall_forall _ _) Habs) in Hx. congruence.
    - destruct (load_world E w d w1 Hload) as [_ [t ->]]. now repeat split. }
  split.
  { intros Hst. destruct (load_Loaded E w) as (d & t & Hload & HL).
    eexists. apply (Habsent d); [exact Hload | now apply (Loaded_absent w)]. }
  intros d w1 Hload. split; [now apply Habsent|].
  intros Hpres reduced.
  destruct (load_world E w d w1 Hload) as [HL [t ->]].
  destruct (Loaded_shape w d HL) as (ps & l & -> & Hitems & Hl & HI).
  assert (TodoStorage.deleteItem E id w
          = TodoStorage.save E reduced
              (set_tick t (after_call (GetItem TodoStorage.STORAGE_KEY) w))) as Heq.
  { rewrite (deleteItem_eq E id w _ _ Hload).
    apply without_id_length in Hpres. now rewrite Hpres. }
  split; [exact Heq|]. split.
  { subst reduced. cbn [with_items]. now rewrite items_of_set_prop. }
  intros Hserved. rewrite Heq.
  rewrite save_served; [| |exact Hserved].
  - eexists. split; reflexivity.
  - subst reduced. unfold saveable. cbn [with_items truthy andb].
    now rewrite (get_prop_own _ _ _ (get_own_set_prop _ _ _)).
Qed.

End ById.

Lemma updateItem_absent_id_witness :
  exists w1,
    TodoStorage.updateItem E0 (VStr (lit "zz")) (VObj [(lit "text", VStr (lit "new"))])
      (world_ex (doc_ex two_items) []) = (Ret VNull, w1)
    /\ localStorage w1 = localStorage (world_ex (doc_ex two_items) [])
    /\ calls w1 = [GetItem TodoStorage.STORAGE_KEY].
Proof.
  apply (updateItem_absent_id E0).
  vm_compute. repeat constructor.
Defined.

Lemma deleteItem_by_id_witness :
  (exists w1,
     TodoStorage.deleteItem E0 (VStr (lit "zz")) (world_ex (doc_ex two_items) [])
     = (Ret false, w1)
     /\ localStorage w1 = localStorage (world_ex (doc_ex two_items) [])
     /\ calls w1 = [GetItem TodoStorage.STORAGE_KEY])
  /\ (exists w2,
        TodoStorage.deleteItem E0 (VStr (lit "a")) (world_ex (doc_ex two_items) [])
        = (Ret true, w2)
        /\ exists doc, localStorage w2 !! TodoStorage.STORAGE_KEY = Some (Json doc)
                       /\ items_of doc = [item_ex "b" "bread" (VNum 20)]).
Proof.
  split.
  - apply (deleteItem_by_id E0). vm_compute. repeat constructor.
  - destruct (TodoStorage.load E0 (world_ex (doc_ex two_items) [])) as [[d|e] w1] eqn:Hload;
      [|vm_compute in Hload; discriminate].
    destruct (deleteItem_by_id E0 (VStr (lit "a")) (world_ex (doc_ex two_items) []))
      as [_ H].
    destruct (H d w1 Hload) as [_ Hpres].
    vm_compute in Hload. injection Hload as <- <-.
    destruct Hpres as (_ & _ & Hsrv).
    + left. reflexivity.
    + destruct Hsrv as (w2 & Hdel & Hstore); [reflexivity|].
      exists w2. split; [exact Hdel|].
      eexists. rewrite Hstore. split; [apply lookup_insert_eq|]. reflexivity.
Defined.

(** ** Adding records *)

Section Adding.

Variable E : engine.

Lemma set_prop_set_prop k v v' ps :
  set_prop k v (set_prop k v' ps) = set_prop k v ps.
Proof.
  induction ps as [|[k0 v0] ps IH]; simpl.
  - now rewrite jsstring_eqb_refl.
  - destruct (jsstring_eqb k0 k) eqn:Hk; simpl.
    + now rewrite jsstring_eqb_refl.
    + now rewrite Hk, IH.
Qed.

Lemma set_prop_same k v ps : get_own k ps = Some v -> set_prop k v ps = ps.
Proof.
  induction ps as [|[k0 v0] ps IH]; simpl; [discriminate|].
  destruct (jsstring_eqb k0 k) eqn:Hk.
  - intros [= ->]. apply jsstring_eqb_eq in Hk. now subst.
  - intros H. now rewrite IH.
Qed.

Lemma truthy_VStr s : truthy (VStr s) = negb (jsstring_eqb s []).
Proof. now destruct s. Qed.

Lemma newItem_of_eq s w :
  exists item, TodoStorage.newItem_of E s w = (Ret item, set_tick (S (S (S (tick w)))) w)
               /\ Created s item.
Proof.
  unfold TodoStorage.newItem_of.
  destruct (generateUUID_eq E w) as (u & Hu & Hut).
  rewrite (bind_Ret _ _ _ _ _ Hu).
  eexists. split; [reflexivity|]. now exists u, (Date_toISOString E (S (S (tick w)))).
Qed.

Lemma push_item_eq ps l x w :
  get_own (lit "items") ps = Some (VArr l) ->
  TodoStorage.push_item (VObj ps) x w
  = (Ret (VObj (set_prop (lit "items") (VArr (l ++ [x])) ps)), w).
Proof.
  intros H. unfold TodoStorage.push_item.
  now rewrite (bind_Ret _ _ _ _ _ (member_own ps _ _ w H)).
Qed.

Lemma addItems_loop_eq texts ps l acc w :
  get_own (lit "items") ps = Some (VArr l) ->
  exists news t,
    TodoStorage.addItems_loop E texts (VObj ps) acc w
    = (Ret (VObj (set_prop (lit "items") (VArr (l ++ news)) ps), acc ++ news),
       set_tick t w)
    /\ Forall2 Created (valid_texts texts) news.
Proof.
  revert ps l acc w. induction texts as [|x texts IH]; intros ps l acc w Hitems.
  - exists [], (tick w). split; [|constructor].
    cbn [TodoStorage.addItems_loop]. rewrite !app_nil_r.
    rewrite (set_prop_same _ _ _ Hitems). now destruct w.
  - cbn [TodoStorage.addItems_loop]. unfold valid_texts. cbn [List.map List.filter].
    rewrite truthy_VStr.
    destruct (negb (jsstring_eqb (InputProcessor.sanitizeItem x) [])).
    + destruct (newItem_of_eq (InputProcessor.sanitizeItem x) w) as (item & Hnew & Hc).
      rewrite (bind_Ret _ _ _ _ _ Hnew).
      rewrite (bind_Ret _ _ _ _ _ (push_item_eq ps l item _ Hitems)).
      destruct (IH (set_prop (lit "items") (VArr (l ++ [item])) ps) (l ++ [item])
                  (acc ++ [item]) (set_tick (S (S (S (tick w)))) w)
                  (get_own_set_prop _ _ _)) as (news & t & Hloop & HF).
      exists (item :: news), t. split; [|now constructor].
      rewrite Hloop. rewrite set_prop_set_prop, <- !app_assoc. reflexivity.
    + apply IH. assumption.
Qed.

Lemma addItems_eq texts w d w1 :
  TodoStorage.load E w = (Ret d, w1) ->
  exists news t,
    Forall2 Created (valid_texts texts) news
    /\ TodoStorage.addItems E (VArr texts) w
       = match news with
         | [] => (Ret [], set_tick t w1)
         | _ => (Ret news,
                 snd (TodoStorage.save E (with_items d (items_of d ++ news))
                        (set_tick t w1)))
         end.
Proof.
  intros Hload.
  destruct (load_world E w d w1 Hload) as [HL _].
  destruct (Loaded_shape w d HL) as (ps & l & -> & Hitems & Hl & HI).
  destruct (addItems_loop_eq texts ps l [] w1 Hitems) as (news & t & Hloop & HF).
  exists news, t. split; [assumption|].
  unfold TodoStorage.addItems.
  rewrite (bind_Ret _ _ _ _ _ Hload), (bind_Ret _ _ _ _ _ Hloop).
  cbn [app with_items]. rewrite Hl.
  destruct news as [|n news]; [reflexivity|].
  cbn [length Nat.ltb Nat.leb].
  unfold bind.
  destruct (save_total E (VObj (set_prop (lit "items") (VArr (l ++ n :: news)) ps))
              (set_tick t w1)) as (b & w2 & ->).
  reflexivity.
Qed.

End Adding.

Section Batch.

Variable E : engine.

Lemma map_clean_elem_Created ss news :
  Forall2 Created ss news -> List.map clean_elem news = news.
Proof.
  induction 1 as [|s item ss news Hc _ IH]; simpl; [reflexivity|].
  now rewrite (clean_elem_Created s item Hc), IH.
Qed.

Lemma saveable_with_items ps l :
  saveable (VObj (set_prop (lit "items") (VArr l) ps)) = true.
Proof.
  unfold saveable. cbn [truthy andb].
  now rewrite (get_prop_own _ _ _ (get_own_set_prop _ _ _)).
Qed.

(** C5.  addItems sanitizes each element and skips the empty results; it
    loads once; with no valid element it returns the empty sequence after
    that one read and writes nothing; otherwise it returns the records it
    built and its effect is that of one save of the loaded document with
    these records appended, which, where the backend serves the write, is
    one write after the one read.  An argument that is not an array gives
    the empty sequence without touching the store.  On a fresh store,
    addItems(["a", "", "  ", "b"]) returns two records, for "a" and "b",
    the store then holds exactly these two, and the backend saw one read
    and one write. *)
Theorem addItems_batch :
  (forall texts w,
      exists d w1 news t,
        TodoStorage.load E w = (Ret d, w1)
        /\ Forall2 Created (valid_texts texts) news
        /\ (valid_texts texts = [] ->
            TodoStorage.addItems E (VArr texts) w = (Ret [], set_tick t w1)
            /\ localStorage (set_tick t w1) = localStorage w
            /\ calls (set_tick t w1) = GetItem TodoStorage.STORAGE_KEY :: calls w)
        /\ (valid_texts texts <> [] ->
            let doc := with_items d (items_of d ++ news) in
            TodoStorage.addItems E (VArr texts) w
            = (Ret news, snd (TodoStorage.save E doc (set_tick t w1)))
            /\ (next_fault w1 = None ->
                exists w2 stored,
                  TodoStorage.addItems E (VArr texts) w = (Ret news, w2)
                  /\ localStorage w2
                     = <[TodoStorage.STORAGE_KEY := Json stored]> (localStorage w)
                  /\ items_of stored = List.map clean_elem (items_of d) ++ news
                  /\ calls w2
                     = SetItem TodoStorage.STORAGE_KEY (Json stored)
                         :: GetItem TodoStorage.STORAGE_KEY :: calls w)))
  /\ (forall v w, (forall l, v <> VArr l) -> TodoStorage.addItems E v w = (Ret [], w))
  /\ (forall cs n,
        exists a b stored w2,
          TodoStorage.addItems E
            (VArr [VStr (lit "a"); VStr []; VStr (lit "  "); VStr (lit "b")])
            (World ∅ [] cs n)
          = (Ret [a; b], w2)
          /\ Created (lit "a") a /\ Created (lit "b") b
          /\ localStorage w2 = {[ TodoStorage.STORAGE_KEY := Json stored ]}
          /\ items_of stored = [a; b]
          /\ calls w2
             = SetItem TodoStorage.STORAGE_KEY (Json stored)
                 :: GetItem TodoStorage.STORAGE_KEY :: cs).
Proof.
  assert (forall texts w,
      exists d w1 news t,
        TodoStorage.load E w = (Ret d, w1)
        /\ Forall2 Created (valid_texts texts) news
        /\ (valid_texts texts = [] ->
            TodoStorage.addItems E (VArr texts) w = (Ret [], set_tick t w1)
            /\ localStorage (set_tick t w1) = localStorage w
            /\ calls (set_tick t w1) = GetItem TodoStorage.STORAGE_KEY :: calls w)
        /\ (valid_texts texts <> [] ->
            let doc := with_items d (items_of d ++ news) in
            TodoStorage.addItems E (VArr texts) w
            = (Ret news, snd (TodoStorage.save E doc (set_tick t w1)))
            /\ (next_fault w1 = None ->
                exists w2 stored,
                  TodoStorage.addItems E (VArr texts) w = (Ret news, w2)
                  /\ localStorage w2
                     = <[TodoStorage.STORAGE_KEY := Json stored]> (localStorage w)
                  /\ items_of stored = List.map clean_elem (items_of d) ++ news
                  /\ calls w2
                     = SetItem TodoStorage.STORAGE_KEY (Json stored)
                         :: GetItem TodoStorage.STORAGE_KEY :: calls w))) as Hgen.
  { intros texts w.
    destruct (load_Loaded E w) as (d & t0 & Hload & HL).
    destruct (addItems_eq E texts w d _ Hload) as (news & t & HF & Hadd).
    exists d, (set_tick t0 (after_call (GetItem TodoStorage.STORAGE_KEY) w)), news, t.
    split; [exact Hload|]. split; [exact HF|]. split.
    - intros Hnone. rewrite Hnone in HF. inversion HF; subst.
      split; [exact Hadd|]. now split.
    - intros Hsome doc.
      assert (TodoStorage.addItems E (VArr texts) w
              = (Ret news,
                 snd (TodoStorage.save E doc
                        (set_tick t
                           (set_tick t0 (after_call (GetItem TodoStorage.STORAGE_KEY) w))))))
        as Heq.
      { rewrite Hadd. destruct news; [|reflexivity].
        inversion HF as [Hnil|]. congruence. }
      split; [exact Heq|].
      intros Hserved. rewrite Heq.
      destruct (Loaded_keys w d HL) as (ps & -> & Hnd).
      destruct (Loaded_shape w _ HL) as (ps' & l & [= <-] & Hitems & Hl & _).
      subst doc. cbn [with_items]. rewrite Hl.
      rewrite save_served; [|apply saveable_with_items|exact Hserved].
      eexists _, _. split; [reflexivity|]. split; [reflexivity|]. split; [|reflexivity].
      rewrite (items_of_saved _ _ (l ++ news));
        [|now apply NoDup_set_prop|apply get_own_set_prop].
      rewrite List.map_app. now rewrite (map_clean_elem_Created _ _ HF). }
  split; [exact Hgen|]. split.
  - intros v w Hv. destruct v; try reflexivity. now destruct (Hv elems).
  - intros cs n.
    destruct (Hgen [VStr (lit "a"); VStr []; VStr (lit "  "); VStr (lit "b")]
                (World ∅ [] cs n)) as (d & w1 & news & t & Hload & HF & _ & Hsome).
    destruct (load_world E _ d w1 Hload) as [HL [t0 ->]].
    assert (items_of d = []) as Hd.
    { unfold Loaded in HL.
      change (readable (World ∅ [] cs n)) with (@None (value * list value)) in HL.
      destruct HL as (now & ->). reflexivity. }
    change (valid_texts [VStr (lit "a"); VStr []; VStr (lit "  "); VStr (lit "b")])
      with [lit "a"; lit "b"] in *.
    inversion HF as [|s1 a ss1 news1 Ha HF1]; subst.
    inversion HF1 as [|s2 b ss2 news2 Hb HF2]; subst.
    inversion HF2; subst.
    destruct Hsome as [_ Hserved]; [discriminate|].
    destruct Hserved as (w2 & stored & Hadd & Hls & Hitems & Hcalls); [reflexivity|].
    exists a, b, stored, w2.
    split; [exact Hadd|]. split; [exact Ha|]. split; [exact Hb|]. split; [|split].
    + rewrite Hls. apply insert_empty.
    + rewrite Hitems, Hd. reflexivity.
    + exact Hcalls.
Qed.

End Batch.

Lemma addItems_batch_witness :
  (exists w1,
     TodoStorage.addItems E0 (VArr [VStr (lit "  "); VNum 3]) (world_ex (doc_ex two_items) [])
     = (Ret [], w1)
     /\ calls w1 = [GetItem TodoStorage.STORAGE_KEY])
  /\ (exists x w2 stored,
        TodoStorage.addItems E0 (VArr [VStr (lit " eggs ")]) (world_ex (doc_ex two_items) [])
        = (Ret [x], w2)
        /\ Created (lit "eggs") x
        /\ localStorage w2 !! TodoStorage.STORAGE_KEY = Some (Json stored)
        /\ items_of stored = two_items ++ [x])
  /\ TodoStorage.addItems E0 (VStr (lit "a,b")) (world_ex (doc_ex two_items) [])
     = (Ret [], world_ex (doc_ex two_items) []).
Proof.
  destruct (addItems_batch E0) as (Hgen & Hna & _).
  split; [|split].
  - destruct (Hgen [VStr (lit "  "); VNum 3] (world_ex (doc_ex two_items) []))
      as (d & w1 & news & t & Hload & HF & Hnone & _).
    destruct Hnone as (Hadd & _ & Hcalls); [reflexivity|].
    eexists. split; [exact Hadd | exact Hcalls].
  - destruct (Hgen [VStr (lit " eggs ")] (world_ex (doc_ex two_items) []))
      as (d & w1 & news & t & Hload & HF & _ & Hsome).
    change (valid_texts [VStr (lit " eggs ")]) with [lit "eggs"] in *.
    inversion HF as [|s1 x ss1 news1 Hx HF1]; subst.
    inversion HF1; subst.
    destruct Hsome as [_ Hserved]; [discriminate|].
    vm_compute in Hload. injection Hload as <- <-.
    destruct Hserved as (w2 & stored & Hadd & Hls & Hitems & _); [reflexivity|].
    exists x, w2, stored. split; [exact Hadd|]. split; [exact Hx|]. split.
    + rewrite Hls. apply lookup_insert_eq.
    + rewrite Hitems. reflexivity.
  - apply Hna. discriminate.
Defined.

(** ** Totality *)

Section Totality.

Variable E : engine.

Lemma validateItem_total item : total (TodoStorage.validateItem E item).
Proof.
  intros w. destruct (validateItem_Validated E item w) as (v & t & H & _).
  eexists _, _. exact H.
Qed.

Lemma load_total : total (TodoStorage.load E).
Proof.
  intros w. destruct (load_Loaded E w) as (d & t & H & _). eexists _, _. exact H.
Qed.

Lemma addItem_total text : total (TodoStorage.addItem E text).
Proof.
  intros w. unfold TodoStorage.addItem.
  destruct (negb (truthy (VStr (InputProcessor.sanitizeItem text)))); [now eexists _, _|].
  destruct (load_Loaded E w) as (d & t & Hload & HL).
  destruct (Loaded_shape w d HL) as (ps & l & -> & Hitems & _ & _).
  rewrite (bind_Ret _ _ _ _ _ Hload).
  destruct (newItem_of_eq E (InputProcessor.sanitizeItem text)
              (set_tick t (after_call (GetItem TodoStorage.STORAGE_KEY) w)))
    as (item & Hnew & _).
  rewrite (bind_Ret _ _ _ _ _ Hnew).
  rewrite (bind_Ret _ _ _ _ _ (push_item_eq ps l item _ Hitems)).
  match goal with
  | |- context [bind (TodoStorage.save E ?d') _ ?w'] =>
      destruct (save_total E d' w') as (ok & w2 & Hsave)
  end.
  rewrite (bind_Ret _ _ _ _ _ Hsave).
  destruct ok; now eexists _, _.
Qed.

Lemma addItems_total textArray : total (TodoStorage.addItems E textArray).
Proof.
  intros w. destruct textArray as [| |b|n|s|texts|ps]; try (now eexists _, _).
  destruct (load_Loaded E w) as (d & t & Hload & _).
  destruct (addItems_eq E texts w d _ Hload) as (news & t' & _ & ->).
  destruct news; now eexists _, _.
Qed.

Lemma nth_error_nth_default (l : list value) i x :
  nth_error l i = Some x -> nth i l VUndef = x.
Proof. intros H. now apply nth_error_nth. Qed.

Lemma updateItem_found id updates w d w1 idx cur :
  TodoStorage.load E w = (Ret d, w1) ->
  find_index (has_id id) (items_of d) = Some idx ->
  nth_error (items_of d) idx = Some cur ->
  TodoStorage.updateItem E id updates w
  = if nullish updates then (Throw TypeError, w1)
    else (let* v := TodoStorage.validateItem E (updated_record id updates cur) in
          let* ok := TodoStorage.save E (with_items d (<[idx := v]> (items_of d))) in
          ret (if ok then v else VNull)) w1.
Proof.
  intros Hload Hfind Hnth.
  destruct (load_world E w d w1 Hload) as [HL _].
  destruct (Loaded_shape w d HL) as (ps & l & -> & Hitems & Hl & HI).
  rewrite Hl in *.
  assert (nullish cur = false) as Hcur.
  { apply Item_not_nullish. apply (proj1 (List.Forall_forall _ _) HI).
    now apply nth_error_In in Hnth. }
  unfold TodoStorage.updateItem.
  rewrite (bind_Ret _ _ _ _ _ Hload).
  rewrite (bind_Ret _ _ _ _ _ (member_own ps _ _ w1 Hitems)).
  rewrite (bind_Ret _ _ _ _ _ (findIndexM_eq id l w1 (Items_not_nullish l HI))).
  rewrite Hfind. rewrite (nth_error_nth_default l idx cur Hnth).
  destruct (nullish updates) eqn:Hnu.
  - destruct updates; try discriminate; reflexivity.
  - rewrite (bind_Ret _ _ _ _ _ (member_object_like updates _ w1 Hnu)).
    assert ((if truthy (get_prop updates (lit "text"))
             then ret (VStr (InputProcessor.sanitizeItem (get_prop updates (lit "text"))))
             else member cur (lit "text")) w1
            = (Ret (if truthy (get_prop updates (lit "text"))
                    then VStr (InputProcessor.sanitizeItem (get_prop updates (lit "text")))
                    else text_of cur), w1)) as Htext.
    { destruct (truthy (get_prop updates (lit "text"))); [reflexivity|].
      apply member_object_like, Hcur. }
    rewrite (bind_Ret _ _ _ _ _ Htext).
    fold (updated_record id updates cur).
    apply bind_ext. intros v w2.
    cbn [set_member with_items]. rewrite bind_ret_l.
    apply bind_ext. intros ok w3. now destruct ok.
Qed.

Lemma updateItem_total id updates :
  nullish updates = false -> total (TodoStorage.updateItem E id updates).
Proof.
  intros Hnu w.
  destruct (load_Loaded E w) as (d & t & Hload & HL).
  destruct (find_index (has_id id) (items_of d)) as [idx|] eqn:Hfind.
  - destruct (find_index_Some _ _ _ Hfind) as (cur & Hnth & _ & _).
    rewrite (updateItem_found id updates w d _ idx cur Hload Hfind Hnth), Hnu.
    destruct (validateItem_total (updated_record id updates cur)
                (set_tick t (after_call (GetItem TodoStorage.STORAGE_KEY) w)))
      as (v & w2 & Hv).
    rewrite (bind_Ret _ _ _ _ _ Hv).
    destruct (save_total E (with_items d (<[idx := v]> (items_of d))) w2)
      as (ok & w3 & Hs).
    rewrite (bind_Ret _ _ _ _ _ Hs). now eexists _, _.
  - apply find_index_None in Hfind.
    rewrite (updateItem_not_found E id updates w d _ Hload Hfind). now eexists _, _.
Qed.

Lemma deleteItem_total id : total (TodoStorage.deleteItem E id).
Proof.
  intros w. destruct (load_Loaded E w) as (d & t & Hload & _).
  rewrite (deleteItem_eq E id w d _ Hload).
  destruct (_ <? _)%nat; [apply save_total | now eexists _, _].
Qed.

Lemma clearAll_total : total (TodoStorage.clearAll E).
Proof.
  apply total_bind; [|apply save_total].
  intros w. rewrite getDefaultData_eq. now eexists _, _.
Qed.

Lemma exportData_total : total (TodoStorage.exportData E).
Proof. apply total_bind; [apply load_total | intros d; apply total_ret]. Qed.

Lemma importData_total jsonString : total (TodoStorage.importData E jsonString).
Proof. apply try_catch_total. intros e. apply total_ret. Qed.

Lemma isStorageAvailable_total : total TodoStorage.isStorageAvailable.
Proof. apply try_catch_total. intros e. apply total_ret. Qed.

Lemma find_index_Exists p l :
  Exists (fun x => p x = true) l -> exists i, find_index p l = Some i.
Proof.
  intros H. destruct (find_index p l) as [i|] eqn:Hf; [now exists i|].
  apply find_index_None in Hf. apply List.Exists_exists in H as (x & Hx & Hp).
  apply (proj1 (List.Forall_forall _ _) Hf) in Hx. congruence.
Qed.

(** Every public operation of the core returns a result in every world
    and for every argument, whatever the backend does, except that
    updateItem needs its updates to be neither undefined nor null: with
    such updates it still returns null for an id that no record has, and
    throws a TypeError to its caller for an id that some record has. *)
Theorem core_operations_total :
  total (TodoStorage.load E)
  /\ (forall data, total (TodoStorage.save E data))
  /\ (forall item, total (TodoStorage.validateItem E item))
  /\ (forall text, total (TodoStorage.addItem E text))
  /\ (forall textArray, total (TodoStorage.addItems E textArray))
  /\ (forall id updates,
        nullish updates = false -> total (TodoStorage.updateItem E id updates))
  /\ (forall id, total (TodoStorage.deleteItem E id))
  /\ total (TodoStorage.clearAll E)
  /\ total (TodoStorage.exportData E)
  /\ (forall jsonString, total (TodoStorage.importData E jsonString))
  /\ total TodoStorage.isStorageAvailable
  /\ (forall id updates w d w1,
        nullish updates = true ->
        TodoStorage.load E w = (Ret d, w1) ->
        (Forall (fun item => has_id id item = false) (items_of d) ->
         TodoStorage.updateItem E id updates w = (Ret VNull, w1))
        /\ (Exists (fun item => has_id id item = true) (items_of d) ->
            TodoStorage.updateItem E id updates w = (Throw TypeError, w1))).
Proof.
  split; [apply load_total|]. split; [apply save_total|].
  split; [apply validateItem_total|]. split; [apply addItem_total|].
  split; [apply addItems_total|]. split; [apply updateItem_total|].
  split; [apply deleteItem_total|]. split; [apply clearAll_total|].
  split; [apply exportData_total|]. split; [apply importData_total|].
  split; [apply isStorageAvailable_total|].
  intros id updates w d w1 Hnu Hload. split.
  - now apply updateItem_not_found.
  - intros Hex. destruct (find_index_Exists _ _ Hex) as (idx & Hfind).
    destruct (find_index_Some _ _ _ Hfind) as (cur & Hnth & _ & _).
    now rewrite (updateItem_found id updates w d w1 idx cur Hload Hfind Hnth), Hnu.
Qed.

End Totality.

Lemma core_operations_total_witness :
  (exists v w1,
     TodoStorage.updateItem E0 (VStr (lit "a")) (VObj [(lit "completed", VBool true)])
       (world_ex (doc_ex two_items) [Some QuotaExceededError]) = (Ret v, w1))
  /\ (exists w1,
        TodoStorage.updateItem E0 (VStr (lit "zz")) VUndef (world_ex (doc_ex two_items) [])
        = (Ret VNull, w1)).
Proof.
  destruct (core_operations_total E0)
    as (_ & _ & _ & _ & _ & Hupd & _ & _ & _ & _ & _ & Hnull).
  split.
  - apply Hupd. reflexivity.
  - destruct (TodoStorage.load E0 (world_ex (doc_ex two_items) [])) as [[d|e] w1] eqn:Hload;
      [|vm_compute in Hload; discriminate].
    exists w1. destruct (Hnull (VStr (lit "zz")) VUndef _ d w1 eq_refl Hload) as [Habs _].
    apply Habs. vm_compute in Hload. injection Hload as <- <-.
    vm_compute. repeat constructor.
Defined.

(** C4.  Not every operation returns for every input: on a collection
    that holds a record with id "a", updateItem with null updates, or
    with undefined ones (the argument left out), throws a TypeError to
    its caller. *)
Lemma updateItem_null_updates_throws :
  (exists w1,
     TodoStorage.updateItem E0 (VStr (lit "a")) VNull (world_ex (doc_ex two_items) [])
     = (Throw TypeError, w1))
  /\ (exists w1,
        TodoStorage.updateItem E0 (VStr (lit "a")) VUndef (world_ex (doc_ex two_items) [])
        = (Throw TypeError, w1)).
Proof. split; eexists; vm_compute; reflexivity. Qed.

(** ** Updating a record *)

Lemma is_ws_space : is_ws 32 = true.
Proof. reflexivity. Qed.

Lemma replace_ws_runs_flat s :
  flat (replace_ws_runs false s) = true
  /\ flat (replace_ws_runs true s) = true
  /\ (forall c r, replace_ws_runs true s = c :: r -> is_ws c = false).
Proof.
  induction s as [|c s (IHf & IHt & IHh)]; simpl.
  - repeat split; discriminate.
  - destruct (is_ws c) eqn:Hc.
    + split; [|split; assumption].
      cbn [flat]. rewrite is_ws_space, IHt. cbn [N.eqb Pos.eqb andb].
      destruct (replace_ws_runs true s) as [|c' r'] eqn:Hr; [reflexivity|].
      now rewrite (IHh c' r' eq_refl).
    + assert (flat (c :: replace_ws_runs false s) = true) as Hflat.
      { cbn [flat]. now rewrite Hc, IHf. }
      split; [assumption|]. split; [assumption|].
      intros c' r' [= <- <-]. assumption.
Qed.

Lemma flat_firstn n s : flat s = true -> flat (firstn n s) = true.
Proof.
  revert s. induction n as [|n IH]; intros [|c s]; simpl; try reflexivity.
  intros H. apply andb_true_iff in H as [Hc Hs].
  rewrite (IH s Hs), andb_true_r.
  destruct (is_ws c); [|reflexivity].
  apply andb_true_iff in Hc as [-> Hnext]. simpl.
  destruct n; [reflexivity|]. destruct s; [reflexivity|]. exact Hnext.
Qed.

Lemma flat_replace_ws_runs s : flat s = true -> replace_ws_runs false s = s.
Proof.
  induction s as [|c s IH]; simpl; [reflexivity|].
  intros H. apply andb_true_iff in H as [Hc Hs].
  destruct (is_ws c) eqn:Hws.
  - apply andb_true_iff in Hc as [Hsp Hnext]. apply N.eqb_eq in Hsp as ->.
    f_equal. rewrite replace_ws_runs_true.
    destruct s as [|c' s']; [reflexivity|].
    simpl in Hnext. apply negb_true_iff in Hnext.
    cbn [trimStart]. rewrite Hnext. now apply IH.
  - f_equal. now apply IH.
Qed.

Lemma replace_ws_runs_head s c r :
  replace_ws_runs false s = c :: r ->
  (forall c' r', s = c' :: r' -> is_ws c' = false) -> is_ws c = false.
Proof.
  destruct s as [|c0 s0]; simpl; [discriminate|].
  intros H Hhd. pose proof (Hhd c0 s0 eq_refl) as Hc0. rewrite Hc0 in H.
  now injection H as <- _.
Qed.

Lemma sanitizeItem_cases raw :
  InputProcessor.sanitizeItem raw = []
  \/ exists s0, InputProcessor.sanitizeItem raw
                = slice0 200 (replace_ws_runs false (trim s0)).
Proof.
  destruct raw as [| |b|n|s0|l|ps];
    try (left; unfold InputProcessor.sanitizeItem; cbn [typeof jstype_eqb negb];
         now rewrite ?orb_true_r).
  right. exists s0. apply sanitizeItem_string.
Qed.

(** A sanitized text that does not end with whitespace is left alone by
    a second sanitization. *)
Lemma sanitizeItem_again raw :
  let s := InputProcessor.sanitizeItem raw in
  (forall c r, s = r ++ [c] -> is_ws c = false) ->
  InputProcessor.sanitizeItem (VStr s) = s.
Proof.
  intros s Hlast. rewrite sanitizeItem_string.
  assert (flat s = true /\ (forall c r, s = c :: r -> is_ws c = false)
          /\ (length s <= 200)%nat) as (Hflat & Hhead & Hlen).
  { subst s. split; [|split; [|apply sanitizeItem_length]].
    - destruct (sanitizeItem_cases raw) as [-> | (s0 & ->)]; [reflexivity|].
      apply flat_firstn, replace_ws_runs_flat.
    - destruct (sanitizeItem_cases raw) as [-> | (s0 & ->)]; [discriminate|].
      unfold slice0. intros c r Hs.
      destruct (replace_ws_runs false (trim s0)) as [|c1 r1] eqn:Hr; [discriminate|].
      simpl in Hs. injection Hs as <- _.
      apply (replace_ws_runs_head _ _ _ Hr).
      destruct (Trimmed_trim s0) as (pre & post & _ & _ & _ & Hh & _).
      intros c' r' Ht. specialize (Hh c' r' Ht). unfold whitespace in Hh.
      now destruct (is_ws c'). }
  assert (trim s = s) as ->.
  { symmetry. apply Trimmed_unique. exists [], []. rewrite app_nil_r.
    split; [reflexivity|]. split; [constructor|]. split; [constructor|]. split.
    - intros c r Hs. unfold whitespace. rewrite (Hhead c r Hs). discriminate.
    - intros c r Hs. unfold whitespace. rewrite (Hlast c r Hs). discriminate. }
  rewrite (flat_replace_ws_runs s Hflat). unfold slice0. now apply firstn_all2.
Qed.

Lemma strict_eq_true a b : strict_eq a b = true -> a = b.
Proof.
  destruct a, b; simpl; try discriminate; try reflexivity; intros H.
  - f_equal. now apply Bool.eqb_prop.
  - f_equal. now apply Z.eqb_eq.
  - f_equal. now apply jsstring_eqb_eq.
Qed.

Section Updating.

Variable E : engine.

Lemma updated_record_fields id updates cur :
  truthy (get_prop updates (lit "text")) = false ->
  id_of (updated_record id updates cur) = id
  /\ text_of (updated_record id updates cur) = text_of cur
  /\ completed_of (updated_record id updates cur)
     = completed_of (merged_record updates cur)
  /\ createdAt_of (updated_record id updates cur)
     = createdAt_of (merged_record updates cur).
Proof.
  intros Hfalsy. unfold updated_record, merged_record. rewrite Hfalsy.
  unfold id_of, text_of, completed_of, createdAt_of.
  repeat split.
  - apply get_prop_own. rewrite get_own_set_prop_ne by discriminate.
    apply get_own_set_prop.
  - apply get_prop_own, get_own_set_prop.
  - cbn [get_prop]. now rewrite !get_own_set_prop_ne by discriminate.
  - cbn [get_prop]. now rewrite !get_own_set_prop_ne by discriminate.
Qed.

(** C10 (amended).  For updates that are neither undefined nor null and
    whose text is falsy, and an id that a record of the loaded collection
    has, updateItem replaces the first such record by a record with the
    same id, with the text of the record sanitized once more (the same
    text whenever it does not end with whitespace), and with the
    completed flag and the creation time of the merge of the updates over
    the record (validation fills in a missing creation time); it saves
    the collection once and returns the new record, or null when the save
    fails. *)
Theorem updateItem_falsy_text (id updates : value) (w w1 : world) (d : value) (idx : nat) :
  TodoStorage.load E w = (Ret d, w1) ->
  find_index (has_id id) (items_of d) = Some idx ->
  nullish updates = false ->
  truthy (get_prop updates (lit "text")) = false ->
  exists cur v t ok w2,
    nth_error (items_of d) idx = Some cur
    /\ has_id id cur = true
    /\ TodoStorage.save E (with_items d (<[idx := v]> (items_of d))) (set_tick t w1)
       = (Ret ok, w2)
    /\ TodoStorage.updateItem E id updates w = (Ret (if ok then v else VNull), w2)
    /\ Item v
    /\ text_of v = VStr (InputProcessor.sanitizeItem (text_of cur))
    /\ (forall s, text_of cur = VStr s ->
                  (forall c r, s = r ++ [c] -> is_ws c = false) ->
                  text_of v = text_of cur)
    /\ id_of v = id
    /\ completed_of v = VBool (truthy (completed_of (merged_record updates cur)))
    /\ (truthy (createdAt_of (merged_record updates cur)) = true ->
        createdAt_of v = createdAt_of (merged_record updates cur)).
Proof.
  intros Hload Hfind Hnu Hfalsy.
  destruct (find_index_Some _ _ _ Hfind) as (cur & Hnth & Hid & _).
  destruct (load_world E w d w1 Hload) as [HL _].
  destruct (Loaded_shape w d HL) as (ps & l & -> & Hitems & Hl & HI).
  assert (Item cur) as (id0 & raw & c & ca & -> & Hid0 & Hca0).
  { apply (proj1 (List.Forall_forall _ _) HI). rewrite <- Hl.
    now apply nth_error_In in Hnth. }
  assert (id0 = id) as ->.
  { apply strict_eq_true. exact Hid. }
  set (cur := TodoStorage.mkItem id (VStr (InputProcessor.sanitizeItem raw)) (VBool c) ca) in *.
  destruct (updated_record_fields id updates cur Hfalsy) as (Hrid & Hrtext & Hrc & Hrca).
  destruct (validateItem_Validated E (updated_record id updates cur) w1)
    as (v & t & Hv & HV).
  destruct (save_total E (with_items (VObj ps) (<[idx := v]> (items_of (VObj ps))))
              (set_tick t w1)) as (ok & w2 & Hsave).
  exists cur, v, t, ok, w2.
  split; [exact Hnth|]. split; [exact Hid|]. split; [exact Hsave|]. split.
  { rewrite (updateItem_found E id updates w _ w1 idx cur Hload Hfind Hnth), Hnu.
    rewrite (bind_Ret _ _ _ _ _ Hv), (bind_Ret _ _ _ _ _ Hsave). reflexivity. }
  destruct HV as [Hobj | id' ca' _ Hid' Hkeep Hca Hcann]; [discriminate|].
  rewrite Hrid, Hrtext, Hrc, Hrca in *.
  specialize (Hkeep Hid0). subst id'.
  split; [eexists _, _, _, _; split; [reflexivity | now split]|].
  split; [reflexivity|]. split.
  { intros s Hs Hlast. change (text_of cur) with (VStr (InputProcessor.sanitizeItem raw)) in *.
    injection Hs as <-. cbn [text_of TodoStorage.mkItem get_prop get_own].
    change (text_of (TodoStorage.mkItem id
              (VStr (InputProcessor.sanitizeItem (VStr (InputProcessor.sanitizeItem raw))))
              (VBool (truthy (completed_of (merged_record updates cur)))) ca'))
      with (VStr (InputProcessor.sanitizeItem (VStr (InputProcessor.sanitizeItem raw)))).
    now rewrite sanitizeItem_again. }
  split; [reflexivity|]. split; [reflexivity|].
  intros Ht. now rewrite (Hca Ht).
Qed.

End Updating.

Lemma updateItem_falsy_text_witness :
  exists v w2,
    TodoStorage.updateItem E0 (VStr (lit "a"))
      (VObj [(lit "text", VStr []); (lit "completed", VBool true)])
      (world_ex (doc_ex two_items) []) = (Ret v, w2)
    /\ text_of v = VStr (lit "milk")
    /\ completed_of v = VBool true
    /\ id_of v = VStr (lit "a").
Proof.
  destruct (TodoStorage.load E0 (world_ex (doc_ex two_items) [])) as [[d|e] w1] eqn:Hload;
    [|vm_compute in Hload; discriminate].
  assert (items_of d = two_items /\ next_fault w1 = None) as [Hd Hw1].
  { vm_compute in Hload. injection Hload as <- <-. split; reflexivity. }
  destruct (updateItem_falsy_text E0 (VStr (lit "a"))
              (VObj [(lit "text", VStr []); (lit "completed", VBool true)])
              (world_ex (doc_ex two_items) []) w1 d 0 Hload)
    as (cur & v & t & ok & w2 & Hnth & _ & Hsave & Hupd & _ & Htext & _ & Hid & Hc & _).
  - rewrite Hd. reflexivity.
  - reflexivity.
  - reflexivity.
  - rewrite Hd in Hnth. injection Hnth as <-.
    destruct (load_world E0 _ d w1 Hload) as [HL _].
    destruct (Loaded_shape _ d HL) as (ps & l & -> & _ & _ & _).
    cbn [with_items] in Hsave.
    rewrite save_served in Hsave; [|apply saveable_with_items|exact Hw1].
    injection Hsave as <- <-.
    eexists _, _. split; [exact Hupd|]. split; [exact Htext|]. split; [exact Hc | exact Hid].
Defined.

(** Counterexample to C10 as stated.  A stored record whose text is 199
    letters, a space and a letter: load reports 199 letters and a space,
    and updateItem with an empty text leaves the 199 letters, which is
    neither.  Such a text of 199 letters and a space is also what addItem
    stores for that input, and updateItem then rewrites it. *)
Lemma updateItem_falsy_text_changes_text :
  (exists d w1 cur v w2,
     TodoStorage.load E0 (world_ex (doc_ex [long_item]) []) = (Ret d, w1)
     /\ items_of d = [cur]
     /\ text_of cur = VStr (repeat 97 199 ++ [32])
     /\ TodoStorage.updateItem E0 (VStr (lit "x")) (VObj [(lit "text", VStr [])])
          (world_ex (doc_ex [long_item]) []) = (Ret v, w2)
     /\ text_of v = VStr (repeat 97 199)
     /\ text_of v <> text_of long_item
     /\ text_of v <> text_of cur)
  /\ (exists item w1 stored v w2 stored',
        TodoStorage.addItem E0 (VStr long_text) (World ∅ [] [] 0) = (Ret item, w1)
        /\ localStorage w1 !! TodoStorage.STORAGE_KEY = Some (Json stored)
        /\ List.map text_of (items_of stored) = [VStr (repeat 97 199 ++ [32])]
        /\ TodoStorage.updateItem E0 (id_of item) (VObj [(lit "text", VStr [])]) w1
           = (Ret v, w2)
        /\ localStorage w2 !! TodoStorage.STORAGE_KEY = Some (Json stored')
        /\ List.map text_of (items_of stored') = [VStr (repeat 97 199)]).
Proof.
  split.
  - do 5 eexists. split; [vm_compute; reflexivity|].
    split; [reflexivity|]. split; [vm_compute; reflexivity|].
    split; [vm_compute; reflexivity|].
    split; [vm_compute; reflexivity|].
    split; vm_compute; discriminate.
  - do 6 eexists. split; [vm_compute; reflexivity|].
    split; [vm_compute; reflexivity|]. split; [vm_compute; reflexivity|].
    split; [vm_compute; reflexivity|].
    split; vm_compute; reflexivity.
Qed.

(** ** Export and import *)

Section RoundTrip.

Variable E : engine.

Lemma valid_item_Validated v v' : valid_item v -> Validated v v' -> v' = canon v.
Proof.
  intros (Hobj & (id & Hid & Hidne) & (text & Htext & Htne & Hsan) & (c & Hc)
          & (ca & Hca & Hcane)) HV.
  destruct HV as [Hn | id' ca' _ Hid' Hkeep Hkeepca]; [congruence|].
  unfold canon. rewrite Htext, Hc. cbn [truthy].
  rewrite (proj2 (Sanitized_sanitizeItem text text) Hsan).
  rewrite Hkeep, Hkeepca; [reflexivity | |].
  - rewrite Hca. now destruct ca.
  - rewrite Hid. now destruct id.
Qed.

Lemma valid_item_canon v :
  valid_item v ->
  valid_item (canon v) /\ clean_elem (canon v) = canon v /\ truthy (canon v) = true.
Proof.
  intros (Hobj & (id & Hid & Hidne) & (text & Htext & Htne & Hsan) & (c & Hc)
          & (ca & Hca & Hcane)).
  unfold canon. rewrite Hid, Htext, Hc, Hca. split; [|split; reflexivity].
  split; [reflexivity|]. split; [now exists id|]. split; [now exists text|].
  split; [now exists c | now exists ca].
Qed.

Lemma valid_items_Validated items vs :
  Forall valid_item items -> Forall2 Validated items vs -> vs = List.map canon items.
Proof.
  intros Hv HV. induction HV as [|v v' items vs HV1 _ IH]; [reflexivity|].
  inversion Hv; subst. simpl. f_equal; [now apply valid_item_Validated | now apply IH].
Qed.

Lemma valid_items_canon items :
  Forall valid_item items ->
  Forall valid_item (List.map canon items)
  /\ List.map clean_elem (List.map canon items) = List.map canon items
  /\ List.filter truthy (List.map canon items) = List.map canon items.
Proof.
  induction 1 as [|v items Hv _ (IH1 & IH2 & IH3)]; cbn [List.map List.filter].
  - repeat split; constructor.
  - destruct (valid_item_canon v Hv) as (Hvc & Hclean & Htruthy).
    split; [now constructor|]. split.
    + now rewrite Hclean, IH2.
    + now rewrite Htruthy, IH3.
Qed.

Lemma canon_same_fields items :
  Forall2 same_fields items (List.map canon items).
Proof.
  induction items as [|v items IH]; simpl; constructor; [|assumption].
  repeat split.
Qed.

(** Loading a store that holds a valid collection. *)
Lemma load_valid w ps items :
  localStorage w !! TodoStorage.STORAGE_KEY = Some (Json (VObj ps)) ->
  get_own (lit "items") ps = Some (VArr items) ->
  Forall valid_item items ->
  next_fault w = None ->
  exists now t,
    TodoStorage.load E w
    = (Ret (merged_doc now (VObj ps) (List.map canon items)),
       set_tick t (after_call (GetItem TodoStorage.STORAGE_KEY) w)).
Proof.
  intros Hls Hitems Hvalid Hserved.
  destruct (load_Loaded E w) as (d & t & Hload & HL).
  unfold Loaded, readable in HL. rewrite Hserved, Hls in HL. cbn [truthy] in HL.
  rewrite (get_prop_own _ _ _ Hitems) in HL.
  destruct HL as (now & vs & HV & ->).
  rewrite (valid_items_Validated items vs Hvalid HV) in Hload.
  destruct (valid_items_canon items Hvalid) as (_ & _ & Hfilter).
  rewrite Hfilter in Hload. now exists now, t.
Qed.

Lemma merged_doc_keys now doc l :
  exists ps, merged_doc now doc l = VObj ps
             /\ List.NoDup (keys ps)
             /\ get_own (lit "items") ps = Some (VArr l).
Proof.
  eexists. split; [reflexivity|]. split.
  - apply NoDup_set_prop, NoDup_spread, NoDup_spread. constructor.
  - apply get_own_set_prop.
Qed.

Lemma importData_valid ps items w :
  get_own (lit "items") ps = Some (VArr items) ->
  Forall valid_item items ->
  next_fault w = None ->
  exists w' ps',
    TodoStorage.importData E (Json (VObj ps)) w = (Ret true, w')
    /\ localStorage w' = <[TodoStorage.STORAGE_KEY := Json (VObj ps')]> (localStorage w)
    /\ get_own (lit "items") ps' = Some (VArr (List.map canon items))
    /\ faults w' = tl (faults w).
Proof.
  intros Hitems Hvalid Hserved.
  unfold TodoStorage.importData, try_catch.
  cbn [JSON_parse]. rewrite bind_ret_l. cbn [truthy negb].
  rewrite (bind_Ret _ _ _ _ _ (member_own ps _ _ w Hitems)).
  destruct (merge_validated_eq E (VObj ps) items w) as (now & vs & t & Hm & HV).
  rewrite (bind_Ret _ _ _ _ _ Hm).
  rewrite (valid_items_Validated items vs Hvalid HV).
  destruct (valid_items_canon items Hvalid) as (_ & Hclean & Hfilter).
  rewrite Hfilter.
  destruct (merged_doc_keys now (VObj ps) (List.map canon items)) as (mps & -> & Hnd & Hmi).
  rewrite save_served; [| |exact Hserved].
  - destruct (get_own_items_saved (Date_toISOString E (tick (set_tick t w))) mps _ Hnd Hmi)
      as (ps' & Hps' & Hget).
    unfold saved_text. rewrite Hps'. rewrite Hclean in Hget.
    eexists _, ps'. split; [reflexivity|]. split; [reflexivity|].
    split; [exact Hget | reflexivity].
  - unfold saveable. cbn [truthy andb]. now rewrite (get_prop_own _ _ _ Hmi).
Qed.

(** C6.  Round trip.  From a store that holds a valid collection document
    and a backend that serves the read, exportData returns a text which
    importData, applied to any store (a fresh one in particular) whose
    backend serves the write, accepts; the store then holds a document
    whose items have, one by one and in order, the id, text, completed
    flag and creation time of the original items, and load returns such
    items from it. *)
Theorem export_import_round_trip (w : world) (ps : props) (items : list value) :
  localStorage w !! TodoStorage.STORAGE_KEY = Some (Json (VObj ps)) ->
  get_own (lit "items") ps = Some (VArr items) ->
  Forall valid_item items ->
  next_fault w = None ->
  exists t w1,
    TodoStorage.exportData E w = (Ret t, w1)
    /\ forall w0,
         next_fault w0 = None ->
         exists w2 doc',
           TodoStorage.importData E t w0 = (Ret true, w2)
           /\ localStorage w2 = <[TodoStorage.STORAGE_KEY := Json doc']> (localStorage w0)
           /\ Forall2 same_fields items (items_of doc')
           /\ (next_fault w2 = None ->
               exists d w3, TodoStorage.load E w2 = (Ret d, w3)
                            /\ Forall2 same_fields items (items_of d)).
Proof.
  intros Hls Hitems Hvalid Hserved.
  destruct (load_valid w ps items Hls Hitems Hvalid Hserved) as (now & t & Hload).
  destruct (valid_items_canon items Hvalid) as (Hvalid' & Hclean & _).
  destruct (merged_doc_keys now (VObj ps) (List.map canon items))
    as (mps & Hmps & Hnd & Hmi).
  rewrite Hmps in Hload.
  assert (get_own (lit "items") (clean_props mps) = Some (VArr (List.map canon items)))
    as Hexp.
  { rewrite (get_own_clean_props _ _ _ Hmi); [|discriminate].
    rewrite json_clean_VArr. now rewrite Hclean. }
  exists (Json (VObj (clean_props mps))), (set_tick t (after_call (GetItem TodoStorage.STORAGE_KEY) w)).
  split.
  { unfold TodoStorage.exportData. now rewrite (bind_Ret _ _ _ _ _ Hload). }
  intros w0 Hserved0.
  destruct (importData_valid (clean_props mps) (List.map canon items) w0
              Hexp Hvalid' Hserved0) as (w2 & ps' & Himp & Hls2 & Hget & _).
  assert (List.map canon (List.map canon items) = List.map canon items) as Hidem.
  { rewrite List.map_map. apply List.map_ext. reflexivity. }
  rewrite Hidem in Hget.
  exists w2, (VObj ps'). split; [exact Himp|]. split; [exact Hls2|]. split.
  { unfold items_of. rewrite (get_prop_own _ _ _ Hget). apply canon_same_fields. }
  intros Hserved2.
  destruct (load_valid w2 ps' (List.map canon items)) as (now2 & t2 & Hload2);
    [rewrite Hls2; apply lookup_insert_eq | exact Hget | exact Hvalid' | exact Hserved2 |].
  eexists _, _. split; [exact Hload2|].
  rewrite items_of_merged_doc, Hidem. apply canon_same_fields.
Qed.

End RoundTrip.

Lemma export_import_round_trip_witness :
  exists t w1,
    TodoStorage.exportData E0 (world_ex (doc_ex [item_ex "a" "milk" (VStr (lit "2024-04-30T09:00:00.000Z"))]) [])
    = (Ret t, w1)
    /\ exists w2 doc',
         TodoStorage.importData E0 t (World ∅ [] [] 0) = (Ret true, w2)
         /\ localStorage w2 = {[ TodoStorage.STORAGE_KEY := Json doc' ]}
         /\ Forall2 same_fields
              [item_ex "a" "milk" (VStr (lit "2024-04-30T09:00:00.000Z"))]
              (items_of doc').
Proof.
  destruct (export_import_round_trip E0
              (world_ex (doc_ex [item_ex "a" "milk" (VStr (lit "2024-04-30T09:00:00.000Z"))]) [])
              (doc_ex_props [item_ex "a" "milk" (VStr (lit "2024-04-30T09:00:00.000Z"))])
              [item_ex "a" "milk" (VStr (lit "2024-04-30T09:00:00.000Z"))])
    as (t & w1 & Hexp & Himp).
  - apply lookup_singleton_eq.
  - reflexivity.
  - constructor; [|constructor].
    split; [reflexivity|]. split; [eexists; split; [reflexivity | discriminate]|].
    split; [|split].
    + eexists. split; [reflexivity|]. split; [discriminate|].
      apply Sanitized_sanitizeItem. reflexivity.
    + eexists. reflexivity.
    + eexists. split; [reflexivity | discriminate].
  - reflexivity.
  - exists t, w1. split; [exact Hexp|].
    destruct (Himp (World ∅ [] [] 0) eq_refl) as (w2 & doc' & Hi & Hls & Hsame & _).
    exists w2, doc'. split; [exact Hi|]. split; [rewrite Hls; apply insert_empty|].
    exact Hsame.
Defined.

(** ** Quota recovery *)

Section Quota.

Variable E : engine.










End Quota.

Lemma Forall2_length_eq {A B} (R : A -> B -> Prop) l l' :
  Forall2 R l l' -> length l = length l'.
Proof. induction 1; simpl; congruence. Qed.


(** The simulation of the design document: 120 records created at the
    times 1 to 120, a save refused for quota, a backend that serves the
    recovery: the store ends up with the 50 records created at 120 down
    to 71. *)
Lemma quota_recovery_120 :
  exists w' doc,
    TodoStorage.save E0 (doc_ex [])
      (world_ex (doc_ex (many_items 120)) [Some QuotaExceededError]) = (Ret false, w')
    /\ localStorage w' !! TodoStorage.STORAGE_KEY = Some (Json doc)
    /\ List.map createdAt_of (items_of doc)
       = List.map (fun i => VNum (Z.of_nat i)) (rev (seq 71 50)).
Proof.
  do 2 eexists. split; [vm_compute; reflexivity|].
  split; vm_compute; reflexivity.
Qed.


(** ** The records of the documents produced and persisted *)

Section Records.

Variable E : engine.





Lemma json_clean_truthy v : truthy (json_clean v) = truthy v.
Proof. now destruct v. Qed.










End Records.

Section Operations.

Variable E : engine.

Lemma Created_Item raw item : Created (InputProcessor.sanitizeItem raw) item -> Item item.
Proof.
  intros (id & ca & -> & Hid). exists (VStr id), raw, false, (VStr ca). now repeat split.
Qed.

Lemma valid_texts_Created texts news :
  Forall2 Created (valid_texts texts) news ->
  Forall Item news /\ Forall (fun item => exists s, s <> [] /\ Created s item) news.
Proof.
  unfold valid_texts. revert news.
  induction texts as [|x texts IH]; intros news; cbn [List.map List.filter].
  - intros H. inversion H. split; constructor.
  - destruct (negb (jsstring_eqb (InputProcessor.sanitizeItem x) [])) eqn:Hne.
    + intros H. inversion H as [|s item ss news' Hc HF]; subst.
      destruct (IH news' HF) as [HI HC]. split; constructor; auto.
      * now apply (Created_Item x).
      * exists (InputProcessor.sanitizeItem x). split; [|assumption].
        apply negb_true_iff, jsstring_eqb_neq in Hne. exact Hne.
    + apply IH.
Qed.




Lemma without_id_Items id l : Forall Item l -> Forall Item (without_id id l).
Proof.
  intros H. apply List.Forall_forall. intros x Hx.
  apply List.filter_In in Hx as [Hx _]. now apply (proj1 (List.Forall_forall _ _) H).
Qed.


End Operations.



(** ** Further properties of InputProcessor *)

Lemma flat_whitespace_is_space s c :
  flat s = true -> In c s -> is_ws c = true -> c = 32.
Proof.
  induction s as [|c0 s IH]; simpl; [intros _ []|].
  intros H [<- | Hin] Hc; apply andb_true_iff in H as [H0 Hs].
  - rewrite Hc in H0. apply andb_true_iff in H0 as [H0 _]. now apply N.eqb_eq.
  - now apply IH.
Qed.

Lemma flat_no_adjacent pre c1 c2 post :
  flat (pre ++ c1 :: c2 :: post) = true -> is_ws c1 = true -> is_ws c2 = false.
Proof.
  induction pre as [|c0 pre IH]; cbn [app flat].
  - intros H Hc. rewrite Hc in H.
    apply andb_true_iff in H as [H _]. apply andb_true_iff in H as [_ H].
    now apply negb_true_iff.
  - intros H. apply andb_true_iff in H as [_ H]. now apply IH.
Qed.

Lemma flat_app_l s t : flat (s ++ t) = true -> flat s = true.
Proof.
  intros H. apply (flat_firstn (length s)) in H.
  now rewrite firstn_app, Nat.sub_diag, firstn_all, firstn_O, app_nil_r in H.
Qed.

Lemma sanitizeItem_flat v : flat (InputProcessor.sanitizeItem v) = true.
Proof.
  destruct (sanitizeItem_cases v) as [-> | (s0 & ->)]; [reflexivity|].
  apply flat_firstn, replace_ws_runs_flat.
Qed.

Lemma sanitizeItem_head v c r :
  InputProcessor.sanitizeItem v = c :: r -> is_ws c = false.
Proof.
  destruct (sanitizeItem_cases v) as [-> | (s0 & ->)]; [discriminate|].
  unfold slice0. intros Hs.
  destruct (replace_ws_runs false (trim s0)) as [|c1 r1] eqn:Hr; [discriminate|].
  simpl in Hs. injection Hs as <- _.
  apply (replace_ws_runs_head _ _ _ Hr).
  destruct (Trimmed_trim s0) as (pre & post & _ & _ & _ & Hh & _).
  intros c' r' Ht. specialize (Hh c' r' Ht). unfold whitespace in Hh.
  now destruct (is_ws c').
Qed.

Lemma last_case (s : jsstring) : s = [] \/ exists r c, s = r ++ [c].
Proof. induction s using rev_ind; [now left|right; eauto]. Qed.

(** A text in sanitized form is a fixed point of [sanitizeItem]. *)
Lemma sanitizeItem_fixed s :
  flat s = true ->
  (forall c r, s = c :: r -> is_ws c = false) ->
  (forall c r, s = r ++ [c] -> is_ws c = false) ->
  (length s <= 200)%nat ->
  InputProcessor.sanitizeItem (VStr s) = s.
Proof.
  intros Hflat Hhead Hlast Hlen. rewrite sanitizeItem_string.
  assert (trim s = s) as ->.
  { symmetry. apply Trimmed_unique. exists [], []. rewrite app_nil_r.
    split; [reflexivity|]. split; [constructor|]. split; [constructor|]. split.
    - intros c r Hs. unfold whitespace. rewrite (Hhead c r Hs). discriminate.
    - intros c r Hs. unfold whitespace. rewrite (Hlast c r Hs). discriminate. }
  rewrite (flat_replace_ws_runs s Hflat). unfold slice0. now apply firstn_all2.
Qed.

Lemma sanitizeItem_drops_final_space r :
  flat (r ++ [32]) = true ->
  (forall c r', r ++ [32] = c :: r' -> is_ws c = false) ->
  (length (r ++ [32%N]) <= 200)%nat ->
  InputProcessor.sanitizeItem (VStr (r ++ [32])) = r
  /\ InputProcessor.sanitizeItem (VStr r) = r.
Proof.
  intros Hflat Hhead Hlen.
  assert (r <> []) as Hne.
  { intros ->. now specialize (Hhead 32 [] eq_refl). }
  assert (forall c r', r = c :: r' -> is_ws c = false) as Hhead_r.
  { intros c r' ->. now apply (Hhead c (r' ++ [32])). }
  assert (forall c r', r = r' ++ [c] -> is_ws c = false) as Hlast_r.
  { intros c r' ->. rewrite <- app_assoc in Hflat. simpl in Hflat.
    destruct (is_ws c) eqn:Hc; [|reflexivity].
    pose proof is_ws_space as Hsp.
    now rewrite (flat_no_adjacent _ _ _ _ Hflat Hc) in Hsp. }
  assert (flat r = true) as Hflat_r by now apply flat_app_l in Hflat.
  rewrite length_app in Hlen. simpl in Hlen.
  assert (InputProcessor.sanitizeItem (VStr r) = r) as Hr.
  { apply sanitizeItem_fixed; [assumption..|lia]. }
  split; [|exact Hr].
  rewrite sanitizeItem_string.
  assert (trim (r ++ [32]) = r) as ->.
  { symmetry. apply Trimmed_unique. exists [], [32]. simpl.
    split; [reflexivity|]. split; [constructor|].
    split; [repeat constructor|]. split.
    - intros c r' Hs. unfold whitespace. rewrite (Hhead_r c r' Hs). discriminate.
    - intros c r' Hs. unfold whitespace. rewrite (Hlast_r c r' Hs). discriminate. }
  rewrite (flat_replace_ws_runs r Hflat_r). unfold slice0. apply firstn_all2. lia.
Qed.

(** X1.  Whatever it is given, [sanitizeItem] returns a text that does not
    begin with whitespace, whose only whitespace is the ASCII space, and
    in which no two whitespace characters are adjacent. *)
Theorem sanitizeItem_normal_form (v : value) :
  let s := InputProcessor.sanitizeItem v in
  (forall c r, s = c :: r -> ~ whitespace c)
  /\ (forall c, In c s -> whitespace c -> c = 32)
  /\ (forall pre c1 c2 post,
        s = pre ++ c1 :: c2 :: post -> whitespace c1 -> ~ whitespace c2).
Proof.
  intros s. pose proof (sanitizeItem_flat v) as Hflat. fold s in Hflat.
  split; [|split].
  - intros c r Hs. unfold whitespace. subst s.
    rewrite (sanitizeItem_head v c r Hs). discriminate.
  - intros c Hin Hc. now apply (flat_whitespace_is_space s).
  - intros pre c1 c2 post Hs Hc1. unfold whitespace. rewrite Hs in Hflat.
    rewrite (flat_no_adjacent _ _ _ _ Hflat Hc1). discriminate.
Qed.

Lemma sanitizeItem_normal_form_witness :
  InputProcessor.sanitizeItem (VStr (lit " a  b")) = lit "a b"
  /\ ~ whitespace 97 /\ ~ whitespace 98.
Proof.
  pose proof (sanitizeItem_normal_form (VStr (lit " a  b"))) as H.
  cbv zeta in H. destruct H as (Hhead & _ & Hadj).
  split; [reflexivity|]. split.
  - apply (Hhead 97 (lit " b")). reflexivity.
  - apply (Hadj [97] 32 98 []); reflexivity.
Defined.

Lemma sanitizeItem_second v :
  let s1 := InputProcessor.sanitizeItem v in
  let s2 := InputProcessor.sanitizeItem (VStr s1) in
  (s2 = s1 \/ s1 = s2 ++ [32])
  /\ InputProcessor.sanitizeItem (VStr s2) = s2.
Proof.
  intros s1 s2.
  pose proof (sanitizeItem_flat v) as Hflat.
  pose proof (sanitizeItem_head v) as Hhead.
  pose proof (sanitizeItem_length v) as Hlen.
  fold s1 in Hflat, Hhead, Hlen.
  destruct (last_case s1) as [Hnil | (r & c & Hs1)].
  - subst s2. rewrite Hnil. split; [left|]; reflexivity.
  - destruct (is_ws c) eqn:Hc.
    + assert (c = 32) as ->.
      { apply (flat_whitespace_is_space s1); [assumption| |assumption].
        rewrite Hs1. apply in_or_app. right. now left. }
      subst s2. rewrite Hs1 in *.
      destruct (sanitizeItem_drops_final_space r Hflat Hhead Hlen) as [-> Hr].
      split; [now right|exact Hr].
    + assert (s2 = s1) as Heq.
      { subst s2. apply sanitizeItem_fixed; [assumption..| |assumption].
        intros c' r' Hs. rewrite Hs1 in Hs.
        apply app_inj_tail in Hs as [_ <-]. exact Hc. }
      split; [now left|]. rewrite Heq. exact Heq.
Qed.

(** A non-empty sanitized text stays non-empty when sanitized again. *)
Lemma sanitizeItem_second_nonempty v :
  InputProcessor.sanitizeItem v <> [] ->
  InputProcessor.sanitizeItem (VStr (InputProcessor.sanitizeItem v)) <> [].
Proof.
  intros Hne Hnil.
  destruct (sanitizeItem_second v) as [[H | H] _]; rewrite Hnil in H.
  - now destruct Hne.
  - simpl in H. pose proof is_ws_space as Hsp.
    now rewrite (sanitizeItem_head v 32 [] H) in Hsp.
Qed.

(** X2.  Sanitizing a sanitized text either leaves it as it is or removes
    one final space (the one a cut at 200 characters can leave), and
    sanitizing once more changes nothing: from its second application
    on, [sanitizeItem] is idempotent.  A single application is not: the
    text of 199 letters, a space and a letter is cut after the space,
    which the next application removes. *)
Theorem sanitizeItem_settles :
  (forall v,
      let s1 := InputProcessor.sanitizeItem v in
      let s2 := InputProcessor.sanitizeItem (VStr s1) in
      (s2 = s1 \/ s1 = s2 ++ [32])
      /\ InputProcessor.sanitizeItem (VStr s2) = s2)
  /\ InputProcessor.sanitizeItem (VStr long_text) = repeat 97 199 ++ [32]
  /\ InputProcessor.sanitizeItem (VStr (repeat 97 199 ++ [32])) = repeat 97 199.
Proof.
  split; [apply sanitizeItem_second|split; vm_compute; reflexivity].
Qed.

(** ** What [parseInput] returns *)

Lemma sanitizeItem_units s c :
  In c (InputProcessor.sanitizeItem (VStr s)) -> In c s \/ c = 32.
Proof.
  rewrite sanitizeItem_string. unfold slice0. intros Hin.
  assert (In c (replace_ws_runs false (trim s))) as Hin'.
  { rewrite <- (firstn_skipn 200 (replace_ws_runs false (trim s))).
    apply in_or_app. now left. }
  clear Hin.
  assert (forall b t, In c (replace_ws_runs b t) -> In c t \/ c = 32) as Hrep.
  { intros b t. revert b. induction t as [|c0 t IH]; simpl; intros b; [intros []|].
    destruct (is_ws c0).
    - destruct b; simpl.
      + intros H. destruct (IH _ H); auto.
      + intros [<- | H]; [now right|]. destruct (IH _ H); auto.
    - intros [<- | H]; [left; now left|]. destruct (IH _ H); auto. }
  destruct (Hrep _ _ Hin') as [Ht | ->]; [|now right].
  left. destruct (Trimmed_trim s) as (pre & post & Hs & _).
  rewrite Hs. apply in_or_app. right. apply in_or_app. now left.
Qed.

Lemma space_not_delimiter : ~ delimiter 32.
Proof.
  unfold delimiter, separators. simpl. intros [H|[H|[H|[H|[]]]]]; discriminate.
Qed.

(** The separator test is redundant: in every case [parseInput] splits,
    sanitizes and filters. *)
Lemma parseInput_split s :
  InputProcessor.parseInput (VStr s)
  = List.filter (fun t => negb (jsstring_eqb t []))
      (List.map (fun seg => InputProcessor.sanitizeItem (VStr seg)) (split_sep s)).
Proof.
  destruct s as [|c s]; [reflexivity|].
  unfold InputProcessor.parseInput. cbn [truthy typeof jstype_eqb negb orb].
  rewrite filter_nonempty.
  destruct (separator_test (c :: s)) eqn:Ht; [reflexivity|].
  apply separator_test_false in Ht. now rewrite (split_sep_no_delimiter _ Ht).
Qed.

Lemma parseInput_not_string v :
  (forall s, v <> VStr s) -> InputProcessor.parseInput v = [].
Proof.
  intros H. unfold InputProcessor.parseInput.
  destruct v; cbn [typeof jstype_eqb negb]; rewrite ?orb_true_r; try reflexivity.
  now destruct (H s).
Qed.

Lemma split_sep_segments_clean s :
  Forall (Forall (fun c => ~ delimiter c)) (split_sep s).
Proof.
  pose proof (Segments_split_sep s) as H.
  induction H as [s Hs | s d rest segs Hs Hd Hrest IH]; constructor; auto.
Qed.

Lemma sanitizeItem_empty_iff s :
  InputProcessor.sanitizeItem (VStr s) = [] <-> Forall whitespace s.
Proof.
  rewrite sanitizeItem_string. unfold slice0.
  destruct (Trimmed_trim s) as (pre & post & Hs & Hpre & Hpost & Hhead & _).
  split.
  - intros H.
    assert (trim s = []) as Ht.
    { destruct (trim s) as [|c t] eqn:Htrim; [reflexivity|].
      exfalso. specialize (Hhead c t eq_refl). unfold whitespace in Hhead.
      simpl in H. destruct (is_ws c); [now apply Hhead|discriminate]. }
    rewrite Hs, Ht. simpl. apply Forall_app. now split.
  - intros Hall.
    assert (trim s = []) as ->; [|reflexivity].
    destruct (trim s) as [|c t] eqn:Htrim; [reflexivity|].
    exfalso. apply (Hhead c t eq_refl).
    rewrite Hs in Hall. apply Forall_app in Hall as [_ Hall].
    apply Forall_app in Hall as [Hall _]. now inversion Hall.
Qed.

Lemma Segments_only_blank s segs :
  Segments s segs ->
  Forall (fun c => delimiter c \/ whitespace c) s <-> Forall (Forall whitespace) segs.
Proof.
  assert (forall t, Forall (fun c => ~ delimiter c) t ->
                    Forall (fun c => delimiter c \/ whitespace c) t
                    <-> Forall whitespace t) as Hclean.
  { intros t Ht. split; intros H.
    - rewrite List.Forall_forall in *. intros c Hc.
      destruct (H c Hc) as [Hd|Hw]; [now destruct (Ht c Hc)|exact Hw].
    - eapply List.Forall_impl; [|exact H]. intros c Hc. now right. }
  induction 1 as [s Hs | s d rest segs Hs Hd Hrest IH].
  - rewrite (Hclean s Hs). split; intros H.
    + now repeat constructor.
    + now inversion H.
  - split; intros H.
    + apply Forall_app in H as [H1 H2]. inversion H2; subst.
      constructor; [now apply Hclean|now apply IH].
    + inversion H; subst. apply Forall_app. split; [now apply Hclean|].
      constructor; [now left|now apply IH].
Qed.

Lemma split_sep_length s :
  length (split_sep s) = S (length (List.filter is_separator s)).
Proof.
  induction s as [|c s IH]; simpl; [reflexivity|].
  destruct (is_separator c); simpl; [now rewrite IH|].
  destruct (split_sep s) as [|h t]; [discriminate|]. simpl in *. exact IH.
Qed.

(** X3.  Every text [parseInput] returns is non-empty, has at most 200
    code units, contains no delimiter and does not begin with
    whitespace; a value that is not a string gives no text at all. *)
Theorem parseInput_items (v : value) :
  Forall (fun t => t <> []
                   /\ (length t <= 200)%nat
                   /\ Forall (fun c => ~ delimiter c) t
                   /\ (forall c r, t = c :: r -> ~ whitespace c))
    (InputProcessor.parseInput v)
  /\ ((forall s, v <> VStr s) -> InputProcessor.parseInput v = []).
Proof.
  split; [|apply parseInput_not_string].
  destruct v as [| |b|n|s|l|ps];
    try (rewrite parseInput_not_string; [constructor|discriminate]).
  rewrite parseInput_split. apply List.Forall_forall. intros t Ht.
  apply filter_In in Ht as [Ht Hne]. apply in_map_iff in Ht as (seg & <- & Hseg).
  split; [|split; [|split]].
  - intros Heq. rewrite Heq in Hne. discriminate.
  - apply sanitizeItem_length.
  - apply List.Forall_forall. intros c Hc.
    pose proof (split_sep_segments_clean s) as Hclean.
    rewrite List.Forall_forall in Hclean. specialize (Hclean seg Hseg).
    rewrite List.Forall_forall in Hclean.
    destruct (sanitizeItem_units seg c Hc) as [Hin | ->];
      [now apply Hclean|apply space_not_delimiter].
  - intros c r Hs. unfold whitespace.
    rewrite (sanitizeItem_head _ c r Hs). discriminate.
Qed.

Lemma parseInput_items_witness :
  InputProcessor.parseInput (VStr (lit "a, ,b ")) = [lit "a"; lit "b"]
  /\ Forall (fun c => ~ delimiter c) (lit "b").
Proof.
  pose proof (parseInput_items (VStr (lit "a, ,b "))) as [H _].
  split; [reflexivity|].
  change (InputProcessor.parseInput (VStr (lit "a, ,b "))) with [lit "a"; lit "b"] in H.
  apply Forall_inv_tail, Forall_inv in H. apply H.
Defined.

(** X4.  [parseInput] returns no text exactly when the string holds
    nothing but delimiters and whitespace, and it never returns more
    texts than the string has delimiters, plus one. *)
Theorem parseInput_empty_iff (s : jsstring) :
  (InputProcessor.parseInput (VStr s) = []
   <-> Forall (fun c => delimiter c \/ whitespace c) s)
  /\ (length (InputProcessor.parseInput (VStr s))
      <= S (length (List.filter is_separator s)))%nat.
Proof.
  rewrite parseInput_split. split.
  - rewrite (Segments_only_blank s (split_sep s) (Segments_split_sep s)).
    induction (split_sep s) as [|seg segs IH]; simpl.
    + split; [constructor|reflexivity].
    + destruct (jsstring_eqb (InputProcessor.sanitizeItem (VStr seg)) []) eqn:He; simpl.
      * apply jsstring_eqb_eq, sanitizeItem_empty_iff in He.
        rewrite IH. split; intros H; [now constructor|now inversion H].
      * apply jsstring_eqb_neq in He. split; [discriminate|].
        intros H. inversion H; subst. now apply sanitizeItem_empty_iff in H2.
  - rewrite <- split_sep_length.
    etransitivity; [apply filter_length_le|]. now rewrite length_map.
Qed.

Lemma parseInput_empty_iff_witness :
  InputProcessor.parseInput (VStr (lit " , ,, ")) = []
  /\ (length (InputProcessor.parseInput (VStr (lit "a,b,,c"))) <= 4)%nat.
Proof.
  split.
  - apply (parseInput_empty_iff (lit " , ,, ")).
    repeat (constructor; [first [right; reflexivity | left; left; reflexivity]|]).
    constructor.
  - apply (parseInput_empty_iff (lit "a,b,,c")).
Defined.

(** ** escapeHtml *)

Lemma escape_unit_cases c :
  (c = 38 /\ escape_unit c = [38; 97; 109; 112; 59])
  \/ (c = 160 /\ escape_unit c = [38; 110; 98; 115; 112; 59])
  \/ (c = 60 /\ escape_unit c = [38; 108; 116; 59])
  \/ (c = 62 /\ escape_unit c = [38; 103; 116; 59])
  \/ (c <> 38 /\ c <> 160 /\ c <> 60 /\ c <> 62 /\ escape_unit c = [c]).
Proof.
  unfold escape_unit.
  destruct (N.eqb_spec c 38) as [->|H1]; [now left|].
  destruct (N.eqb_spec c 160) as [->|H2]; [right; now left|].
  destruct (N.eqb_spec c 60) as [->|H3]; [right; right; now left|].
  destruct (N.eqb_spec c 62) as [->|H4]; [right; right; right; now left|].
  now repeat right.
Qed.

Lemma text_node_innerHTML_cons c s :
  text_node_innerHTML (c :: s) = escape_unit c ++ text_node_innerHTML s.
Proof. reflexivity. Qed.

Lemma escapeHtml_string s :
  InputProcessor.escapeHtml (VStr s) = text_node_innerHTML s.
Proof. now destruct s. Qed.

Lemma escapeHtml_not_string v :
  (forall s, v <> VStr s) -> InputProcessor.escapeHtml v = [].
Proof.
  intros H. unfold InputProcessor.escapeHtml.
  destruct v; cbn [typeof jstype_eqb negb]; rewrite ?orb_true_r; try reflexivity.
  now destruct (H s).
Qed.

Lemma text_node_innerHTML_units s c :
  In c (text_node_innerHTML s) -> c <> 60 /\ c <> 62 /\ c <> 160.
Proof.
  unfold text_node_innerHTML. intros H. apply in_flat_map in H as (c0 & _ & H).
  destruct (escape_unit_cases c0)
    as [(_ & E)|[(_ & E)|[(_ & E)|[(_ & E)|(H1 & H2 & H3 & H4 & E)]]]];
    rewrite E in H; simpl in H.
  1-4: repeat (destruct H as [<- | H]; [repeat split; discriminate|]); destruct H.
  destruct H as [<- | []]. auto.
Qed.

(** An ampersand that lies behind a stretch without ampersands lies in
    what follows the stretch. *)
Lemma ampersand_after (body t pre post : jsstring) :
  ~ In 38 body -> body ++ t = pre ++ 38 :: post ->
  exists pre', t = pre' ++ 38 :: post.
Proof.
  revert pre. induction body as [|b body IH]; intros pre Hno H.
  - now exists pre.
  - destruct pre as [|p pre]; simpl in H.
    + injection H as -> _. destruct Hno. now left.
    + injection H as _ H. apply (IH pre); [|exact H].
      intros Hin. apply Hno. now right.
Qed.

Lemma text_node_innerHTML_ampersand s pre post :
  text_node_innerHTML s = pre ++ 38 :: post ->
  exists name rest, In name entity_names /\ post = name ++ 59 :: rest.
Proof.
  revert pre. induction s as [|c s IH]; intros pre.
  - destruct pre; discriminate.
  - rewrite text_node_innerHTML_cons.
    assert (forall name,
               In name entity_names -> ~ In 38 (name ++ [59]) ->
               (38 :: name ++ [59]) ++ text_node_innerHTML s = pre ++ 38 :: post ->
               exists name rest, In name entity_names /\ post = name ++ 59 :: rest)
      as Hentity.
    { intros name Hname Hno H. destruct pre as [|p pre]; simpl in H.
      - injection H as <-. exists name, (text_node_innerHTML s).
        split; [exact Hname|]. now rewrite <- app_assoc.
      - injection H as _ H.
        destruct (ampersand_after _ _ _ _ Hno H) as (pre' & H').
        now apply (IH pre'). }
    destruct (escape_unit_cases c)
      as [(_ & E)|[(_ & E)|[(_ & E)|[(_ & E)|(H1 & H2 & H3 & H4 & E)]]]];
      rewrite E.
    + apply (Hentity (lit "amp")); [simpl; tauto|].
      simpl. intros H. repeat (destruct H as [H | H]; [discriminate H|]). exact H.
    + apply (Hentity (lit "nbsp")); [simpl; tauto|].
      simpl. intros H. repeat (destruct H as [H | H]; [discriminate H|]). exact H.
    + apply (Hentity (lit "lt")); [simpl; tauto|].
      simpl. intros H. repeat (destruct H as [H | H]; [discriminate H|]). exact H.
    + apply (Hentity (lit "gt")); [simpl; tauto|].
      simpl. intros H. repeat (destruct H as [H | H]; [discriminate H|]). exact H.
    + intros H. destruct pre as [|p pre]; simpl in H.
      * injection H as -> _. now destruct H1.
      * injection H as _ H. now apply (IH pre).
Qed.

Lemma escape_unit_quotes c q :
  q = 34 \/ q = 39 ->
  count_occ N.eq_dec (escape_unit c) q = count_occ N.eq_dec [c] q.
Proof.
  intros Hq.
  destruct (escape_unit_cases c)
    as [(-> & E)|[(-> & E)|[(-> & E)|[(-> & E)|(H1 & H2 & H3 & H4 & E)]]]];
    rewrite E; [destruct Hq as [-> | ->]; reflexivity..|reflexivity].
Qed.

Lemma text_node_innerHTML_quotes s q :
  q = 34 \/ q = 39 ->
  count_occ N.eq_dec (text_node_innerHTML s) q = count_occ N.eq_dec s q.
Proof.
  intros Hq. induction s as [|c s IH]; [reflexivity|].
  rewrite text_node_innerHTML_cons, count_occ_app, IH, (escape_unit_quotes c q Hq).
  change (c :: s) with ([c] ++ s). now rewrite count_occ_app.
Qed.

Lemma text_node_innerHTML_plain s :
  Forall (fun c => c <> 38 /\ c <> 160 /\ c <> 60 /\ c <> 62) s ->
  text_node_innerHTML s = s.
Proof.
  induction 1 as [|c s (H1 & H2 & H3 & H4) Hs IH]; [reflexivity|].
  rewrite text_node_innerHTML_cons, IH.
  destruct (escape_unit_cases c)
    as [(E & _)|[(E & _)|[(E & _)|[(E & _)|(_ & _ & _ & _ & E)]]]];
    try contradiction.
  now rewrite E.
Qed.

Lemma text_node_innerHTML_inj s1 s2 :
  text_node_innerHTML s1 = text_node_innerHTML s2 -> s1 = s2.
Proof.
  revert s2. induction s1 as [|c1 s1 IH]; intros [|c2 s2].
  - reflexivity.
  - rewrite text_node_innerHTML_cons.
    destruct (escape_unit_cases c2)
      as [(_ & E)|[(_ & E)|[(_ & E)|[(_ & E)|(_ & _ & _ & _ & E)]]]];
      rewrite E; discriminate.
  - rewrite text_node_innerHTML_cons.
    destruct (escape_unit_cases c1)
      as [(_ & E)|[(_ & E)|[(_ & E)|[(_ & E)|(_ & _ & _ & _ & E)]]]];
      rewrite E; discriminate.
  - rewrite !text_node_innerHTML_cons.
    destruct (escape_unit_cases c1)
      as [(-> & E1)|[(-> & E1)|[(-> & E1)|[(-> & E1)|(A1 & A2 & A3 & A4 & E1)]]]];
      destruct (escape_unit_cases c2)
      as [(-> & E2)|[(-> & E2)|[(-> & E2)|[(-> & E2)|(B1 & B2 & B3 & B4 & E2)]]]];
      rewrite ?E1, ?E2; simpl; intros H;
      try discriminate H;
      try (injection H as H; f_equal; now apply IH);
      try (injection H as <- _; contradiction);
      try (injection H as -> _; contradiction).
    injection H as -> H. f_equal. now apply IH.
Qed.

(** X5.  The text [escapeHtml] returns contains no "<", no ">" and no
    no-break space, and every "&" in it begins one of the references
    "&amp;", "&nbsp;", "&lt;", "&gt;": shown as HTML it starts no tag and
    no reference of the user's.  A value that is not a string gives the
    empty text. *)
Theorem escapeHtml_no_markup (v : value) :
  let out := InputProcessor.escapeHtml v in
  (forall c, In c out -> c <> 60 /\ c <> 62 /\ c <> 160)
  /\ (forall pre post,
        out = pre ++ 38 :: post ->
        exists name rest, In name entity_names /\ post = name ++ 59 :: rest)
  /\ ((forall s, v <> VStr s) -> out = []).
Proof.
  intros out. subst out.
  destruct v as [| |b|n|s|l|ps];
    try (rewrite escapeHtml_not_string; [|discriminate];
         split; [intros c []|split; [intros [|? ?] ? ?; discriminate|reflexivity]]).
  rewrite escapeHtml_string. split; [|split].
  - apply text_node_innerHTML_units.
  - apply text_node_innerHTML_ampersand.
  - intros H. now destruct (H s).
Qed.

Lemma escapeHtml_no_markup_witness :
  InputProcessor.escapeHtml (VStr (lit "<b>&")) = lit "&lt;b&gt;&amp;"
  /\ exists name rest, In name entity_names /\ lit "lt;b&gt;&amp;" = name ++ 59 :: rest.
Proof.
  pose proof (escapeHtml_no_markup (VStr (lit "<b>&"))) as H.
  cbv zeta in H. destruct H as (_ & Hamp & _).
  split; [reflexivity|]. apply (Hamp []). reflexivity.
Defined.

(** X6.  [escapeHtml] loses nothing and touches nothing else: two
    different strings have different escaped texts, a string without
    "&", "<", ">" and no-break space is returned as it is, and the
    quotation marks U+0022 and U+0027 are never escaped (the escaped
    text has as many of each as the string has). *)
Theorem escapeHtml_faithful :
  (forall s1 s2,
      InputProcessor.escapeHtml (VStr s1) = InputProcessor.escapeHtml (VStr s2) ->
      s1 = s2)
  /\ (forall s,
        Forall (fun c => c <> 38 /\ c <> 160 /\ c <> 60 /\ c <> 62) s ->
        InputProcessor.escapeHtml (VStr s) = s)
  /\ (forall s q,
        q = 34 \/ q = 39 ->
        count_occ N.eq_dec (InputProcessor.escapeHtml (VStr s)) q
        = count_occ N.eq_dec s q).
Proof.
  split; [|split].
  - intros s1 s2. rewrite !escapeHtml_string. apply text_node_innerHTML_inj.
  - intros s. rewrite escapeHtml_string. apply text_node_innerHTML_plain.
  - intros s q. rewrite escapeHtml_string. apply text_node_innerHTML_quotes.
Qed.

Lemma escapeHtml_faithful_witness :
  InputProcessor.escapeHtml (VStr (lit "say 'hi'")) = lit "say 'hi'"
  /\ count_occ N.eq_dec
       (InputProcessor.escapeHtml (VStr (lit "<a href='x'>"))) 39 = 2%nat.
Proof.
  destruct escapeHtml_faithful as (_ & Hplain & Hquotes). split.
  - apply Hplain. repeat constructor; discriminate.
  - rewrite Hquotes; [reflexivity|now right].
Defined.

(** ** Whitespace around a text, and entering parsed texts again *)

Lemma trim_outer_whitespace pre s post :
  Forall whitespace pre -> Forall whitespace post ->
  trim (pre ++ s ++ post) = trim s.
Proof.
  intros Hpre Hpost. symmetry. apply Trimmed_unique.
  destruct (Trimmed_trim s) as (p & q & Hs & Hp & Hq & Hhead & Hlast).
  exists (pre ++ p), (q ++ post).
  split; [|split; [|split; [|split]]].
  - rewrite Hs at 1. now rewrite <- !app_assoc.
  - apply Forall_app. now split.
  - apply Forall_app. now split.
  - exact Hhead.
  - exact Hlast.
Qed.

(** X7.  Whitespace around a text does not count: [sanitizeItem] gives
    the same result with any whitespace added in front of the text or
    behind it, and so does [parseInput] for a text without delimiter. *)
Theorem sanitizeItem_outer_whitespace (pre s post : jsstring) :
  Forall whitespace pre -> Forall whitespace post ->
  InputProcessor.sanitizeItem (VStr (pre ++ s ++ post))
  = InputProcessor.sanitizeItem (VStr s)
  /\ (Forall (fun c => ~ delimiter c) s ->
      InputProcessor.parseInput (VStr (pre ++ s ++ post))
      = InputProcessor.parseInput (VStr s)).
Proof.
  intros Hpre Hpost.
  assert (InputProcessor.sanitizeItem (VStr (pre ++ s ++ post))
          = InputProcessor.sanitizeItem (VStr s)) as Hsan.
  { rewrite !sanitizeItem_string. now rewrite trim_outer_whitespace. }
  split; [exact Hsan|].
  intros Hs. rewrite !parseInput_split.
  assert (forall t, Forall whitespace t -> Forall (fun c => ~ delimiter c) t) as Hws.
  { intros t Ht. eapply List.Forall_impl; [|exact Ht].
    intros c Hc Hd. unfold whitespace in Hc. unfold delimiter, separators in Hd.
    simpl in Hd. destruct Hd as [<-|[<-|[<-|[<-|[]]]]]; discriminate Hc. }
  rewrite (split_sep_no_delimiter s Hs).
  rewrite (split_sep_no_delimiter (pre ++ s ++ post)).
  - cbn [List.map]. now rewrite Hsan.
  - apply Forall_app. split; [now apply Hws|].
    apply Forall_app. split; [exact Hs|now apply Hws].
Qed.

Lemma sanitizeItem_outer_whitespace_witness :
  InputProcessor.sanitizeItem (VStr ([9; 32] ++ lit "a  b" ++ [10]))
  = InputProcessor.sanitizeItem (VStr (lit "a  b")).
Proof.
  apply (sanitizeItem_outer_whitespace [9; 32] (lit "a  b") [10]);
    repeat (constructor; [reflexivity|]); constructor.
Defined.

Lemma split_sep_join d ts :
  delimiter d -> ts <> [] ->
  Forall (Forall (fun c => ~ delimiter c)) ts ->
  split_sep (join_with d ts) = ts.
Proof.
  intros Hd Hne Hall. induction Hall as [|t ts Ht Hts IH]; [now destruct Hne|].
  destruct ts as [|t' ts'].
  - cbn [join_with]. now apply split_sep_no_delimiter.
  - change (join_with d (t :: t' :: ts')) with (t ++ d :: join_with d (t' :: ts')).
    rewrite (split_sep_cut t d _ Ht Hd). f_equal. now apply IH.
Qed.

Lemma parseInput_elements v :
  Forall (fun t => t <> []
                   /\ (exists raw, t = InputProcessor.sanitizeItem raw)
                   /\ Forall (fun c => ~ delimiter c) t)
    (InputProcessor.parseInput v).
Proof.
  destruct v as [| |b|n|s|l|ps];
    try (rewrite parseInput_not_string; [constructor|discriminate]).
  rewrite parseInput_split. apply List.Forall_forall. intros t Ht.
  apply filter_In in Ht as [Ht Hne]. apply in_map_iff in Ht as (seg & <- & Hseg).
  split; [|split].
  - intros Heq. rewrite Heq in Hne. discriminate.
  - now exists (VStr seg).
  - apply List.Forall_forall. intros c Hc.
    pose proof (split_sep_segments_clean s) as Hclean.
    rewrite List.Forall_forall in Hclean. specialize (Hclean seg Hseg).
    rewrite List.Forall_forall in Hclean.
    destruct (sanitizeItem_units seg c Hc) as [Hin | ->];
      [now apply Hclean|apply space_not_delimiter].
Qed.

Lemma parseInput_of_join d ts :
  delimiter d ->
  Forall (fun t => t <> []
                   /\ InputProcessor.sanitizeItem (VStr t) = t
                   /\ Forall (fun c => ~ delimiter c) t) ts ->
  InputProcessor.parseInput (VStr (join_with d ts)) = ts.
Proof.
  intros Hd Hall. destruct ts as [|t0 ts0]; [reflexivity|].
  rewrite parseInput_split, split_sep_join; [|exact Hd|discriminate|].
  - induction Hall as [|t ts (Hne & Hfix & _) _ IH]; [reflexivity|].
    cbn [List.map List.filter]. rewrite Hfix.
    apply jsstring_eqb_neq in Hne. rewrite Hne. cbn [negb]. now rewrite IH.
  - eapply List.Forall_impl; [|exact Hall]. now intros t (_ & _ & H).
Qed.

(** X8.  Entering parsed texts again.  Texts that are non-empty fixed
    points of [sanitizeItem] and contain no delimiter, joined by any
    delimiter, are parsed back into exactly these texts; in particular
    what [parseInput] returns, joined by a delimiter, parses to itself
    whenever none of the returned texts ends with whitespace. *)
Theorem parseInput_join (d : N) :
  delimiter d ->
  (forall ts,
      Forall (fun t => t <> []
                       /\ InputProcessor.sanitizeItem (VStr t) = t
                       /\ Forall (fun c => ~ delimiter c) t) ts ->
      InputProcessor.parseInput (VStr (join_with d ts)) = ts)
  /\ (forall v,
        Forall (fun t => forall c r, t = r ++ [c] -> ~ whitespace c)
          (InputProcessor.parseInput v) ->
        InputProcessor.parseInput (VStr (join_with d (InputProcessor.parseInput v)))
        = InputProcessor.parseInput v).
Proof.
  intros Hd. split; [intros ts; now apply parseInput_of_join|].
  intros v Hlast. apply parseInput_of_join; [exact Hd|].
  pose proof (parseInput_elements v) as Hel.
  induction Hel as [|t ts (Hne & (raw & Hraw) & Hclean) _ IH]; [constructor|].
  inversion Hlast as [|? ? Ht Hts]; subst. constructor; [|now apply IH].
  split; [exact Hne|]. split; [|exact Hclean].
  apply (sanitizeItem_again raw). intros c r Hs.
  specialize (Ht c r Hs). unfold whitespace in Ht. now destruct (is_ws c).
Qed.

Lemma parseInput_join_witness :
  InputProcessor.parseInput (VStr (join_with 12289 [lit "milk"; lit "brown bread"]))
  = [lit "milk"; lit "brown bread"].
Proof.
  apply (parseInput_join 12289).
  - unfold delimiter, separators. simpl. tauto.
  - repeat (constructor;
            [split; [discriminate|split; [reflexivity|]];
             repeat (constructor; [intros Hd; unfold delimiter, separators in Hd;
                                   simpl in Hd; intuition discriminate|]);
             constructor|]).
    constructor.
Defined.

(** ** Reading and writing the store *)

Lemma get_own_absent k ps : ~ In k (keys ps) -> get_own k ps = None.
Proof.
  induction ps as [|[k' v'] ps IH]; simpl; [reflexivity|].
  intros H. destruct (jsstring_eqb k' k) eqn:He.
  - apply jsstring_eqb_eq in He. destruct H. now left.
  - apply IH. intros Hin. apply H. now right.
Qed.

(** In a spread over an object without repeated keys the object's own
    value wins, and the target's stays where the object has none. *)
Lemma get_own_fold_set_prop k ps acc :
  List.NoDup (keys ps) ->
  get_own k (fold_left (fun o kv => set_prop (fst kv) (snd kv) o) ps acc)
  = match get_own k ps with
    | Some v => Some v
    | None => get_own k acc
    end.
Proof.
  revert acc. induction ps as [|[k1 v1] ps IH]; intros acc Hnd; [reflexivity|].
  inversion Hnd as [|? ? Hnotin Hnd']; subst. cbn [fold_left fst snd get_own].
  rewrite (IH _ Hnd').
  destruct (jsstring_eqb k1 k) eqn:He.
  - apply jsstring_eqb_eq in He as ->.
    rewrite (get_own_absent k ps Hnotin). apply get_own_set_prop.
  - apply jsstring_eqb_neq in He.
    destruct (get_own k ps); [reflexivity|]. now apply get_own_set_prop_ne.
Qed.

Lemma get_own_spread k o ps :
  List.NoDup (keys ps) ->
  get_own k (spread o (VObj ps))
  = match get_own k ps with
    | Some v => Some v
    | None => get_own k o
    end.
Proof. apply get_own_fold_set_prop. Qed.

Lemma removeItem_eq k w :
  removeItem k w
  = match next_fault w with
    | Some e => (Throw e, after_call (RemoveItem k) w)
    | None => (Ret tt, with_store (delete k (localStorage w)) (after_call (RemoveItem k) w))
    end.
Proof.
  destruct w as [ls [|[e|] fs] cs n]; reflexivity.
Qed.

Lemma readable_stored w doc raw :
  localStorage w !! TodoStorage.STORAGE_KEY = Some (Json doc) ->
  truthy doc = true ->
  get_prop doc (lit "items") = VArr raw ->
  next_fault w = None ->
  readable w = Some (doc, raw).
Proof.
  intros Hls Ht Hi Hf. unfold readable. now rewrite Hf, Hls, Ht, Hi.
Qed.

Section LoadSave.

Variable E : engine.

Lemma merge_validated_now doc l w :
  exists vs t,
    TodoStorage.merge_validated E doc l w
    = (Ret (merged_doc (Date_toISOString E (tick w)) doc (List.filter truthy vs)),
       set_tick t w)
    /\ Forall2 Validated l vs.
Proof.
  unfold TodoStorage.merge_validated.
  rewrite (bind_Ret _ _ _ _ _ (getDefaultData_eq E w)).
  destruct (mapM_validateItem E l (set_tick (S (tick w)) w)) as (vs & t & Hvs & HVs).
  rewrite (bind_Ret _ _ _ _ _ Hvs).
  now exists vs, t.
Qed.

Lemma load_unreadable w :
  readable w = None ->
  TodoStorage.load E w
  = (Ret (default_doc (Date_toISOString E (tick w))),
     set_tick (S (tick w)) (after_call (GetItem TodoStorage.STORAGE_KEY) w)).
Proof.
  unfold TodoStorage.load, readable, try_catch, bind at 1.
  rewrite getItem_eq.
  destruct (next_fault w) as [e|]; [reflexivity|].
  destruct (localStorage w !! TodoStorage.STORAGE_KEY) as [[doc|s]|].
  - cbn [JSON_parse]. rewrite bind_ret_l.
    destruct (truthy doc) eqn:Hdoc; cbn [negb]; [|reflexivity].
    rewrite (bind_Ret _ _ _ _ _
               (member_object_like doc _ _ (truthy_not_nullish _ Hdoc))).
    destruct (get_prop doc (lit "items")); try reflexivity. discriminate.
  - now destruct s.
  - reflexivity.
Qed.

Lemma load_readable w doc raw :
  readable w = Some (doc, raw) ->
  exists vs t,
    TodoStorage.load E w
    = (Ret (merged_doc (Date_toISOString E (tick w)) doc (List.filter truthy vs)),
       set_tick t (after_call (GetItem TodoStorage.STORAGE_KEY) w))
    /\ Forall2 Validated raw vs.
Proof.
  unfold TodoStorage.load, readable, try_catch, bind at 1.
  rewrite getItem_eq.
  destruct (next_fault w) as [e|]; [discriminate|].
  destruct (localStorage w !! TodoStorage.STORAGE_KEY) as [[doc'|s]|]; try discriminate.
  destruct (truthy doc') eqn:Hdoc; [|discriminate].
  destruct (get_prop doc' (lit "items")) as [| |b|n|s|raw'|ps] eqn:Hi; try discriminate.
  intros [= -> ->].
  cbn [JSON_parse]. rewrite bind_ret_l, Hdoc. cbn [negb].
  rewrite (bind_Ret _ _ _ _ _
             (member_object_like doc _ _ (truthy_not_nullish _ Hdoc))).
  rewrite Hi.
  destruct (merge_validated_now doc raw
              (after_call (GetItem TodoStorage.STORAGE_KEY) w))
    as (vs & t & Hm & HV).
  rewrite Hm. now exists vs, t.
Qed.

(** X9.  [load] only reads: it leaves the store as it is and calls the
    backend once, for the entry of the storage key.  When that read is
    refused, or there is no entry, or the entry is not JSON text, or it
    is JSON text for a falsy value or for a document whose [items] is
    not an array, [load] returns the default document stamped with the
    current time. *)
Theorem load_falls_back (w : world) :
  (forall d w',
      TodoStorage.load E w = (Ret d, w') ->
      localStorage w' = localStorage w
      /\ calls w' = GetItem TodoStorage.STORAGE_KEY :: calls w)
  /\ ((next_fault w <> None
       \/ localStorage w !! TodoStorage.STORAGE_KEY = None
       \/ (exists s, localStorage w !! TodoStorage.STORAGE_KEY = Some (NotJson s))
       \/ (exists doc,
              localStorage w !! TodoStorage.STORAGE_KEY = Some (Json doc)
              /\ (truthy doc = false
                  \/ forall l, get_prop doc (lit "items") <> VArr l))) ->
      TodoStorage.load E w
      = (Ret (default_doc (Date_toISOString E (tick w))),
         set_tick (S (tick w)) (after_call (GetItem TodoStorage.STORAGE_KEY) w))).
Proof.
  split.
  - intros d w' Hload. destruct (load_world E w d w' Hload) as (_ & t & ->).
    now split.
  - intros H. apply load_unreadable. unfold readable.
    destruct (next_fault w) as [e|]; [reflexivity|].
    destruct H as [H | [H | [(s & H) | (doc & H & Hdoc)]]];
      [now destruct H | now rewrite H | now rewrite H |].
    rewrite H. destruct (truthy doc); [|reflexivity].
    destruct Hdoc as [Hdoc | Hdoc]; [discriminate|].
    destruct (get_prop doc (lit "items")) as [| |b|n|s|raw|ps] eqn:Hi; try reflexivity.
    now destruct (Hdoc raw).
Qed.

Lemma default_doc_NoDup now :
  exists ps, default_doc now = VObj ps /\ List.NoDup (keys ps)
             /\ spread [] (default_doc now) = ps.
Proof.
  eexists. split; [reflexivity|].
  assert (List.NoDup (keys [ (lit "version", VStr TodoStorage.VERSION);
                             (lit "items", VArr []);
                             (lit "lastUpdated", VStr now);
                             (lit "settings",
                               VObj [ (lit "theme", VStr (lit "auto"));
                                      (lit "animations", VBool true) ]) ])) as Hnd.
  { repeat constructor; simpl; intuition discriminate. }
  split; [exact Hnd|]. now apply spread_nil_NoDup.
Qed.

Lemma get_prop_merged_doc now ps l k :
  List.NoDup (keys ps) -> k <> lit "items" ->
  get_prop (merged_doc now (VObj ps) l) k
  = match get_own k ps with
    | Some v => v
    | None => get_prop (default_doc now) k
    end.
Proof.
  intros Hnd Hk. unfold merged_doc. cbn [get_prop].
  rewrite get_own_set_prop_ne by congruence.
  rewrite (get_own_spread k _ ps Hnd).
  destruct (get_own k ps); [reflexivity|].
  destruct (default_doc_NoDup now) as (ps0 & Hd & _ & ->). now rewrite Hd.
Qed.

(** X10.  When the store holds a document whose [items] is an array,
    [load] returns the document's own top-level fields (the settings,
    and also its [version] and [lastUpdated]) unchanged, takes the
    fields the document lacks from the default document, and returns as
    items the validated form of the entries that are objects, in their
    order; the other entries are dropped. *)
Theorem load_keeps_fields (w : world) (ps : props) (raw : list value) :
  localStorage w !! TodoStorage.STORAGE_KEY = Some (Json (VObj ps)) ->
  List.NoDup (keys ps) ->
  get_own (lit "items") ps = Some (VArr raw) ->
  next_fault w = None ->
  exists d w',
    TodoStorage.load E w = (Ret d, w')
    /\ (forall k v, k <> lit "items" -> get_own k ps = Some v -> get_prop d k = v)
    /\ (forall k, get_own k ps = None ->
                  get_prop d k
                  = get_prop (default_doc (Date_toISOString E (tick w))) k)
    /\ Forall2 Validated (List.filter object_like raw) (items_of d)
    /\ Forall (fun v => v <> VNull) (items_of d).
Proof.
  intros Hls Hnd Hitems Hf.
  assert (readable w = Some (VObj ps, raw)) as Hr.
  { apply readable_stored; [assumption|reflexivity| |assumption].
    now apply get_prop_own. }
  destruct (load_readable w _ _ Hr) as (vs & t & Hload & HV).
  eexists _, _. split; [exact Hload|].
  split; [|split; [|split]].
  - intros k v Hk Hget. rewrite (get_prop_merged_doc _ _ _ _ Hnd Hk). now rewrite Hget.
  - intros k Hget.
    assert (k <> lit "items") as Hk by (intros ->; congruence).
    rewrite (get_prop_merged_doc _ _ _ _ Hnd Hk). now rewrite Hget.
  - rewrite items_of_merged_doc.
    eapply Forall2_impl; [apply (Validated_filter _ _ HV)|].
    now intros r v [_ H].
  - rewrite items_of_merged_doc. apply List.Forall_forall. intros v Hv.
    apply filter_In in Hv as [_ Hv]. intros ->. discriminate.
Qed.

End LoadSave.

Lemma load_falls_back_witness :
  TodoStorage.load E0 (World ∅ [] [] 0)
  = (Ret (default_doc (lit "2024-05-01T10:00:00.000Z")),
     World ∅ [] [GetItem TodoStorage.STORAGE_KEY] 1).
Proof.
  destruct (load_falls_back E0 (World ∅ [] [] 0)) as [_ H].
  rewrite H; [reflexivity|]. right. left. reflexivity.
Defined.


Lemma load_keeps_fields_witness :
  exists d w',
    TodoStorage.load E0 (world_ex (doc_ex [VNum 3; item_ex "a" "milk" (VNum 10)]) [])
    = (Ret d, w')
    /\ get_prop d (lit "settings")
       = VObj [ (lit "theme", VStr (lit "dark")); (lit "animations", VBool false) ]
    /\ items_of d = [item_ex "a" "milk" (VNum 10)].
Proof.
  destruct (load_keeps_fields E0
              (world_ex (doc_ex [VNum 3; item_ex "a" "milk" (VNum 10)]) [])
              (doc_ex_props [VNum 3; item_ex "a" "milk" (VNum 10)])
              [VNum 3; item_ex "a" "milk" (VNum 10)])
    as (d & w' & Hload & Hown & _ & _ & _).
  - reflexivity.
  - repeat constructor; simpl; intuition discriminate.
  - reflexivity.
  - reflexivity.
  - exists d, w'. split; [exact Hload|]. split.
    + apply Hown; [discriminate|reflexivity].
    + vm_compute in Hload. now injection Hload as <- _.
Defined.

(** ** Writing the store *)

Section Saving.

Variable E : engine.

(** X11.  [save] returns true exactly when it is given a document with an
    array of items and the backend accepts the write; the store then
    holds the new text under the storage key.  Given anything else it
    returns false without calling the backend; and when the backend
    refuses the write for another reason than the quota, the store is
    left as it was. *)
Theorem save_outcome (data : value) (w : world) :
  exists ok w',
    TodoStorage.save E data w = (Ret ok, w')
    /\ (ok = true <-> saveable data = true /\ next_fault w = None)
    /\ (ok = true ->
        localStorage w'
        = <[TodoStorage.STORAGE_KEY := saved_text E data w]> (localStorage w)
        /\ calls w' = SetItem TodoStorage.STORAGE_KEY (saved_text E data w) :: calls w)
    /\ (saveable data = false -> w' = w)
    /\ (forall e,
          saveable data = true -> next_fault w = Some e ->
          exn_name e <> lit "QuotaExceededError" ->
          localStorage w' = localStorage w
          /\ calls w' = SetItem TodoStorage.STORAGE_KEY (saved_text E data w) :: calls w).
Proof.
  destruct (saveable data) eqn:Hs.
  - rewrite (save_saveable E data w Hs). cbv zeta.
    destruct (next_fault w) as [e|] eqn:Hf.
    + destruct (jsstring_eqb (exn_name e) (lit "QuotaExceededError")) eqn:Hq.
      * eexists _, _. split; [reflexivity|].
        split; [split; [discriminate|now intros [_ ?]]|].
        split; [discriminate|]. split; [discriminate|].
        intros e' _ [= <-] Hne. apply jsstring_eqb_eq in Hq. contradiction.
      * eexists _, _. split; [reflexivity|].
        split; [split; [discriminate|now intros [_ ?]]|].
        split; [discriminate|]. split; [discriminate|].
        intros e' _ _ _. now split.
    + eexists _, _. split; [reflexivity|].
      split; [now split|]. split; [now split|]. split; [discriminate|].
      discriminate.
  - rewrite (save_not_saveable E data w Hs).
    eexists _, _. split; [reflexivity|].
    split; [split; [discriminate|now intros [? _]]|].
    split; [discriminate|]. split; [reflexivity|]. discriminate.
Qed.

(** X12.  What [save] writes: the document's own fields as they are,
    without validating the items, except [version] and [lastUpdated],
    which are set to the program's version and to the current time
    whatever the document says.  The other entries of the store are
    not touched. *)
Theorem save_stamps (ps : props) (l : list value) (w : world) :
  List.NoDup (keys ps) ->
  get_own (lit "items") ps = Some (VArr l) ->
  next_fault w = None ->
  exists stored w',
    TodoStorage.save E (VObj ps) w = (Ret true, w')
    /\ localStorage w' !! TodoStorage.STORAGE_KEY = Some (Json stored)
    /\ (forall k, k <> TodoStorage.STORAGE_KEY ->
                  localStorage w' !! k = localStorage w !! k)
    /\ get_prop stored (lit "version") = VStr TodoStorage.VERSION
    /\ get_prop stored (lit "lastUpdated") = VStr (Date_toISOString E (tick w))
    /\ items_of stored = List.map clean_elem l
    /\ (forall k v,
          k <> lit "version" -> k <> lit "lastUpdated" ->
          get_own k ps = Some v -> v <> VUndef ->
          get_prop stored k = json_clean v).
Proof.
  intros Hnd Hitems Hf.
  assert (saveable (VObj ps) = true) as Hs.
  { unfold saveable. cbn [truthy andb]. now rewrite (get_prop_own _ _ _ Hitems). }
  rewrite (save_served E _ w Hs Hf). unfold saved_text.
  eexists _, _. split; [reflexivity|]. cbn [localStorage with_store].
  split; [apply lookup_insert_eq|].
  split; [intros k Hk; now apply lookup_insert_ne|].
  rewrite (stamped_NoDup _ _ Hnd), json_clean_VObj.
  split; [|split; [|split]].
  - apply get_prop_own.
    apply (get_own_clean_props _ _ (VStr TodoStorage.VERSION));
      [apply get_own_set_prop|discriminate].
  - apply get_prop_own.
    apply (get_own_clean_props _ _ (VStr (Date_toISOString E (tick w))));
      [|discriminate].
    rewrite get_own_set_prop_ne by discriminate. apply get_own_set_prop.
  - rewrite <- json_clean_VObj, <- (stamped_NoDup _ _ Hnd).
    now apply items_of_saved.
  - intros k v Hk1 Hk2 Hget Hv. apply get_prop_own.
    apply get_own_clean_props; [|exact Hv].
    rewrite !get_own_set_prop_ne by congruence. exact Hget.
Qed.

(** X13.  [clearAll], when the backend accepts the write, replaces the
    whole stored document, settings included, by the default document
    stamped with the time of the write; a [load] that follows returns
    exactly that document, with no item. *)
Theorem clearAll_resets (w : world) :
  next_fault w = None ->
  let fresh := default_doc (Date_toISOString E (S (tick w))) in
  exists w',
    TodoStorage.clearAll E w = (Ret true, w')
    /\ localStorage w' = <[TodoStorage.STORAGE_KEY := Json fresh]> (localStorage w)
    /\ calls w' = SetItem TodoStorage.STORAGE_KEY (Json fresh) :: calls w
    /\ (next_fault w' = None ->
        exists w'', TodoStorage.load E w' = (Ret fresh, w'')
                    /\ localStorage w'' = localStorage w').
Proof.
  intros Hf fresh. unfold TodoStorage.clearAll.
  rewrite (bind_Ret _ _ _ _ _ (getDefaultData_eq E w)).
  rewrite save_served; [|reflexivity|exact Hf].
  assert (saved_text E (default_doc (Date_toISOString E (tick w)))
            (set_tick (S (tick w)) w) = Json fresh) as -> by reflexivity.
  eexists. split; [reflexivity|]. split; [reflexivity|]. split; [reflexivity|].
  intros Hf'.
  match goal with |- context [TodoStorage.load E ?w0] => set (w1 := w0) in * end.
  assert (readable w1 = Some (fresh, [])) as Hr.
  { apply readable_stored; [apply lookup_insert_eq|reflexivity|reflexivity|assumption]. }
  destruct (load_readable E w1 _ _ Hr) as (vs & t & Hload & HV).
  inversion HV; subst vs. eexists. split; [exact Hload|reflexivity].
Qed.

End Saving.

(** X14.  [isStorageAvailable] returns true exactly when the backend
    accepts both the probe write and the removal that follows.  It
    never touches another entry than the probe's, in particular not the
    collection; after a successful probe the store has no entry under
    the probe key, even if it had one before; and when only the removal
    is refused the probe entry stays in the store. *)
Theorem isStorageAvailable_probe (w : world) :
  let testKey := lit "__storage_test__" in
  let w1 := after_call (SetItem testKey (NotJson (lit "test"))) w in
  exists ok w',
    TodoStorage.isStorageAvailable w = (Ret ok, w')
    /\ (ok = true <-> next_fault w = None /\ next_fault w1 = None)
    /\ (forall k, k <> testKey -> localStorage w' !! k = localStorage w !! k)
    /\ (ok = true -> localStorage w' !! testKey = None)
    /\ (next_fault w = None -> next_fault w1 <> None ->
        localStorage w' !! testKey = Some (NotJson (lit "test")))
    /\ tick w' = tick w.
Proof.
  intros testKey w1. unfold TodoStorage.isStorageAvailable, try_catch, bind.
  fold testKey. rewrite setItem_eq. fold w1.
  destruct (next_fault w) as [e|] eqn:Hf.
  { eexists _, _. split; [reflexivity|].
    split; [split; [discriminate|now intros [? _]]|].
    split; [reflexivity|]. split; [discriminate|]. split; [discriminate|reflexivity]. }
  rewrite removeItem_eq.
  change (next_fault (with_store ?ls w1)) with (next_fault w1).
  destruct (next_fault w1) as [e|] eqn:Hf1.
  - eexists _, _. split; [reflexivity|].
    split; [split; [discriminate|now intros [_ ?]]|].
    split; [intros k Hk; now apply lookup_insert_ne|].
    split; [discriminate|]. split; [|reflexivity].
    intros _ _. apply lookup_insert_eq.
  - eexists _, _. split; [reflexivity|].
    split; [now split|].
    split; [|split; [|split; [|reflexivity]]].
    + intros k Hk. cbn [localStorage with_store].
      rewrite lookup_delete_ne by congruence. now apply lookup_insert_ne.
    + intros _. apply lookup_delete_eq.
    + intros _ H. now destruct H.
Qed.

Lemma save_outcome_witness :
  exists w',
    TodoStorage.save E0 (doc_ex two_items)
      (world_ex (doc_ex []) [Some (DOMException (lit "SecurityError"))])
    = (Ret false, w')
    /\ localStorage w' = {[ TodoStorage.STORAGE_KEY := Json (doc_ex []) ]}.
Proof.
  destruct (save_outcome E0 (doc_ex two_items)
              (world_ex (doc_ex []) [Some (DOMException (lit "SecurityError"))]))
    as (ok & w' & Hsave & Hok & _ & _ & Hfail).
  exists w'. destruct ok.
  - destruct Hok as [Hok _]. destruct (Hok eq_refl) as [_ H]. discriminate H.
  - split; [exact Hsave|].
    apply (Hfail (DOMException (lit "SecurityError"))); [reflexivity|reflexivity|].
    intros H. vm_compute in H. discriminate H.
Defined.

Lemma save_stamps_witness :
  exists stored w',
    TodoStorage.save E0 (doc_ex [VNum 3]) (World ∅ [] [] 0) = (Ret true, w')
    /\ localStorage w' !! TodoStorage.STORAGE_KEY = Some (Json stored)
    /\ get_prop stored (lit "lastUpdated") = VStr (lit "2024-05-01T10:00:00.000Z")
    /\ items_of stored = [VNum 3].
Proof.
  destruct (save_stamps E0 (doc_ex_props [VNum 3]) [VNum 3] (World ∅ [] [] 0))
    as (stored & w' & Hsave & Hls & _ & _ & Hlast & Hitems & _).
  - repeat constructor; simpl; intuition discriminate.
  - reflexivity.
  - reflexivity.
  - now exists stored, w'.
Defined.

Lemma clearAll_resets_witness :
  exists w',
    TodoStorage.clearAll E0 (world_ex (doc_ex two_items) []) = (Ret true, w')
    /\ localStorage w' !! TodoStorage.STORAGE_KEY
       = Some (Json (default_doc (lit "2024-05-01T10:00:00.000Z"))).
Proof.
  destruct (clearAll_resets E0 (world_ex (doc_ex two_items) []) eq_refl)
    as (w' & Hclear & Hls & _).
  exists w'. split; [exact Hclear|]. rewrite Hls. apply lookup_insert_eq.
Defined.

Lemma isStorageAvailable_probe_witness :
  exists w',
    TodoStorage.isStorageAvailable
      (World {[ lit "__storage_test__" := Json VNull ]} [] [] 0) = (Ret true, w')
    /\ localStorage w' !! lit "__storage_test__" = None.
Proof.
  destruct (isStorageAvailable_probe
              (World {[ lit "__storage_test__" := Json VNull ]} [] [] 0))
    as (ok & w' & Hrun & Hok & _ & Hgone & _).
  assert (ok = true) as -> by now apply Hok.
  exists w'. split; [exact Hrun|]. now apply Hgone.
Defined.

(** ** Adding records *)

Section AddingMore.

Variable E : engine.

(** One new record: [addItem text] and [addItems [text]] build the same
    record and end in the same world. *)
Lemma add_one text w d w1 :
  TodoStorage.load E w = (Ret d, w1) ->
  InputProcessor.sanitizeItem text <> [] ->
  exists item ok w2,
    Created (InputProcessor.sanitizeItem text) item
    /\ TodoStorage.save E (with_items d (items_of d ++ [item]))
         (set_tick (S (S (S (tick w1)))) w1) = (Ret ok, w2)
    /\ TodoStorage.addItem E text w = (Ret (if ok then item else VNull), w2)
    /\ TodoStorage.addItems E (VArr [text]) w = (Ret [item], w2).
Proof.
  intros Hload Hne.
  assert (truthy (VStr (InputProcessor.sanitizeItem text)) = true) as Hs.
  { rewrite truthy_VStr. apply negb_true_iff. now apply jsstring_eqb_neq. }
  destruct (load_world E w d w1 Hload) as [HL _].
  destruct (Loaded_shape w d HL) as (ps & l & -> & Hitems & Hl & _).
  destruct (newItem_of_eq E (InputProcessor.sanitizeItem text) w1) as (item & Hnew & Hc).
  destruct (save_total E (with_items (VObj ps) (items_of (VObj ps) ++ [item]))
              (set_tick (S (S (S (tick w1)))) w1)) as (ok & w2 & Hsave).
  exists item, ok, w2.
  split; [exact Hc|]. split; [exact Hsave|].
  rewrite Hl in Hsave. cbn [with_items] in Hsave.
  split.
  - unfold TodoStorage.addItem. rewrite Hs. cbn [negb].
    rewrite (bind_Ret _ _ _ _ _ Hload), (bind_Ret _ _ _ _ _ Hnew).
    rewrite (bind_Ret _ _ _ _ _ (push_item_eq ps l item _ Hitems)).
    rewrite (bind_Ret _ _ _ _ _ Hsave). now destruct ok.
  - unfold TodoStorage.addItems. rewrite (bind_Ret _ _ _ _ _ Hload).
    cbn [TodoStorage.addItems_loop]. rewrite Hs.
    rewrite bind_assoc, (bind_Ret _ _ _ _ _ Hnew).
    rewrite bind_assoc, (bind_Ret _ _ _ _ _ (push_item_eq ps l item _ Hitems)).
    rewrite bind_ret_l. cbn [app length Nat.ltb Nat.leb].
    now rewrite (bind_Ret _ _ _ _ _ Hsave).
Qed.

(** X15.  For a text that sanitizes to something, [addItem text] and
    [addItems [text]] build the same record and leave the same world;
    they differ in what they report: when the write fails [addItem]
    returns null, while [addItems] still returns the record, which is
    then not in the store. *)
Theorem addItem_and_addItems (text : value) (w : world) :
  InputProcessor.sanitizeItem text <> [] ->
  exists d w1 item (ok : bool) w2,
    TodoStorage.load E w = (Ret d, w1)
    /\ Created (InputProcessor.sanitizeItem text) item
    /\ TodoStorage.addItem E text w = (Ret (if ok then item else VNull), w2)
    /\ TodoStorage.addItems E (VArr [text]) w = (Ret [item], w2)
    /\ (ok = true <-> next_fault w1 = None)
    /\ (ok = true ->
        exists stored,
          localStorage w2 = <[TodoStorage.STORAGE_KEY := Json stored]> (localStorage w)
          /\ items_of stored = List.map clean_elem (items_of d) ++ [item])
    /\ (forall e,
          next_fault w1 = Some e -> exn_name e <> lit "QuotaExceededError" ->
          localStorage w2 = localStorage w).
Proof.
  intros Hne.
  destruct (load_Loaded E w) as (d & t0 & Hload & HL).
  set (w1 := set_tick t0 (after_call (GetItem TodoStorage.STORAGE_KEY) w)) in *.
  destruct (add_one text w d w1 Hload Hne) as (item & ok & w2 & Hc & Hsave & Hadd & Hadds).
  exists d, w1, item, ok, w2.
  split; [exact Hload|]. split; [exact Hc|]. split; [exact Hadd|]. split; [exact Hadds|].
  destruct (Loaded_keys w d HL) as (ps & -> & Hnd).
  destruct (Loaded_shape w _ HL) as (ps' & l & [= <-] & Hitems & Hl & _).
  rewrite Hl in *. cbn [with_items] in Hsave.
  rewrite (save_saveable E _ _ (saveable_with_items _ _)) in Hsave. cbv zeta in Hsave.
  change (next_fault (set_tick ?t w1)) with (next_fault w1) in Hsave.
  destruct (next_fault w1) as [e|] eqn:Hf.
  - assert (ok = false) as ->.
    { destruct (jsstring_eqb _ _) in Hsave; now injection Hsave as <- _. }
    split; [split; discriminate|]. split; [discriminate|].
    intros e' [= <-] Hq. apply jsstring_eqb_neq in Hq. rewrite Hq in Hsave.
    now injection Hsave as <-.
  - injection Hsave as <- <-. split; [now split|]. split; [|discriminate].
    intros _. eexists. split; [reflexivity|].
    rewrite items_of_saved with (l := l ++ [item]);
      [|now apply NoDup_set_prop|apply get_own_set_prop].
    rewrite map_app. cbn [List.map]. now rewrite (clean_elem_Created _ _ Hc).
Qed.

Lemma valid_texts_parseInput input :
  valid_texts (List.map VStr (InputProcessor.parseInput input))
  = List.map (fun p => InputProcessor.sanitizeItem (VStr p))
      (InputProcessor.parseInput input).
Proof.
  unfold valid_texts. rewrite map_map.
  assert (Forall (fun p => InputProcessor.sanitizeItem (VStr p) <> [])
            (InputProcessor.parseInput input)) as Hall.
  { destruct input as [| |b|n|s|l|ps];
      try (rewrite parseInput_not_string; [constructor|discriminate]).
    rewrite parseInput_split. apply List.Forall_forall. intros t Ht.
    apply filter_In in Ht as [Ht Hne]. apply in_map_iff in Ht as (seg & <- & _).
    apply sanitizeItem_second_nonempty. intros Heq. now rewrite Heq in Hne. }
  induction Hall as [|p ps Hp _ IH]; [reflexivity|].
  cbn [List.map List.filter]. apply jsstring_eqb_neq in Hp. rewrite Hp.
  cbn [negb]. now rewrite IH.
Qed.

(** X16.  What the application does with its input field: the texts
    [parseInput] returns are handed to [addItems], which sanitizes them
    again.  Every parsed text survives that second pass: [addItems]
    builds exactly one record per parsed text, in order, and the
    record's text is the parsed text, or the parsed text without its
    final space. *)
Theorem parseInput_then_addItems (input : value) (w : world) :
  exists news w',
    TodoStorage.addItems E (VArr (List.map VStr (InputProcessor.parseInput input))) w
    = (Ret news, w')
    /\ Forall2 (fun p item =>
                  exists s, Created s item /\ s <> [] /\ (s = p \/ p = s ++ [32]))
         (InputProcessor.parseInput input) news.
Proof.
  destruct (load_Loaded E w) as (d & t0 & Hload & _).
  destruct (addItems_eq E (List.map VStr (InputProcessor.parseInput input)) w d _ Hload)
    as (news & t & HF & Hadd).
  rewrite valid_texts_parseInput in HF.
  assert (Forall2 (fun p item =>
                     exists s, Created s item /\ s <> [] /\ (s = p \/ p = s ++ [32]))
            (InputProcessor.parseInput input) news) as Hrel.
  { assert (Forall (fun p => exists v, p = InputProcessor.sanitizeItem v /\ p <> [])
              (InputProcessor.parseInput input)) as Hall.
    { destruct input as [| |b|n|s|l|ps];
        try (rewrite parseInput_not_string; [constructor|discriminate]).
      rewrite parseInput_split. apply List.Forall_forall. intros t' Ht.
      apply filter_In in Ht as [Ht Hne]. apply in_map_iff in Ht as (seg & <- & _).
      exists (VStr seg). split; [reflexivity|]. intros Heq. now rewrite Heq in Hne. }
    clear Hadd. revert news HF. induction Hall as [|p ps (v & -> & Hp) _ IH]; intros news HF.
    - inversion HF. constructor.
    - cbn [List.map] in HF. inversion HF as [|? item ? news' Hc HF']; subst.
      constructor; [|now apply IH].
      exists (InputProcessor.sanitizeItem (VStr (InputProcessor.sanitizeItem v))).
      split; [exact Hc|]. split; [now apply sanitizeItem_second_nonempty|].
      apply (sanitizeItem_second v). }
  destruct news as [|item news]; eexists _, _; (split; [exact Hadd|exact Hrel]).
Qed.

End AddingMore.

Lemma addItem_and_addItems_witness :
  exists item w2,
    TodoStorage.addItem E0 (VStr (lit " tea "))
      (world_ex (doc_ex two_items) [None; Some (DOMException (lit "SecurityError"))])
    = (Ret VNull, w2)
    /\ TodoStorage.addItems E0 (VArr [VStr (lit " tea ")])
         (world_ex (doc_ex two_items) [None; Some (DOMException (lit "SecurityError"))])
       = (Ret [item], w2)
    /\ Created (lit "tea") item
    /\ localStorage w2 = {[ TodoStorage.STORAGE_KEY := Json (doc_ex two_items) ]}.
Proof.
  destruct (addItem_and_addItems E0 (VStr (lit " tea "))
              (world_ex (doc_ex two_items)
                 [None; Some (DOMException (lit "SecurityError"))]))
    as (d & w1 & item & ok & w2 & Hload & Hc & Hadd & Hadds & Hok & _ & Hfail).
  - discriminate.
  - vm_compute in Hload. injection Hload as <- <-.
    destruct ok; [destruct Hok as [Hok _]; discriminate (Hok eq_refl)|].
    exists item, w2. split; [exact Hadd|]. split; [exact Hadds|]. split; [exact Hc|].
    apply (Hfail (DOMException (lit "SecurityError"))); [reflexivity|].
    intros H. vm_compute in H. discriminate H.
Defined.

Lemma parseInput_then_addItems_witness :
  exists a b w',
    TodoStorage.addItems E0
      (VArr (List.map VStr (InputProcessor.parseInput (VStr (lit "tea, ,jam")))))
      (World ∅ [] [] 0)
    = (Ret [a; b], w')
    /\ Created (lit "tea") a /\ Created (lit "jam") b.
Proof.
  destruct (parseInput_then_addItems E0 (VStr (lit "tea, ,jam")) (World ∅ [] [] 0))
    as (news & w' & Hadd & Hrel).
  change (InputProcessor.parseInput (VStr (lit "tea, ,jam")))
    with [lit "tea"; lit "jam"] in Hrel.
  inversion Hrel as [|p a ps news1 (sa & Hca & _ & Ha) Hrel1]; subst.
  inversion Hrel1 as [|p b ps news2 (sb & Hcb & _ & Hb) Hrel2]; subst.
  inversion Hrel2; subst.
  exists a, b, w'. split; [exact Hadd|]. split.
  - destruct Ha as [-> | Ha]; [exact Hca|].
    apply (f_equal (@rev N)) in Ha. rewrite rev_app_distr in Ha. discriminate Ha.
  - destruct Hb as [-> | Hb]; [exact Hcb|].
    apply (f_equal (@rev N)) in Hb. rewrite rev_app_distr in Hb. discriminate Hb.
Defined.

(** ** Saving, then loading again *)

Lemma strict_eq_json_clean a x : strict_eq (json_clean a) x = strict_eq a x.
Proof. destruct a, x; reflexivity. Qed.

Lemma clean_elem_mkItem id t c ca :
  truthy id = true -> nullish ca = false ->
  clean_elem (TodoStorage.mkItem id (VStr t) (VBool c) ca)
  = TodoStorage.mkItem (json_clean id) (VStr t) (VBool c) (json_clean ca).
Proof.
  intros Hid Hca.
  destruct id; try discriminate; destruct ca; try discriminate; reflexivity.
Qed.

Lemma Validated_Reloaded a v :
  Item a -> Validated (clean_elem a) v -> Reloaded a v /\ truthy v = true.
Proof.
  intros (id & raw & c & ca & -> & Hid & Hca) HV.
  rewrite (clean_elem_mkItem _ _ _ _ Hid Hca) in HV.
  inversion HV as [Hobj | id' ca' _ Hid' Hkeep Hcakeep Hcann]; [discriminate|].
  subst v. split; [|reflexivity].
  change (id_of (TodoStorage.mkItem (json_clean id)
                   (VStr (InputProcessor.sanitizeItem raw)) (VBool c) (json_clean ca)))
    with (json_clean id) in Hkeep.
  change (createdAt_of (TodoStorage.mkItem (json_clean id)
                          (VStr (InputProcessor.sanitizeItem raw)) (VBool c) (json_clean ca)))
    with (json_clean ca) in Hcakeep.
  rewrite json_clean_truthy in Hkeep, Hcakeep. specialize (Hkeep Hid). subst id'.
  split; [|split; [|split; [|split]]].
  - intros x. unfold has_id.
    change (id_of (TodoStorage.mkItem (json_clean id) ?t ?c' ?ca0)) with (json_clean id).
    change (id_of (TodoStorage.mkItem id ?t ?c' ?ca0)) with id.
    apply strict_eq_json_clean.
  - reflexivity.
  - reflexivity.
  - intros Ht. change (createdAt_of (TodoStorage.mkItem ?i ?t ?c' ?ca0)) with ca0 in *.
    now apply Hcakeep.
  - apply (Validated_truthy_Item _ _ HV). reflexivity.
Qed.

Lemma Validated_Reloaded_all l vs :
  Forall Item l -> Forall2 Validated (List.map clean_elem l) vs ->
  List.filter truthy vs = vs /\ Forall2 Reloaded l vs.
Proof.
  intros HI. revert vs. induction HI as [|a l Ha _ IH]; intros vs HV.
  - inversion HV. split; [reflexivity|constructor].
  - cbn [List.map] in HV. inversion HV as [|? v ? vs' Hv HV']; subst.
    destruct (Validated_Reloaded a v Ha Hv) as [Hr Ht].
    destruct (IH vs' HV') as [Hf Hrs].
    split; [|now constructor]. cbn [List.filter]. now rewrite Ht, Hf.
Qed.

Lemma Reloaded_no_id id k k' :
  Forall2 Reloaded k k' ->
  Forall (fun item => has_id id item = false) k ->
  Forall (fun item => has_id id item = false) k'.
Proof.
  induction 1 as [|a b k0 k0' (Hab & _) _ IH]; intros Hk; [constructor|].
  inversion Hk; subst. constructor; [now rewrite Hab|now apply IH].
Qed.

Section Reloading.

Variable E : engine.

(** The records of a saved document, as the next [load] returns them. *)
Lemma reload ps l now w2 :
  List.NoDup (keys ps) ->
  get_own (lit "items") ps = Some (VArr l) ->
  Forall Item l ->
  localStorage w2 !! TodoStorage.STORAGE_KEY
  = Some (Json (json_clean (stamped now (VObj ps)))) ->
  next_fault w2 = None ->
  exists d' t,
    TodoStorage.load E w2
    = (Ret d', set_tick t (after_call (GetItem TodoStorage.STORAGE_KEY) w2))
    /\ Forall2 Reloaded l (items_of d').
Proof.
  intros Hnd Hitems HI Hls Hf.
  destruct (get_own_items_saved now ps l Hnd Hitems) as (ps' & Hps' & Hitems').
  rewrite Hps' in Hls.
  assert (readable w2 = Some (VObj ps', List.map clean_elem l)) as Hr.
  { apply readable_stored; [assumption|reflexivity| |assumption].
    now apply get_prop_own. }
  destruct (load_readable E w2 _ _ Hr) as (vs & t & Hload & HV).
  destruct (Validated_Reloaded_all l vs HI HV) as [Hfilter Hrel].
  eexists _, t. split; [exact Hload|].
  now rewrite items_of_merged_doc, Hfilter.
Qed.

Lemma updated_record_text id updates cur :
  truthy (get_prop updates (lit "text")) = true ->
  id_of (updated_record id updates cur) = id
  /\ text_of (updated_record id updates cur)
     = VStr (InputProcessor.sanitizeItem (get_prop updates (lit "text")))
  /\ completed_of (updated_record id updates cur)
     = completed_of (merged_record updates cur)
  /\ createdAt_of (updated_record id updates cur)
     = createdAt_of (merged_record updates cur).
Proof.
  intros Htruthy. unfold updated_record, merged_record. rewrite Htruthy.
  unfold id_of, text_of, completed_of, createdAt_of.
  repeat split.
  - apply get_prop_own. rewrite get_own_set_prop_ne by discriminate.
    apply get_own_set_prop.
  - apply get_prop_own, get_own_set_prop.
  - cbn [get_prop]. now rewrite !get_own_set_prop_ne by discriminate.
  - cbn [get_prop]. now rewrite !get_own_set_prop_ne by discriminate.
Qed.

(** X17.  [updateItem] with a truthy text, for an id that a record of
    the loaded collection has: the first such record is replaced, at its
    place, by a record with the same id, whose text is the new text
    sanitized twice, and the collection is saved once; where the backend
    accepts the write the stored items are the loaded ones with that one
    record replaced.  A new text of whitespace only is truthy and leaves
    the record with an empty text. *)
Theorem updateItem_new_text (id updates : value) (w w1 : world) (d : value) (idx : nat) :
  TodoStorage.load E w = (Ret d, w1) ->
  find_index (has_id id) (items_of d) = Some idx ->
  nullish updates = false ->
  truthy (get_prop updates (lit "text")) = true ->
  exists cur v t (ok : bool) w2,
    nth_error (items_of d) idx = Some cur
    /\ TodoStorage.save E (with_items d (<[idx := v]> (items_of d))) (set_tick t w1)
       = (Ret ok, w2)
    /\ TodoStorage.updateItem E id updates w = (Ret (if ok then v else VNull), w2)
    /\ Item v
    /\ id_of v = id
    /\ text_of v
       = VStr (InputProcessor.sanitizeItem
                 (VStr (InputProcessor.sanitizeItem (get_prop updates (lit "text")))))
    /\ (InputProcessor.sanitizeItem (get_prop updates (lit "text")) = [] ->
        text_of v = VStr [])
    /\ completed_of v = VBool (truthy (completed_of (merged_record updates cur)))
    /\ (next_fault w1 = None ->
        ok = true
        /\ exists stored,
             localStorage w2 = <[TodoStorage.STORAGE_KEY := Json stored]> (localStorage w)
             /\ items_of stored = List.map clean_elem (<[idx := v]> (items_of d))).
Proof.
  intros Hload Hfind Hnu Htruthy.
  destruct (find_index_Some _ _ _ Hfind) as (cur & Hnth & Hid & _).
  destruct (load_world E w d w1 Hload) as [HL (t0 & Hw1)].
  destruct (Loaded_keys w d HL) as (ps & -> & Hnd).
  destruct (Loaded_shape w _ HL) as (ps' & l & [= <-] & Hitems & Hl & HI).
  assert (Item cur) as (id0 & raw & c & ca & -> & Hid0 & Hca0).
  { apply (proj1 (List.Forall_forall _ _) HI). rewrite <- Hl.
    now apply nth_error_In in Hnth. }
  assert (id0 = id) as ->.
  { apply strict_eq_true. exact Hid. }
  set (cur := TodoStorage.mkItem id (VStr (InputProcessor.sanitizeItem raw)) (VBool c) ca) in *.
  destruct (updated_record_text id updates cur Htruthy) as (Hrid & Hrtext & Hrc & Hrca).
  destruct (validateItem_Validated E (updated_record id updates cur) w1)
    as (v & t & Hv & HV).
  destruct (save_total E (with_items (VObj ps) (<[idx := v]> (items_of (VObj ps))))
              (set_tick t w1)) as (ok & w2 & Hsave).
  exists cur, v, t, ok, w2.
  split; [exact Hnth|]. split; [exact Hsave|]. split.
  { rewrite (updateItem_found E id updates w _ w1 idx cur Hload Hfind Hnth), Hnu.
    rewrite (bind_Ret _ _ _ _ _ Hv), (bind_Ret _ _ _ _ _ Hsave). reflexivity. }
  destruct HV as [Hobj | id' ca' _ Hid' Hkeep Hca Hcann]; [discriminate|].
  rewrite Hrid, Hrtext, Hrc, Hrca in *.
  specialize (Hkeep Hid0). subst id'.
  split; [eexists _, _, _, _; split; [reflexivity | now split]|].
  split; [reflexivity|]. split; [reflexivity|]. split.
  { intros Hempty.
    change (text_of (TodoStorage.mkItem id (VStr ?s) ?c' ?ca0)) with (VStr s).
    now rewrite Hempty. }
  split; [reflexivity|].
  intros Hf. rewrite Hl in Hsave. cbn [with_items] in Hsave.
  rewrite (save_served E _ _ (saveable_with_items _ _)) in Hsave by exact Hf.
  injection Hsave as <- <-. split; [reflexivity|].
  eexists. split; [rewrite Hw1; reflexivity|].
  rewrite Hl. apply items_of_saved; [now apply NoDup_set_prop|apply get_own_set_prop].
Qed.

(** X18.  After [deleteItem] has removed the records with an id and the
    write was accepted, a [load] returns the other records, in order,
    and none with that id; deleting the same id again returns false and
    leaves the store as it is. *)
Theorem deleteItem_then_load (id : value) (w w1 : world) (d : value) :
  TodoStorage.load E w = (Ret d, w1) ->
  Exists (fun item => has_id id item = true) (items_of d) ->
  next_fault w1 = None ->
  exists w2,
    TodoStorage.deleteItem E id w = (Ret true, w2)
    /\ (next_fault w2 = None ->
        exists d' w3,
          TodoStorage.load E w2 = (Ret d', w3)
          /\ Forall2 Reloaded (without_id id (items_of d)) (items_of d')
          /\ Forall (fun item => has_id id item = false) (items_of d')
          /\ TodoStorage.deleteItem E id w2 = (Ret false, w3)
          /\ localStorage w3 = localStorage w2).
Proof.
  intros Hload Hex Hf.
  destruct (load_world E w d w1 Hload) as [HL (t0 & Hw1)].
  destruct (Loaded_keys w d HL) as (ps & -> & Hnd).
  destruct (Loaded_shape w _ HL) as (ps' & l & [= <-] & Hitems & Hl & HI).
  rewrite (deleteItem_eq E id w _ w1 Hload).
  rewrite (proj2 (without_id_length id _) Hex).
  rewrite Hl in *. cbn [with_items].
  rewrite (save_served E _ _ (saveable_with_items _ _)) by exact Hf.
  eexists. split; [reflexivity|].
  match goal with |- next_fault ?w0 = None -> _ => set (w2 := w0) end.
  intros Hf2.
  destruct (reload (set_prop (lit "items") (VArr (without_id id l)) ps)
              (without_id id l) (Date_toISOString E (tick w1)) w2)
    as (d' & t & Hload' & Hrel).
  { now apply NoDup_set_prop. }
  { apply get_own_set_prop. }
  { now apply without_id_Items. }
  { apply lookup_insert_eq. }
  { exact Hf2. }
  assert (Forall (fun item => has_id id item = false) (items_of d')) as Hnone.
  { assert (Forall (fun item => has_id id item = false) (without_id id l)) as Hk.
    { apply List.Forall_forall. intros x Hx. apply filter_In in Hx as [_ Hx].
      now apply negb_true_iff. }
    exact (Reloaded_no_id id _ _ Hrel Hk). }
  eexists _, _. split; [exact Hload'|]. split; [exact Hrel|]. split; [exact Hnone|].
  rewrite (deleteItem_eq E id w2 _ _ Hload').
  destruct (length (without_id id (items_of d')) <? length (items_of d'))%nat eqn:Hlt.
  - apply without_id_length in Hlt. apply List.Exists_exists in Hlt as (x & Hx & Hid).
    rewrite List.Forall_forall in Hnone. now rewrite (Hnone x Hx) in Hid.
  - split; reflexivity.
Qed.

(** Validation of a record that validation built. *)
Lemma validateItem_mkItem id t c ca w :
  truthy id = true -> truthy ca = true ->
  TodoStorage.validateItem E (TodoStorage.mkItem id (VStr t) (VBool c) ca) w
  = (Ret (TodoStorage.mkItem id (VStr (InputProcessor.sanitizeItem (VStr t)))
            (VBool c) ca), w).
Proof.
  intros Hid Hca.
  set (item := TodoStorage.mkItem id (VStr t) (VBool c) ca).
  assert (nullish item = false) as Hnn by reflexivity.
  unfold TodoStorage.validateItem.
  change (negb (truthy item) || negb (jstype_eqb (typeof item) TObject)) with false.
  cbv iota.
  rewrite (bind_Ret _ _ _ _ _ (member_object_like item (lit "id") w Hnn)).
  change (get_prop item (lit "id")) with id. rewrite Hid, bind_ret_l.
  rewrite (bind_Ret _ _ _ _ _ (member_object_like item (lit "text") w Hnn)).
  rewrite (bind_Ret _ _ _ _ _ (member_object_like item (lit "completed") w Hnn)).
  rewrite (bind_Ret _ _ _ _ _ (member_object_like item (lit "createdAt") w Hnn)).
  change (get_prop item (lit "text")) with (VStr t).
  change (get_prop item (lit "completed")) with (VBool c).
  change (get_prop item (lit "createdAt")) with ca. rewrite Hca, bind_ret_l.
  rewrite sanitizeItem_or_empty. now destruct c.
Qed.

(** X19.  [validateItem] returns null exactly for what is not an object;
    on a record it built itself (with a truthy creation time) it reads
    neither the clock nor the random source and changes nothing but the
    text, which it sanitizes again; and one more validation changes
    nothing at all. *)
Theorem validateItem_settles (item : value) (w : world) :
  exists v w1,
    TodoStorage.validateItem E item w = (Ret v, w1)
    /\ (v = VNull <-> object_like item = false)
    /\ (v <> VNull -> truthy (createdAt_of v) = true ->
        exists v',
          TodoStorage.validateItem E v w1 = (Ret v', w1)
          /\ id_of v' = id_of v
          /\ text_of v' = VStr (InputProcessor.sanitizeItem (text_of v))
          /\ completed_of v' = completed_of v
          /\ createdAt_of v' = createdAt_of v
          /\ TodoStorage.validateItem E v' w1 = (Ret v', w1)).
Proof.
  destruct (validateItem_Validated E item w) as (v & t & Hv & HV).
  exists v, (set_tick t w). split; [exact Hv|].
  destruct HV as [Hobj | id ca Hobj Hid _ _ Hcann].
  - split; [now split|]. intros H. now destruct H.
  - split; [split; [discriminate|congruence]|].
    intros _ Hca.
    change (createdAt_of (TodoStorage.mkItem ?i ?t' ?c' ?ca0)) with ca0 in Hca.
    eexists. split; [now apply validateItem_mkItem|].
    split; [reflexivity|]. split; [reflexivity|]. split; [reflexivity|].
    split; [reflexivity|].
    rewrite validateItem_mkItem by assumption.
    now rewrite (proj2 (sanitizeItem_second (text_of item))).
Qed.

End Reloading.

Lemma updateItem_new_text_witness :
  exists v w2,
    TodoStorage.updateItem E0 (VStr (lit "a")) (VObj [(lit "text", VStr (lit "   "))])
      (world_ex (doc_ex two_items) []) = (Ret v, w2)
    /\ id_of v = VStr (lit "a")
    /\ text_of v = VStr [].
Proof.
  destruct (TodoStorage.load E0 (world_ex (doc_ex two_items) [])) as [o w1] eqn:Hload.
  pose proof Hload as Hconcrete. vm_compute in Hconcrete. injection Hconcrete as <- <-.
  destruct (updateItem_new_text E0 (VStr (lit "a")) (VObj [(lit "text", VStr (lit "   "))])
              _ _ _ 0%nat Hload eq_refl eq_refl eq_refl)
    as (cur & v & t & ok & w2 & _ & _ & Hupd & _ & Hid & _ & Hempty & _ & Hserved).
  destruct (Hserved eq_refl) as [-> _].
  exists v, w2. split; [exact Hupd|]. split; [exact Hid|]. now apply Hempty.
Defined.

Lemma deleteItem_then_load_witness :
  exists w2 w3,
    TodoStorage.deleteItem E0 (VStr (lit "a")) (world_ex (doc_ex two_items) [])
    = (Ret true, w2)
    /\ TodoStorage.deleteItem E0 (VStr (lit "a")) w2 = (Ret false, w3)
    /\ localStorage w3 = localStorage w2.
Proof.
  destruct (TodoStorage.load E0 (world_ex (doc_ex two_items) [])) as [o w1] eqn:Hload.
  pose proof Hload as Hconcrete. vm_compute in Hconcrete. injection Hconcrete as <- <-.
  destruct (deleteItem_then_load E0 (VStr (lit "a")) _ _ _ Hload) as (w2 & Hdel & Hnext).
  - constructor. reflexivity.
  - reflexivity.
  - pose proof Hdel as Hconcrete. vm_compute in Hconcrete.
    injection Hconcrete as Hw2.
    destruct Hnext as (d' & w3 & _ & _ & _ & Hagain & Hsame).
    + now rewrite <- Hw2.
    + now exists w2, w3.
Defined.

Lemma validateItem_settles_witness :
  exists v w1 v',
    TodoStorage.validateItem E0 (VObj [(lit "text", VStr (lit " a  b "))]) (World ∅ [] [] 0)
    = (Ret v, w1)
    /\ text_of v = VStr (lit "a b")
    /\ TodoStorage.validateItem E0 v w1 = (Ret v', w1)
    /\ TodoStorage.validateItem E0 v' w1 = (Ret v', w1).
Proof.
  destruct (validateItem_settles E0 (VObj [(lit "text", VStr (lit " a  b "))])
              (World ∅ [] [] 0))
    as (v & w1 & Hv & _ & Hagain).
  pose proof Hv as Hconcrete. vm_compute in Hconcrete. injection Hconcrete as Hv0 Hw1.
  destruct Hagain as (v' & Hv' & _ & _ & _ & _ & Hfix).
  - now rewrite <- Hv0.
  - now rewrite <- Hv0.
  - exists v, w1, v'. split; [exact Hv|]. split; [now rewrite <- Hv0|]. now split.
Defined.

(** ** Generated ids *)

Lemma lit_inj s1 s2 : lit s1 = lit s2 -> s1 = s2.
Proof.
  unfold lit. intros H.
  rewrite <- (string_of_list_ascii_of_string s1), <- (string_of_list_ascii_of_string s2).
  f_equal. revert H.
  generalize (list_ascii_of_string s1), (list_ascii_of_string s2).
  induction l as [|a l IH]; intros [|b l']; simpl; intros H; try discriminate;
    [reflexivity|].
  injection H as Hab Hl. f_equal; [|now apply IH].
  rewrite <- (ascii_N_embedding a), <- (ascii_N_embedding b). now rewrite Hab.
Qed.

Lemma number_toString_inj n1 n2 : number_toString n1 = number_toString n2 -> n1 = n2.
Proof.
  unfold number_toString. intros H. apply lit_inj in H.
  assert (forall n, NilZero.int_of_string (NilZero.string_of_int (Z.to_int n))
                    = Some (Z.to_int n)) as Hisi.
  { intros n. apply NilZero.isi; destruct n as [|p|p]; simpl;
      try discriminate; intros [= Hp]; now apply DecimalPos.Unsigned.to_uint_nonnil in Hp. }
  pose proof (Hisi n1) as H1. rewrite H, Hisi in H1. injection H1 as H1.
  rewrite <- (DecimalZ.of_to n1), <- (DecimalZ.of_to n2). now rewrite H1.
Qed.

Lemma string_of_uint_digits d c :
  In c (lit (NilEmpty.string_of_uint d)) -> 48 <= c <= 57.
Proof.
  induction d as [|d IH|d IH|d IH|d IH|d IH|d IH|d IH|d IH|d IH|d IH];
    simpl; [intros []|..];
    (intros [<- | Hin]; [vm_compute; split; discriminate|now apply IH]).
Qed.

(** The decimal digits of a time that is not negative. *)
Lemma number_toString_digits n c :
  (0 <= n)%Z -> In c (number_toString n) -> 48 <= c <= 57.
Proof.
  unfold number_toString. intros Hn.
  destruct n as [|p|p]; [| |now destruct Hn].
  - simpl. intros [<- | []]. vm_compute. split; discriminate.
  - cbn [Z.to_int NilZero.string_of_int]. unfold NilZero.string_of_uint.
    pose proof (DecimalPos.Unsigned.to_uint_nonnil p) as Hnil.
    destruct (Pos.to_uint p) eqn:Hp; [now destruct Hnil|..];
      rewrite <- Hp; apply string_of_uint_digits.
Qed.

(** Two texts cut at their first hyphen. *)
Lemma split_at_first (x : N) (a1 a2 r1 r2 : jsstring) :
  ~ In x a1 -> ~ In x a2 -> a1 ++ x :: r1 = a2 ++ x :: r2 -> a1 = a2 /\ r1 = r2.
Proof.
  revert a2. induction a1 as [|c a1 IH]; intros [|c2 a2] H1 H2 H; simpl in H.
  - injection H as ->. now split.
  - injection H as -> _. destruct H2. now left.
  - injection H as <- _. destruct H1. now left.
  - injection H as <- H. destruct (IH a2) as [-> ->]; [| |exact H|now split].
    + intros Hin. apply H1. now right.
    + intros Hin. apply H2. now right.
Qed.

Section Ids.

Variable E : engine.

(** X20.  [generateUUID] reads the clock, then the random source, and
    returns "todo-", the time in decimal, a hyphen and nine code units of
    the random text.  For times that are not negative, two ids are equal
    exactly when they were made at the same time value from random texts
    with the same nine code units: ids made at different milliseconds
    differ, and within one millisecond only the random source tells them
    apart. *)
Theorem generateUUID_distinct (w w' : world) :
  (0 <= Date_now E (tick w))%Z ->
  (0 <= Date_now E (tick w'))%Z ->
  exists u u',
    TodoStorage.generateUUID E w = (Ret u, set_tick (S (S (tick w))) w)
    /\ TodoStorage.generateUUID E w' = (Ret u', set_tick (S (S (tick w'))) w')
    /\ (exists rest, u = lit "todo-" ++ rest)
    /\ (u = u'
        <-> Date_now E (tick w) = Date_now E (tick w')
            /\ substr 2 9 (Math_random_toString36 E (S (tick w)))
               = substr 2 9 (Math_random_toString36 E (S (tick w')))).
Proof.
  intros Hn Hn'. eexists _, _.
  split; [reflexivity|]. split; [reflexivity|].
  cbn [tick set_tick localStorage faults calls].
  split; [eexists; reflexivity|].
  split.
  - intros H. apply app_inv_head in H.
    change (lit "-") with [45] in H. cbn [app] in H.
    apply split_at_first in H as [Hnum Hrest].
    + split; [now apply number_toString_inj|exact Hrest].
    + intros Hin. apply (number_toString_digits _ _ Hn) in Hin. now destruct Hin.
    + intros Hin. apply (number_toString_digits _ _ Hn') in Hin. now destruct Hin.
  - intros [-> ->]. reflexivity.
Qed.

End Ids.

Lemma generateUUID_distinct_witness :
  exists u u',
    TodoStorage.generateUUID E0 (World ∅ [] [] 0) = (Ret u, World ∅ [] [] 2)
    /\ TodoStorage.generateUUID E0 (World ∅ [] [] 2) = (Ret u', World ∅ [] [] 4)
    /\ u <> u'.
Proof.
  destruct (generateUUID_distinct E0 (World ∅ [] [] 0) (World ∅ [] [] 2))
    as (u & u' & Hu & Hu' & _ & Hiff).
  - discriminate.
  - discriminate.
  - exists u, u'. split; [exact Hu|]. split; [exact Hu'|].
    intros Heq. apply Hiff in Heq as [Heq _]. discriminate Heq.
Defined.

(** ** Importing *)

Section Importing.

Variable E : engine.


End Importing.


(** ** The handlers of the application *)

Lemma findM_eq id l w :
  Forall (fun v => nullish v = false) l ->
  findM (fun item => let* i := member item (lit "id") in ret (strict_eq i id)) l w
  = (Ret (find_first (has_id id) l), w).
Proof.
  induction 1 as [|x l Hx _ IH]; simpl; [reflexivity|].
  rewrite bind_assoc, (bind_Ret _ _ _ _ _ (member_object_like x _ w Hx)), bind_ret_l.
  fold (id_of x). fold (has_id id x).
  destruct (has_id id x); [reflexivity|exact IH].
Qed.

Lemma find_first_index p l idx x :
  find_index p l = Some idx -> nth_error l idx = Some x -> find_first p l = x.
Proof.
  revert idx. induction l as [|y l IH]; intros idx; simpl; [discriminate|].
  destruct (p y).
  - intros [= <-]. simpl. now intros [= ->].
  - destruct (find_index p l) as [i|]; [|discriminate].
    intros [= <-]. simpl. now apply IH.
Qed.

Lemma find_first_none p l :
  Forall (fun x => p x = false) l -> find_first p l = VUndef.
Proof.
  induction 1 as [|x l Hx _ IH]; simpl; [reflexivity|]. now rewrite Hx.
Qed.

Lemma find_index_Reloaded id l la :
  Forall2 Reloaded l la -> find_index (has_id id) la = find_index (has_id id) l.
Proof.
  induction 1 as [|a b l la (Hab & _) _ IH]; simpl; [reflexivity|].
  now rewrite Hab, IH.
Qed.

Lemma Forall2_nth_error {A B} (R : A -> B -> Prop) l la i x :
  Forall2 R l la -> nth_error l i = Some x ->
  exists y, nth_error la i = Some y /\ R x y.
Proof.
  intros H. revert i. induction H as [|a b l la Hab _ IH]; intros [|i]; simpl;
    try discriminate.
  - intros [= ->]. now exists b.
  - apply IH.
Qed.



Lemma Reloaded_truthy a b : Reloaded a b -> truthy b = true /\ nullish b = false.
Proof.
  intros (_ & _ & _ & _ & (id & raw & c & ca & -> & _)). now split.
Qed.

Lemma Reloaded_not_nullish l la :
  Forall2 Reloaded l la -> Forall (fun v => nullish v = false) la.
Proof.
  induction 1 as [|a b l la Hab _ IH]; constructor; [|exact IH].
  now apply (Reloaded_truthy a b).
Qed.


Lemma Reloaded_without_id id l l2 :
  Forall2 Reloaded l l2 -> Forall2 Reloaded (without_id id l) (without_id id l2).
Proof.
  unfold without_id.
  induction 1 as [|a b l l2 Hab _ IH]; simpl; [constructor|].
  destruct Hab as (Hid & Hrest). rewrite Hid.
  destruct (has_id id a); simpl; [exact IH|].
  constructor; [now split|exact IH].
Qed.

Lemma Reloaded_Exists id l l2 :
  Forall2 Reloaded l l2 ->
  Exists (fun item => has_id id item = true) l ->
  Exists (fun item => has_id id item = true) l2.
Proof.
  induction 1 as [|a b l l2 (Hab & _) _ IH]; intros Hex; inversion Hex; subst.
  - constructor. now rewrite Hab.
  - apply List.Exists_cons_tl. now apply IH.
Qed.

Lemma without_id_none id l :
  Forall (fun item => has_id id item = false) (without_id id l).
Proof.
  apply List.Forall_forall. intros x Hx. apply filter_In in Hx as [_ Hx].
  now apply negb_true_iff.
Qed.

Section Handlers.

Variable E : engine.

Lemma reload_holds w l :
  holds w l -> Forall Item l -> next_fault w = None ->
  exists d t,
    TodoStorage.load E w
    = (Ret d, set_tick t (after_call (GetItem TodoStorage.STORAGE_KEY) w))
    /\ Forall2 Reloaded l (items_of d).
Proof.
  intros [(-> & Hnone) | (sps & Hls & Hitems)] HI Hf.
  { rewrite load_unreadable.
    - eexists _, _. split; [reflexivity|]. constructor.
    - unfold readable. now rewrite Hf, Hnone. }
  assert (readable w = Some (VObj sps, List.map clean_elem l)) as Hr.
  { apply readable_stored; [assumption|reflexivity| |assumption].
    now apply get_prop_own. }
  destruct (load_readable E w _ _ Hr) as (vs & t & Hload & HV).
  destruct (Validated_Reloaded_all l vs HI HV) as [Hfilter Hrel].
  eexists _, t. split; [exact Hload|].
  now rewrite items_of_merged_doc, Hfilter.
Qed.

(** What a served [save] of a document with the items [l] leaves. *)
Lemma save_holds ps l w :
  List.NoDup (keys ps) -> faults w = [] ->
  exists w2,
    TodoStorage.save E (VObj (set_prop (lit "items") (VArr l) ps)) w = (Ret true, w2)
    /\ faults w2 = [] /\ holds w2 l.
Proof.
  intros Hnd Hf.
  assert (next_fault w = None) as Hnf by (unfold next_fault; now rewrite Hf).
  rewrite (save_served E _ _ (saveable_with_items _ _) Hnf).
  eexists. split; [reflexivity|]. split.
  - cbn [faults with_store after_call set_tick]. now rewrite Hf.
  - destruct (get_own_items_saved (Date_toISOString E (tick w))
                (set_prop (lit "items") (VArr l) ps) l)
      as (sps & Hsps & Hget); [now apply NoDup_set_prop|apply get_own_set_prop|].
    right. exists sps. split; [|exact Hget].
    cbn [localStorage with_store]. unfold saved_text. rewrite Hsps.
    apply lookup_insert_eq.
Qed.

Lemma find_by_id_eq id a ps la w :
  TodoApp.data a = VObj ps ->
  get_own (lit "items") ps = Some (VArr la) ->
  Forall (fun v => nullish v = false) la ->
  TodoApp.find_by_id id a w = (Ret (find_first (has_id id) la), w).
Proof.
  intros Hd Hitems Hla. unfold TodoApp.find_by_id. rewrite Hd.
  rewrite (bind_Ret _ _ _ _ _ (member_own ps _ _ w Hitems)).
  now apply findM_eq.
Qed.

Lemma loadData_step a w l :
  holds w l -> Forall Item l -> faults w = [] ->
  exists d w',
    TodoApp.loadData E a w = (Ret (TodoApp.App d (TodoApp.todoInput a)), w')
    /\ in_step (TodoApp.App d (TodoApp.todoInput a)) w' l
    /\ localStorage w' = localStorage w.
Proof.
  intros Hh HI Hf.
  assert (next_fault w = None) as Hnf by (unfold next_fault; now rewrite Hf).
  destruct (reload_holds w l Hh HI Hnf) as (d & t & Hload & Hrel).
  destruct (load_world E w d _ Hload) as [HL _].
  destruct (Loaded_shape w d HL) as (ps & la & -> & Hitems & Hla & _).
  eexists _, _. split; [|split].
  - unfold TodoApp.loadData. now rewrite (bind_Ret _ _ _ _ _ Hload).
  - split; [|split; [exact HI|split]].
    + cbn [faults set_tick after_call]. now rewrite Hf.
    + exact Hh.
    + exists ps, la. split; [reflexivity|]. split; [exact Hitems|].
      now rewrite <- Hla.
  - reflexivity.
Qed.





Lemma deleteItem_step id w l :
  holds w l -> Forall Item l -> faults w = [] ->
  Exists (fun item => has_id id item = true) l ->
  exists w2 l1,
    TodoStorage.deleteItem E id w = (Ret true, w2)
    /\ faults w2 = [] /\ holds w2 l1 /\ Forall Item l1
    /\ Forall2 Reloaded (without_id id l) l1.
Proof.
  intros Hh HI Hf Hex.
  assert (next_fault w = None) as Hnf by (unfold next_fault; now rewrite Hf).
  destruct (reload_holds w l Hh HI Hnf) as (d & t & Hload & Hrel).
  set (w1 := set_tick t (after_call (GetItem TodoStorage.STORAGE_KEY) w)) in *.
  destruct (load_world E w d _ Hload) as [HL _].
  destruct (Loaded_keys w d HL) as (ps & -> & Hnd).
  destruct (Loaded_shape w _ HL) as (ps' & l2 & [= <-] & Hitems & Hl2 & HI2).
  rewrite Hl2 in Hrel.
  destruct (save_holds ps (without_id id l2) w1 Hnd) as (w2 & Hsave & Hf2 & Hh2).
  { cbn [faults set_tick after_call w1]. now rewrite Hf. }
  exists w2, (without_id id l2).
  split; [|split; [exact Hf2|split; [exact Hh2|split]]].
  - rewrite (deleteItem_eq E id w _ w1 Hload), Hl2.
    rewrite (proj2 (without_id_length id l2) (Reloaded_Exists id l l2 Hrel Hex)).
    exact Hsave.
  - now apply without_id_Items.
  - now apply Reloaded_without_id.
Qed.

(** X23.  Deleting a task.  With the application in step with the
    store: for an id that no record has, [deleteTodo] does nothing and
    does not call the backend; for an id that some record has, the
    records with that id are removed from the store and from
    [this.data], the others are kept in order, and the application is
    in step again. *)
Theorem deleteTodo_removes (id : value) (a : TodoApp.app) (w : world) (l : list value) :
  in_step a w l ->
  (Forall (fun item => has_id id item = false) l ->
   TodoApp.deleteTodo E id a w = (Ret a, w))
  /\ (Exists (fun item => has_id id item = true) l ->
      exists a' w' l',
        TodoApp.deleteTodo E id a w = (Ret a', w')
        /\ in_step a' w' l'
        /\ Forall2 Reloaded (without_id id l) l'
        /\ Forall (fun item => has_id id item = false) (items_of (TodoApp.data a'))
        /\ length (items_of (TodoApp.data a')) = length (without_id id l)
        /\ TodoApp.todoInput a' = TodoApp.todoInput a).
Proof.
  intros (Hf & HI & Hh & ps & la & Hd & Hitems & Hrel).
  pose proof (find_by_id_eq id a ps la w Hd Hitems (Reloaded_not_nullish _ _ Hrel))
    as Hfindby.
  split.
  - intros Hnone. unfold TodoApp.deleteTodo.
    rewrite (bind_Ret _ _ _ _ _ Hfindby).
    rewrite find_first_none; [reflexivity|].
    apply find_index_None. rewrite (find_index_Reloaded id l la Hrel).
    now apply find_index_None.
  - intros Hex.
    destruct (find_index_Exists _ _ Hex) as (idx & Hfind).
    destruct (find_index_Some _ _ _ Hfind) as (cur & Hnth & _).
    destruct (Forall2_nth_error _ _ _ _ _ Hrel Hnth) as (x & Hx & Hcx).
    assert (find_first (has_id id) la = x) as Hfirst.
    { apply (find_first_index _ _ idx); [|exact Hx].
      now rewrite (find_index_Reloaded id l la Hrel). }
    destruct (Reloaded_truthy _ _ Hcx) as [Htx _].
    destruct (deleteItem_step id w l Hh HI Hf Hex)
      as (w2 & l1 & Hdel & Hf2 & Hh2 & HI1 & Hrel1).
    destruct (loadData_step a w2 l1 Hh2 HI1 Hf2) as (d & w3 & Hload & Hstep & _).
    eexists _, w3, l1. split.
    { unfold TodoApp.deleteTodo.
      rewrite (bind_Ret _ _ _ _ _ Hfindby), Hfirst, Htx. cbn [negb].
      rewrite (bind_Ret _ _ _ _ _ Hdel). exact Hload. }
    split; [exact Hstep|]. split; [exact Hrel1|].
    destruct Hstep as (_ & _ & _ & ps1 & la1 & Hd1 & Hitems1 & Hrela1).
    cbn [TodoApp.data] in Hd1. rewrite Hd1. cbn [TodoApp.data TodoApp.todoInput].
    unfold items_of. rewrite (get_prop_own _ _ _ Hitems1).
    split; [|split; [|reflexivity]].
    + apply (Reloaded_no_id id _ _ Hrela1).
      apply (Reloaded_no_id id _ _ Hrel1). apply without_id_none.
    + rewrite <- (Forall2_length_eq _ _ _ Hrela1).
      symmetry. exact (Forall2_length_eq _ _ _ Hrel1).
Qed.

(** X24.  Clearing the list.  With the application in step with the
    store: when there is no record, or the user does not confirm,
    [handleClearAll] does nothing and does not call the backend;
    otherwise the store and [this.data] both become the default
    document stamped with the time of the write, settings included, and
    the application is in step with the empty collection. *)
Theorem handleClearAll_outcome (confirmed : bool) (a : TodoApp.app) (w : world)
  (l : list value) :
  in_step a w l ->
  (l = [] \/ confirmed = false ->
   TodoApp.handleClearAll E confirmed a w = (Ret a, w))
  /\ (l <> [] -> confirmed = true ->
      let fresh := default_doc (Date_toISOString E (S (tick w))) in
      exists w',
        TodoApp.handleClearAll E confirmed a w
        = (Ret (TodoApp.App fresh (TodoApp.todoInput a)), w')
        /\ in_step (TodoApp.App fresh (TodoApp.todoInput a)) w' []
        /\ localStorage w'
           = <[TodoStorage.STORAGE_KEY := Json fresh]> (localStorage w)).
Proof.
  intros (Hf & HI & Hh & ps & la & Hd & Hitems & Hrel).
  assert (TodoApp.handleClearAll E confirmed a w
          = (if (Z.of_nat (length l) =? 0)%Z then ret a
             else if confirmed then TodoStorage.clearAll E;; TodoApp.loadData E a
                  else ret a) w) as Heq.
  { unfold TodoApp.handleClearAll. rewrite Hd.
    rewrite (bind_Ret _ _ _ _ _ (member_own ps _ _ w Hitems)).
    rewrite (bind_Ret _ _ _ _ _ (member_object_like (VArr la) _ w eq_refl)).
    change (get_prop (VArr la) (lit "length")) with (VNum (Z.of_nat (length la))).
    cbn [strict_eq]. now rewrite (Forall2_length_eq _ _ _ Hrel). }
  rewrite Heq. split.
  - intros [-> | ->]; [reflexivity|]. now destruct (Z.of_nat (length l) =? 0)%Z.
  - intros Hne -> fresh.
    assert ((Z.of_nat (length l) =? 0)%Z = false) as ->.
    { destruct l; [now destruct Hne|reflexivity]. }
    assert (next_fault w = None) as Hnf by (unfold next_fault; now rewrite Hf).
    unfold TodoStorage.clearAll.
    rewrite bind_assoc, (bind_Ret _ _ _ _ _ (getDefaultData_eq E w)).
    rewrite (bind_Ret _ _ _ _ _
               (save_served E (default_doc (Date_toISOString E (tick w)))
                  (set_tick (S (tick w)) w) eq_refl Hnf)).
    assert (saved_text E (default_doc (Date_toISOString E (tick w)))
              (set_tick (S (tick w)) w) = Json fresh) as -> by reflexivity.
    match goal with |- context [TodoApp.loadData E a ?w0] => set (w2 := w0) end.
    assert (faults w2 = []) as Hf2.
    { subst w2. cbn [faults with_store after_call set_tick]. now rewrite Hf. }
    assert (readable w2 = Some (fresh, [])) as Hr.
    { apply readable_stored; [apply lookup_insert_eq|reflexivity|reflexivity|].
      unfold next_fault. now rewrite Hf2. }
    destruct (load_readable E w2 _ _ Hr) as (vs & t & Hload & HV).
    inversion HV; subst vs.
    eexists. split; [|split].
    + unfold TodoApp.loadData. rewrite (bind_Ret _ _ _ _ _ Hload). reflexivity.
    + split; [|split; [constructor|split]].
      * cbn [faults set_tick after_call]. now rewrite Hf2.
      * right. eexists. split; [apply lookup_insert_eq|reflexivity].
      * eexists _, []. split; [reflexivity|]. split; [reflexivity|constructor].
    + reflexivity.
Qed.

(** X25.  The add handler.  When the trimmed input parses to nothing,
    [addTodos] does nothing: no call to the backend, the input field
    kept.  When it parses to some texts, [addTodos] hands them to
    [addItems], which builds one record for each, reloads [this.data]
    and empties the input field, whether or not the write was accepted:
    when the backend refuses the write (for another reason than the
    quota) the store is as before and the typed text is gone.  When the
    backend refuses nothing, the store then holds the loaded records
    followed by the new ones and the application is in step with it. *)
Theorem addTodos_outcome (a : TodoApp.app) (w : world) :
  let parsed := InputProcessor.parseInput (VStr (trim (TodoApp.todoInput a))) in
  (parsed = [] -> TodoApp.addTodos E a w = (Ret a, w))
  /\ (parsed <> [] ->
      exists d0 w0 news w1 d w',
        TodoStorage.load E w = (Ret d0, w0)
        /\ TodoStorage.addItems E (VArr (List.map VStr parsed)) w = (Ret news, w1)
        /\ length news = length parsed
        /\ TodoStorage.load E w1 = (Ret d, w')
        /\ TodoApp.addTodos E a w = (Ret (TodoApp.App d []), w')
        /\ (forall e,
              next_fault w0 = Some e -> exn_name e <> lit "QuotaExceededError" ->
              localStorage w' = localStorage w)
        /\ (faults w = [] -> in_step (TodoApp.App d []) w' (items_of d0 ++ news))).
Proof.
  intros parsed. split.
  - intros Hnil. unfold TodoApp.addTodos.
    destruct (truthy (VStr (trim (TodoApp.todoInput a)))); cbn [negb]; [|reflexivity].
    unfold try_catch. fold parsed. now rewrite Hnil.
  - intros Hne.
    assert (truthy (VStr (trim (TodoApp.todoInput a))) = true) as Htrim.
    { destruct (trim (TodoApp.todoInput a)) eqn:Ht; [|reflexivity].
      exfalso. apply Hne. subst parsed. try rewrite Ht. reflexivity. }
    destruct (load_Loaded E w) as (d0 & t0 & Hload0 & HL0).
    set (w0 := set_tick t0 (after_call (GetItem TodoStorage.STORAGE_KEY) w)) in *.
    destruct (Loaded_keys w d0 HL0) as (ps0 & -> & Hnd0).
    destruct (Loaded_shape w _ HL0) as (ps0' & l0 & [= <-] & Hitems0 & Hl0 & HI0).
    destruct (addItems_eq E (List.map VStr parsed) w _ _ Hload0)
      as (news & t & HF & Hadd).
    subst parsed. rewrite valid_texts_parseInput in HF.
    set (parsed := InputProcessor.parseInput (VStr (trim (TodoApp.todoInput a)))) in *.
    assert (length news = length parsed) as Hlen.
    { rewrite <- (Forall2_length_eq _ _ _ HF). apply length_map. }
    destruct news as [|n0 news'].
    { destruct parsed; [now destruct Hne|discriminate Hlen]. }
    set (news := n0 :: news') in *.
    rewrite Hl0 in Hadd. cbn [with_items] in Hadd.
    destruct (save_total E (VObj (set_prop (lit "items") (VArr (l0 ++ news)) ps0))
                (set_tick t w0)) as (ok & w1 & Hsave).
    rewrite Hsave in Hadd. cbn [snd] in Hadd.
    destruct (load_Loaded E w1) as (d & t1 & Hload1 & HL1).
    exists (VObj ps0), w0, news, w1, d. eexists.
    split; [exact Hload0|]. split; [exact Hadd|]. split; [exact Hlen|].
    split; [exact Hload1|]. split; [|split].
    + unfold TodoApp.addTodos. rewrite Htrim. cbn [negb]. unfold try_catch.
      fold parsed.
      assert ((length parsed =? 0)%nat = false) as ->.
      { rewrite <- Hlen. reflexivity. }
      rewrite (bind_Ret _ _ _ _ _ Hadd).
      cbn [length Nat.ltb Nat.leb news].
      unfold TodoApp.loadData. rewrite bind_assoc, (bind_Ret _ _ _ _ _ Hload1).
      reflexivity.
    + intros e He Hq.
      rewrite (save_saveable E _ _ (saveable_with_items _ _)) in Hsave.
      cbv zeta in Hsave.
      change (next_fault (set_tick t w0)) with (next_fault w0) in Hsave.
      rewrite He in Hsave. apply jsstring_eqb_neq in Hq. rewrite Hq in Hsave.
      injection Hsave as _ <-. reflexivity.
    + intros Hf.
      assert (faults (set_tick t w0) = []) as Hft.
      { cbn [faults set_tick after_call w0]. now rewrite Hf. }
      destruct (save_holds ps0 (l0 ++ news) (set_tick t w0) Hnd0 Hft)
        as (w1' & Hsave' & Hf1 & Hh1).
      rewrite Hsave in Hsave'. injection Hsave' as _ <-.
      assert (Forall Item (l0 ++ news)) as HI.
      { apply Forall_app. split; [exact HI0|].
        destruct (valid_texts_Created (List.map VStr parsed) news) as [HIn _];
          [|exact HIn].
        subst parsed. now rewrite valid_texts_parseInput. }
      destruct (loadData_step (TodoApp.App d []) w1 (l0 ++ news) Hh1 HI Hf1)
        as (d' & w'' & Hload' & Hstep & _).
      unfold TodoApp.loadData in Hload'.
      rewrite (bind_Ret _ _ _ _ _ Hload1) in Hload'.
      injection Hload' as <- <-. rewrite Hl0. exact Hstep.
Qed.

End Handlers.

(** An application in step with a store of two records. *)
Lemma two_items_in_step :
  in_step (TodoApp.App (doc_ex two_items) []) (world_ex (doc_ex two_items) []) two_items.
Proof.
  assert (Item (item_ex "a" "milk" (VNum 10))) as Ha.
  { now exists (VStr (lit "a")), (VStr (lit "milk")), false, (VNum 10). }
  assert (Item (item_ex "b" "bread" (VNum 20))) as Hb.
  { now exists (VStr (lit "b")), (VStr (lit "bread")), false, (VNum 20). }
  split; [reflexivity|]. split; [now repeat constructor|]. split.
  - right. exists (doc_ex_props two_items). split; reflexivity.
  - exists (doc_ex_props two_items), two_items.
    split; [reflexivity|]. split; [reflexivity|].
    repeat constructor; (try reflexivity); assumption.
Qed.

Lemma addTodos_outcome_witness :
  exists d w',
    TodoApp.addTodos E0 (TodoApp.App (doc_ex two_items) (lit " tea, jam "))
      (world_ex (doc_ex two_items) [None; Some (DOMException (lit "SecurityError"))])
    = (Ret (TodoApp.App d []), w')
    /\ localStorage w' = {[ TodoStorage.STORAGE_KEY := Json (doc_ex two_items) ]}.
Proof.
  destruct (addTodos_outcome E0 (TodoApp.App (doc_ex two_items) (lit " tea, jam "))
              (world_ex (doc_ex two_items)
                 [None; Some (DOMException (lit "SecurityError"))])) as [_ H].
  destruct H as (d0 & w0 & news & w1 & d & w' & Hload0 & _ & _ & _ & Hadd & Hfail & _).
  - discriminate.
  - exists d, w'. split; [exact Hadd|].
    vm_compute in Hload0. injection Hload0 as _ <-.
    apply (Hfail (DOMException (lit "SecurityError"))); [reflexivity|].
    intros Hq. vm_compute in Hq. discriminate Hq.
Defined.


Lemma deleteTodo_removes_witness :
  TodoApp.deleteTodo E0 (VStr (lit "zz")) (TodoApp.App (doc_ex two_items) [])
    (world_ex (doc_ex two_items) [])
  = (Ret (TodoApp.App (doc_ex two_items) []), world_ex (doc_ex two_items) [])
  /\ exists a' w',
       TodoApp.deleteTodo E0 (VStr (lit "a")) (TodoApp.App (doc_ex two_items) [])
         (world_ex (doc_ex two_items) []) = (Ret a', w')
       /\ length (items_of (TodoApp.data a')) = 1%nat.
Proof.
  split.
  - apply (deleteTodo_removes E0 (VStr (lit "zz")) _ _ _ two_items_in_step).
    now repeat constructor.
  - destruct (deleteTodo_removes E0 (VStr (lit "a")) _ _ _ two_items_in_step) as [_ H].
    destruct H as (a' & w' & l' & Hdel & _ & _ & _ & Hlen & _).
    + now constructor.
    + exists a', w'. split; assumption.
Defined.

Lemma handleClearAll_outcome_witness :
  TodoApp.handleClearAll E0 false (TodoApp.App (doc_ex two_items) [])
    (world_ex (doc_ex two_items) [])
  = (Ret (TodoApp.App (doc_ex two_items) []), world_ex (doc_ex two_items) [])
  /\ exists w',
       TodoApp.handleClearAll E0 true (TodoApp.App (doc_ex two_items) [])
         (world_ex (doc_ex two_items) [])
       = (Ret (TodoApp.App (default_doc (lit "2024-05-01T10:00:00.000Z")) []), w')
       /\ localStorage w' !! TodoStorage.STORAGE_KEY
          = Some (Json (default_doc (lit "2024-05-01T10:00:00.000Z"))).
Proof.
  split.
  - apply (handleClearAll_outcome E0 false _ _ _ two_items_in_step). now right.
  - destruct (handleClearAll_outcome E0 true _ _ _ two_items_in_step) as [_ H].
    destruct (H ltac:(discriminate) eq_refl) as (w' & Hclear & _ & Hls).
    exists w'. split; [exact Hclear|]. rewrite Hls. apply lookup_insert_eq.
Defined.

(** ** Starting the application; adding and deleting again *)

Lemma without_id_app_new id (l0 : list value) item :
  Forall (fun r => has_id id r = false) l0 -> has_id id item = true ->
  without_id id (l0 ++ [item]) = l0.
Proof.
  intros Hall Hitem. unfold without_id. rewrite List.filter_app. cbn [List.filter].
  rewrite Hitem. cbn [negb]. rewrite app_nil_r.
  induction Hall as [|r l0 Hr _ IH]; [reflexivity|].
  cbn [List.filter]. rewrite Hr. cbn [negb]. now rewrite IH.
Qed.

Section Starting.

Variable E : engine.


Lemma addItem_step text w :
  faults w = [] -> InputProcessor.sanitizeItem text <> [] ->
  exists d0 w0 item w2,
    TodoStorage.load E w = (Ret d0, w0)
    /\ TodoStorage.addItem E text w = (Ret item, w2)
    /\ Created (InputProcessor.sanitizeItem text) item
    /\ faults w2 = []
    /\ holds w2 (items_of d0 ++ [item])
    /\ Forall Item (items_of d0 ++ [item]).
Proof.
  intros Hf Hne.
  destruct (load_Loaded E w) as (d0 & t0 & Hload & HL).
  set (w0 := set_tick t0 (after_call (GetItem TodoStorage.STORAGE_KEY) w)) in *.
  destruct (add_one E text w d0 w0 Hload Hne) as (item & ok & w2 & Hc & Hsave & Hadd & _).
  destruct (Loaded_keys w d0 HL) as (ps & -> & Hnd).
  destruct (Loaded_shape w _ HL) as (ps' & l0 & [= <-] & Hitems & Hl0 & HI0).
  rewrite Hl0 in *. cbn [with_items] in Hsave.
  destruct (save_holds E ps (l0 ++ [item]) (set_tick (S (S (S (tick w0)))) w0) Hnd)
    as (w2' & Hsave' & Hf2 & Hh2).
  { cbn [faults set_tick after_call w0]. now rewrite Hf. }
  rewrite Hsave in Hsave'. injection Hsave' as -> <-.
  exists (VObj ps), w0, item, w2.
  split; [exact Hload|]. split; [exact Hadd|]. split; [exact Hc|].
  split; [exact Hf2|]. rewrite Hl0. split; [exact Hh2|].
  apply Forall_app. split; [exact HI0|]. constructor; [|constructor].
  now apply (Created_Item text).
Qed.

(** X27.  Adding a task and deleting it again.  With a backend that
    refuses nothing, [addItem] for a text that sanitizes to something
    returns the new record, and [deleteItem] for its id, provided no
    earlier record has the same id, removes exactly that record: the
    next [load] returns the records of the first [load], one for one and
    in order, with their ids and flags. *)
Theorem addItem_then_deleteItem (text : value) (w : world) :
  faults w = [] ->
  InputProcessor.sanitizeItem text <> [] ->
  exists d0 w0 item w2,
    TodoStorage.load E w = (Ret d0, w0)
    /\ TodoStorage.addItem E text w = (Ret item, w2)
    /\ Created (InputProcessor.sanitizeItem text) item
    /\ (Forall (fun r => has_id (id_of item) r = false) (items_of d0) ->
        exists w3 l3 d3 w4,
          TodoStorage.deleteItem E (id_of item) w2 = (Ret true, w3)
          /\ TodoStorage.load E w3 = (Ret d3, w4)
          /\ Forall2 Reloaded (items_of d0) l3
          /\ Forall2 Reloaded l3 (items_of d3)
          /\ length (items_of d3) = length (items_of d0)).
Proof.
  intros Hf Hne.
  destruct (addItem_step text w Hf Hne)
    as (d0 & w0 & item & w2 & Hload & Hadd & Hc & Hf2 & Hh2 & HI2).
  exists d0, w0, item, w2.
  split; [exact Hload|]. split; [exact Hadd|]. split; [exact Hc|].
  intros Hfresh.
  assert (has_id (id_of item) item = true) as Hself.
  { destruct Hc as (id & ca & -> & _). unfold has_id.
    change (id_of (TodoStorage.mkItem (VStr id) ?t ?c ?x)) with (VStr id).
    cbn [strict_eq]. apply jsstring_eqb_refl. }
  destruct (deleteItem_step E (id_of item) w2 _ Hh2 HI2 Hf2)
    as (w3 & l3 & Hdel & Hf3 & Hh3 & HI3 & Hrel3).
  { apply Exists_app. right. now constructor. }
  rewrite (without_id_app_new _ _ _ Hfresh Hself) in Hrel3.
  assert (next_fault w3 = None) as Hnf3 by (unfold next_fault; now rewrite Hf3).
  destruct (reload_holds E w3 l3 Hh3 HI3 Hnf3) as (d3 & t3 & Hload3 & Hrel4).
  exists w3, l3, d3. eexists.
  split; [exact Hdel|]. split; [exact Hload3|]. split; [exact Hrel3|].
  split; [exact Hrel4|].
  rewrite <- (Forall2_length_eq _ _ _ Hrel4). symmetry.
  exact (Forall2_length_eq _ _ _ Hrel3).
Qed.

End Starting.


Lemma addItem_then_deleteItem_witness :
  exists item w2 w3 d3 w4,
    TodoStorage.addItem E0 (VStr (lit " tea ")) (world_ex (doc_ex two_items) [])
    = (Ret item, w2)
    /\ TodoStorage.deleteItem E0 (id_of item) w2 = (Ret true, w3)
    /\ TodoStorage.load E0 w3 = (Ret d3, w4)
    /\ length (items_of d3) = 2%nat.
Proof.
  destruct (addItem_then_deleteItem E0 (VStr (lit " tea "))
              (world_ex (doc_ex two_items) []) eq_refl)
    as (d0 & w0 & item & w2 & Hload & Hadd & Hc & Hdel).
  - discriminate.
  - pose proof Hload as Hd0. vm_compute in Hd0. injection Hd0 as Hd0 _.
    pose proof Hadd as Hitem. vm_compute in Hitem. injection Hitem as Hitem _.
    destruct Hdel as (w3 & l3 & d3 & w4 & Hdel & Hload3 & _ & _ & Hlen).
    + rewrite <- Hd0, <- Hitem. repeat constructor.
    + exists item, w2, w3, d3, w4. split; [exact Hadd|]. split; [exact Hdel|].
      split; [exact Hload3|]. rewrite Hlen, <- Hd0. reflexivity.
Defined.
